(** * A task-driven static-site publisher: model of [main.py] and its properties

    The program receives a task over HTTP, asks a generation service for two
    files, publishes them to a hosted repository and reports to an evaluation
    callback.  Every function of [main.py] that talks to the outside is
    embedded below as a computation that reads the history of the run so far,
    emits the events it performs and either returns a value or raises.  The
    remote parties are an arbitrary function from the history and the call
    made to the outcome of that call, so every interleaving of outside changes
    (files deleted between two reads, expired credentials, ...) is covered by
    a quantification over that function. *)

From Stdlib Require Import ZArith List String Ascii Bool Lia.
Import ListNotations.
Open Scope string_scope.
Open Scope Z_scope.
Open Scope list_scope.
Set Warnings "-register-all".

(** ** Python values *)

(** The values that [json.loads], [response.json()] and the request body
    produce.  Numbers are the integers. *)
Inductive JSON : Type :=
| JNull
| JBool (b : bool)
| JNum (n : Z)
| JStr (s : string)
| JArr (items : list JSON)
| JObj (fields : list (string * JSON)).

(** A [dict] with string keys, in insertion order, keys pairwise distinct. *)
Definition Dict := list (string * JSON).

Fixpoint dict_get (d : Dict) (k : string) : option JSON :=
  match d with
  | [] => None
  | (k', v) :: d' => if String.eqb k k' then Some v else dict_get d' k
  end.

Definition dict_mem (d : Dict) (k : string) : bool :=
  match dict_get d k with Some _ => true | None => false end.

(** [d[k] = v]: replaces the value in place when the key is there, appends
    the key otherwise. *)
Fixpoint dict_set (d : Dict) (k : string) (v : JSON) : Dict :=
  match d with
  | [] => [(k, v)]
  | (k', v') :: d' =>
      if String.eqb k k' then (k', v) :: d' else (k', v') :: dict_set d' k v
  end.

(** [d.get(k, default)] on a dict. *)
Definition get_or (d : Dict) (k : string) (default : JSON) : JSON :=
  match dict_get d k with Some v => v | None => default end.

(** [d.get(k)]: the default is [None]. *)
Definition get (d : Dict) (k : string) : JSON := get_or d k JNull.

(** Truth value of a Python object in a condition. *)
Definition truthy (v : JSON) : bool :=
  match v with
  | JNull => false
  | JBool b => b
  | JNum n => negb (n =? 0)
  | JStr s => negb (String.eqb s "")
  | JArr l => match l with [] => false | _ => true end
  | JObj l => match l with [] => false | _ => true end
  end.

(** [v == "s"] for a string literal [s]. *)
Definition is_str (v : JSON) (s : string) : bool :=
  match v with JStr s' => String.eqb s' s | _ => false end.

(** [v == 1]; Python's [True] equals [1]. *)
Definition is_one (v : JSON) : bool :=
  match v with JNum n => n =? 1 | JBool b => b | _ => false end.

(** [v[:7]] is defined on strings and lists only. *)
Definition sliceable (v : JSON) : bool :=
  match v with JStr _ | JArr _ => true | _ => false end.

(** Structural equality, used to compare the repository and path of two
    calls. *)
Fixpoint json_eqb (a b : JSON) {struct a} : bool :=
  match a, b with
  | JNull, JNull => true
  | JBool x, JBool y => Bool.eqb x y
  | JNum x, JNum y => x =? y
  | JStr x, JStr y => String.eqb x y
  | JArr xs, JArr ys =>
      (fix all2 (xs ys : list JSON) {struct xs} : bool :=
         match xs, ys with
         | [], [] => true
         | x :: xs', y :: ys' => json_eqb x y && all2 xs' ys'
         | _, _ => false
         end) xs ys
  | JObj xs, JObj ys =>
      (fix all2 (xs ys : list (string * JSON)) {struct xs} : bool :=
         match xs, ys with
         | [], [] => true
         | (k, x) :: xs', (k', y) :: ys' =>
             String.eqb k k' && json_eqb x y && all2 xs' ys'
         | _, _ => false
         end) xs ys
  | _, _ => false
  end.

(** ** Exceptions and results *)

Inductive Step : Type :=
| StepCreateRepo | StepEnablePages | StepLatestCommit | StepPushFile | StepLLM.

Inductive Exn : Type :=
| RequestException (detail : string)
    (* raised by [requests] itself: connection refused, timeout, ... *)
| Failed (step : Step) (status : Z)
    (* [raise Exception(f"Failed to ...: {status_code}, ...")] *)
| KeyError (key : string)
| AttributeError
| TypeError
| ValueError
| IndexError
| JSONDecodeError.

Inductive Res (A : Type) : Type :=
| Val (a : A)
| Raise (e : Exn).
Arguments Val {A} a.
Arguments Raise {A} e.

Definition and_then {A B} (r : Res A) (f : A -> Res B) : Res B :=
  match r with
  | Val a => f a
  | Raise e => Raise e
  end.

(** [v.get(k, default)] on an arbitrary value: only a dict has [get]. *)
Definition py_get (v : JSON) (k : string) (default : JSON) : Res JSON :=
  match v with
  | JObj d => Val (get_or d k default)
  | _ => Raise AttributeError
  end.

(** [v[k]] for a string key. *)
Definition py_item (v : JSON) (k : string) : Res JSON :=
  match v with
  | JObj d => match dict_get d k with Some x => Val x | None => Raise (KeyError k) end
  | _ => Raise TypeError
  end.

(** [v[0]]. *)
Definition py_first (v : JSON) : Res JSON :=
  match v with
  | JArr (x :: _) => Val x
  | JArr [] => Raise IndexError
  | JStr s => match s with
              | EmptyString => Raise IndexError
              | String c _ => Val (JStr (String c EmptyString))
              end
  | JObj _ => Raise (KeyError "0")
  | _ => Raise TypeError
  end.

Fixpoint chars (s : string) : list JSON :=
  match s with
  | EmptyString => []
  | String c s' => JStr (String c EmptyString) :: chars s'
  end.

(** [for x in v]: a list gives its items, a string its characters, a dict its
    keys; nothing else is iterable. *)
Definition py_iter (v : JSON) : Res (list JSON) :=
  match v with
  | JArr l => Val l
  | JStr s => Val (chars s)
  | JObj d => Val (map (fun kv => JStr (fst kv)) d)
  | _ => Raise TypeError
  end.

(** [v or []]. *)
Definition or_empty (v : JSON) : JSON := if truthy v then v else JArr [].

(** [d[k]] on a dict. *)
Definition item (d : Dict) (k : string) : Res JSON :=
  match dict_get d k with Some x => Val x | None => Raise (KeyError k) end.

(** ** What the program exchanges with the outside *)

(** The three keys of an entry of [existing_files], which
    [revise_existing_application] builds at one place. *)
Record ExistingFile : Type := {
  ef_name : string;
  ef_content : string;
  ef_sha : JSON
}.

(** One attachment as it enters the prompt: its decoded text, or the data URI
    itself when the text cannot be decoded. *)
Inductive AttachmentText : Type :=
| Decoded (name : JSON) (text : string)
| Verbatim (name : JSON) (data_uri : string).

(** The values interpolated into the prompt template; the fixed text of the
    template is not reproduced.  [p_existing] is [None] in the prompt of
    [write_code_with_llm]. *)
Record Prompt : Type := {
  p_brief : JSON;
  p_checks : list JSON;
  p_attachments : list AttachmentText;
  p_existing : option (list ExistingFile)
}.

Inductive Verb : Type := Update | Add.

(** The body of a file write.  The commit message
    [f"{'Update' if file_action == 'update' else 'Add'} {file_name} - Round {round}"]
    is kept as its three parts. *)
Record PutPayload : Type := {
  message_verb : Verb;
  message_file : JSON;
  message_round : JSON;
  content : string;
  sha : option JSON
}.

(** The body posted to the evaluation callback; [repo_url] and [pages_url]
    are both renderings of the repository name under the account. *)
Record EvaluationPayload : Type := {
  email : JSON;
  task : JSON;
  round : JSON;
  nonce : JSON;
  repo_url : JSON;
  commit_sha : JSON;
  pages_url : JSON
}.

(** One constructor per HTTP call site of [main.py]. *)
Inductive Call : Type :=
| CreateRepo (repo_name : JSON)                      (* POST /user/repos *)
| EnablePages (repo_name : JSON)                     (* POST /repos/../pages *)
| GetCommit (repo_name : JSON) (branch : string)     (* GET /repos/../commits/<branch> *)
| GetRepo (repo_name : JSON)                         (* GET /repos/.. *)
| GetContents (repo_name file_path : JSON) (branch : string)
                                                     (* GET /repos/../contents/<path>?ref= *)
| PutContents (repo_name file_name : JSON) (payload : PutPayload)
                                                     (* PUT /repos/../contents/<name> *)
| ChatCompletion (prompt : Prompt)                   (* POST aipipe chat completions *)
| PostEvaluation (evaluation_url : JSON) (payload : EvaluationPayload).

(** [json] is [None] when the body is not JSON, so that [response.json()]
    raises. *)
Record Response : Type := {
  status_code : Z;
  json : option JSON
}.

Inductive Outcome : Type :=
| Returns (r : Response)
| Raises (e : Exn).

(** The lines written to standard output that record a decision or a failure
    of the workflow.  The remaining prints of [main.py] only echo values; of
    those, the ones that slice a token ([sha[:7]]) appear in the model as the
    check that the slice is defined. *)
Inductive Line : Type :=
| ProcessingTask (repo_name round : JSON)
| RepositoryExists | HasRequiredFiles | MissingRequiredFiles | RepositoryDoesNotExist
| ProcessingAsUpdate (round : JSON)
| ProcessingAsInitialCreation
| UpdateCompleted
| InitialCreationCompleted
| InitialBuildFailed (e : Exn)
| RevisionFailed (e : Exn)
| BackgroundFailed (e : Exn).

Inductive Event : Type :=
| EvHttp (c : Call) (o : Outcome)
| EvSleep (seconds : Z)
| EvPrint (l : Line).

Definition History := list Event.

(** What the remote parties can have noticed of a run: the calls and the
    time spent waiting, not what the process printed. *)
Definition seen_outside (e : Event) : bool :=
  match e with
  | EvPrint _ => false
  | _ => true
  end.

Definition outside_view (h : History) : History := filter seen_outside h.

(** Everything the program does not control: how the remote parties answer a
    call given all that happened before, the library functions whose text is
    not part of the repository, and the configured secret. *)
Record Env : Type := {
  remote : History -> Call -> Outcome;         (* asked with [outside_view] *)
  json_loads : string -> option JSON;          (* [json.loads]; [None]: raises *)
  b64decode_utf8 : string -> option string;    (* [base64.b64decode(s).decode("utf-8")] *)
  b64encode_utf8 : string -> string;           (* [base64.b64encode(s.encode("utf-8")).decode("utf-8")] *)
  SECRET : option string                       (* [os.getenv("SECRET")] *)
}.

(** ** Computations *)

(** A computation reads the history so far, and yields the events it adds
    and its result. *)
Definition M (A : Type) : Type := History -> list Event * Res A.

Definition ret {A} (a : A) : M A := fun _ => ([], Val a).

Definition raise {A} (e : Exn) : M A := fun _ => ([], Raise e).

Definition lift {A} (r : Res A) : M A := fun _ => ([], r).

Definition bind {A B} (m : M A) (f : A -> M B) : M B :=
  fun h =>
    match m h with
    | (es, Val a) => let (es', r) := f a (h ++ es) in (es ++ es', r)
    | (es, Raise e) => (es, Raise e)
    end.

(** [try: m  except Exception as e: handler e]. *)
Definition try_except {A} (m : M A) (handler : Exn -> M A) : M A :=
  fun h =>
    match m h with
    | (es, Val a) => (es, Val a)
    | (es, Raise e) => let (es', r) := handler e (h ++ es) in (es ++ es', r)
    end.

Definition print (l : Line) : M unit := fun _ => ([EvPrint l], Val tt).

Definition sleep (seconds : Z) : M unit := fun _ => ([EvSleep seconds], Val tt).

Declare Scope py_scope.
Delimit Scope py_scope with py.
Notation "x <- m ;; k" := (bind m (fun x => k))
  (at level 100, m at next level, right associativity) : py_scope.
Notation "' pat <- m ;; k" := (bind m (fun x => match x with pat => k end))
  (at level 100, pat pattern, m at next level, right associativity) : py_scope.
Notation "m ;;; k" := (bind m (fun _ => k))
  (at level 100, right associativity) : py_scope.
Open Scope py_scope.

(** [if not cond: raise e] style guards. *)
Definition guard (ok : bool) (e : Exn) : M unit :=
  if ok then ret tt else raise e.

(** [print(f"...{v[:7] if v else 'None'}...")]: nothing observable unless the
    slice is undefined. *)
Definition print_short (v : JSON) : M unit :=
  if truthy v then guard (sliceable v) TypeError else ret tt.

(** ** The functions of [main.py] *)

Definition required_files : list string := ["index.html"; "README.md"].
Definition key_files : list string := ["index.html"; "README.md"].

(** [name in ("index.html", "README.md")]. *)
Definition recognised (name : JSON) : bool :=
  is_str name "index.html" || is_str name "README.md".

Section Program.

Variable E : Env.

(** [requests.get/post/put]: the call is recorded with what came back; a
    transport failure is an exception raised by the call itself. *)
Definition request (c : Call) : M Response :=
  fun h =>
    let o := remote E (outside_view h) c in
    ([EvHttp c o], match o with Returns r => Val r | Raises e => Raise e end).

(** [response.json()]. *)
Definition response_json (response : Response) : M JSON :=
  match json response with
  | Some j => ret j
  | None => raise JSONDecodeError
  end.

Definition validate_secret (secret : JSON) : bool :=
  match secret, SECRET E with
  | JStr s, Some s' => String.eqb s s'
  | JNull, None => true
  | _, _ => false
  end.

Definition create_github_repo (repo_name : JSON) : M JSON :=
  response <- request (CreateRepo repo_name) ;;
  guard (status_code response =? 201)
        (Failed StepCreateRepo (status_code response)) ;;;
  response_json response.

Definition enable_github_pages (repo_name : JSON) : M unit :=
  response <- request (EnablePages repo_name) ;;
  guard ((status_code response =? 201) || (status_code response =? 202))
        (Failed StepEnablePages (status_code response)).

Definition get_sha_of_latest_commit (repo_name : JSON) : M JSON :=
  response <- request (GetCommit repo_name "main") ;;
  guard (status_code response =? 200)
        (Failed StepLatestCommit (status_code response)) ;;;
  j <- response_json response ;;
  lift (py_get j "sha" JNull).

Definition repository_exists (repo_name : JSON) : M bool :=
  response <- request (GetRepo repo_name) ;;
  ret (status_code response =? 200).

(** [base64.b64decode(data.get("content", "")).decode("utf-8") if
    data.get("content") else ""]. *)
Definition decoded_content (c : JSON) : Res string :=
  if truthy c then
    match c with
    | JStr s => match b64decode_utf8 E s with
                | Some text => Val text
                | None => Raise ValueError
                end
    | _ => Raise TypeError
    end
  else Val ""%string.

(** Lines 88-92: what [get_file_content_from_repo] makes of the response. *)
Definition file_content (response : Response) : Res (string * JSON) :=
  if status_code response =? 200 then
    match json response with
    | None => Raise JSONDecodeError
    | Some data =>
        and_then (py_get data "content" JNull) (fun c =>
        and_then (decoded_content c) (fun content =>
        and_then (py_get data "sha" JNull) (fun sha =>
        Val (content, sha))))
    end
  else Val (""%string, JNull).

Definition get_file_content_from_repo (repo_name file_path : JSON)
  : M (string * JSON) :=
  response <- request (GetContents repo_name file_path "main") ;;
  lift (file_content response).

(** The loop of [check_repo_has_required_files] over the remaining paths. *)
Fixpoint check_files (repo_name : JSON) (paths : list string) : M bool :=
  match paths with
  | [] => ret true
  | file_path :: rest =>
      ' (content, _) <- get_file_content_from_repo repo_name (JStr file_path) ;;
      if String.eqb content "" then ret false
      else check_files repo_name rest
  end.

Definition check_repo_has_required_files (repo_name : JSON) : M bool :=
  check_files repo_name required_files.

(** Lines 105-114 of [push_files_to_repo]: an update without a token re-reads
    the file; the result is the token and the action used from there on. *)
Definition refresh_sha (repo_name file_name file_sha file_action : JSON)
  : M (JSON * JSON) :=
  if is_str file_action "update" && negb (truthy file_sha) then
    ' (_, current_sha) <- get_file_content_from_repo repo_name file_name ;;
    if truthy current_sha then
      guard (sliceable current_sha) TypeError ;;;     (* print(... file_sha[:7]) *)
      ret (current_sha, file_action)
    else ret (file_sha, JStr "create")
  else ret (file_sha, file_action).

(** [base64.b64encode(file_content.encode("utf-8")).decode("utf-8")]; a value
    that is not a string has no [encode]. *)
Definition payload_content (file_content : JSON) : M string :=
  match file_content with
  | JStr s => ret (b64encode_utf8 E s)
  | _ => raise AttributeError
  end.

(** The body of the loop of [push_files_to_repo]; the result is the file
    dictionary as the body leaves it. *)
Definition push_file (repo_name round : JSON) (file : Dict) : M Dict :=
  let file_name := get file "name" in
  let file_content := get file "content" in
  let file_sha := get file "sha" in
  let file_action :=
    get_or file "action" (JStr (if is_one round then "create" else "update")) in
  print_short file_sha ;;;
  ' (file_sha, file_action) <-
      refresh_sha repo_name file_name file_sha file_action ;;
  encoded <- payload_content file_content ;;
  let update := is_str file_action "update" in
  let payload :=
    {| message_verb := if update then Update else Add;
       message_file := file_name;
       message_round := round;
       content := encoded;
       sha := if update && truthy file_sha then Some file_sha else None |} in
  response <- request (PutContents repo_name file_name payload) ;;
  guard ((status_code response =? 200) || (status_code response =? 201))
        (Failed StepPushFile (status_code response)) ;;;
  if is_str file_action "create" && negb (dict_mem file "sha") then
    j <- response_json response ;;
    c <- lift (py_get j "content" (JObj [])) ;;
    new_sha <- lift (py_get c "sha" JNull) ;;
    if truthy new_sha then
      guard (sliceable new_sha) TypeError ;;;
      ret (dict_set file "sha" new_sha)
    else ret file
  else ret file.

(** The files are written in the order of the list; the result is the list
    with the tokens the loop stored in its dictionaries. *)
Fixpoint push_files_to_repo (repo_name : JSON) (files : list Dict) (round : JSON)
  : M (list Dict) :=
  match files with
  | [] => ret []
  | file :: rest =>
      file' <- push_file repo_name round file ;;
      rest' <- push_files_to_repo repo_name rest round ;;
      ret (file' :: rest')
  end.

Definition call_llm (prompt : Prompt) : M JSON :=
  response <- request (ChatCompletion prompt) ;;
  guard (status_code response =? 200) (Failed StepLLM (status_code response)) ;;;
  j <- response_json response ;;
  choices <- lift (py_item j "choices") ;;
  choice <- lift (py_first choices) ;;
  message <- lift (py_item choice "message") ;;
  lift (py_item message "content").

(** [json.loads(llm_response)]. *)
Definition loads (llm_response : JSON) : M JSON :=
  match llm_response with
  | JStr s => match json_loads E s with
              | Some j => ret j
              | None => raise JSONDecodeError
              end
  | _ => raise TypeError
  end.

(** [isinstance(data_uri, str) and data_uri.startswith("data:")]. *)
Definition as_data_uri (data_uri : JSON) : option string :=
  match data_uri with
  | JStr s => if prefix "data:" s then Some s else None
  | _ => None
  end.

(** The [try] block of the attachment loop: split at the first comma and
    decode what follows; [None] when any step of it raises. *)
Definition decode_data_uri (data_uri : string) : option string :=
  match index 0 "," data_uri with
  | Some i =>
      b64decode_utf8 E
        (substring (S i) (String.length data_uri - S i) data_uri)
  | None => None
  end.

(** The attachment loop shared by both generation functions. *)
Fixpoint attachment_context (attachments : list JSON) : M (list AttachmentText) :=
  match attachments with
  | [] => ret []
  | attachment :: rest =>
      name <- lift (py_get attachment "name" JNull) ;;
      data_uri <- lift (py_get attachment "url" JNull) ;;
      match as_data_uri data_uri with
      | None => attachment_context rest
      | Some uri =>
          let part := match decode_data_uri uri with
                      | Some text => Decoded name text
                      | None => Verbatim name uri
                      end in
          parts <- attachment_context rest ;;
          ret (part :: parts)
      end
  end.

(** Lines 227-231: the loop that keeps the two recognised names. *)
Fixpoint write_filtered (files : list JSON) : M (list Dict) :=
  match files with
  | [] => ret []
  | item :: rest =>
      name <- lift (py_get item "name" JNull) ;;
      if recognised name then
        content <- lift (py_get item "content" JNull) ;;
        filtered <- write_filtered rest ;;
        ret ([("name"%string, name); ("content"%string, content)] :: filtered)
      else write_filtered rest
  end.

Definition write_code_with_llm (brief checks attachments : JSON) : M (list Dict) :=
  to_attach <- lift (py_iter (or_empty attachments)) ;;
  context <- attachment_context to_attach ;;
  check_list <- lift (py_iter (or_empty checks)) ;;
  llm_response <-
    call_llm {| p_brief := brief; p_checks := check_list;
                p_attachments := context; p_existing := None |} ;;
  response_data <- loads llm_response ;;
  files <- lift (py_get response_data "files" (JArr [])) ;;
  items <- lift (py_iter files) ;;
  write_filtered items.

(** [{ef['name']: ef.get('sha') for ef in existing_files ...}]. *)
Definition sha_map_of (existing_files : list ExistingFile) : Dict :=
  fold_left (fun m ef => dict_set m (ef_name ef) (ef_sha ef)) existing_files [].

(** [sha_map[name]] when [name in sha_map]. *)
Definition sha_map_get (sha_map : Dict) (name : JSON) : option JSON :=
  match name with
  | JStr s => dict_get sha_map s
  | _ => None
  end.

(** Lines 310-323: the loop that keeps the two recognised names and attaches
    the token of the existing file to an update. *)
Fixpoint update_filtered (sha_map : Dict) (files : list JSON) : M (list Dict) :=
  match files with
  | [] => ret []
  | f :: rest =>
      name <- lift (py_get f "name" JNull) ;;
      if recognised name then
        content <- lift (py_get f "content" JNull) ;;
        action <- lift (py_get f "action" (JStr "update")) ;;
        let entry := [("name"%string, name); ("content"%string, content);
                      ("action"%string, action)] in
        let entry :=
          match sha_map_get sha_map name with
          | Some token =>
              if is_str action "update" then dict_set entry "sha" token else entry
          | None => entry
          end in
        filtered <- update_filtered sha_map rest ;;
        ret (entry :: filtered)
      else update_filtered sha_map rest
  end.

Definition update_code_with_llm (brief checks attachments repo_name : JSON)
    (existing_files : list ExistingFile) : M (list Dict) :=
  to_attach <- lift (py_iter (or_empty attachments)) ;;
  context <- attachment_context to_attach ;;
  check_list <- lift (py_iter (or_empty checks)) ;;
  llm_response <-
    call_llm {| p_brief := brief; p_checks := check_list;
                p_attachments := context; p_existing := Some existing_files |} ;;
  response_data <- loads llm_response ;;
  files <- lift (py_get response_data "files" (JArr [])) ;;
  items <- lift (py_iter files) ;;
  update_filtered (sha_map_of existing_files) items.

(** [r.status_code in (200, 201, 202)]. *)
Definition delivered_status (status : Z) : bool :=
  (status =? 200) || (status =? 201) || (status =? 202).

(** The loop of [ping_evaluation_server] over the remaining attempt
    numbers. *)
Fixpoint ping_attempts (evaluation_url : JSON) (payload : EvaluationPayload)
    (attempts : list nat) : M bool :=
  match attempts with
  | [] => ret false
  | attempt :: rest =>
      ok <- try_except
              (r <- request (PostEvaluation evaluation_url payload) ;;
               ret (delivered_status (status_code r)))
              (fun _ => ret false) ;;
      if ok then ret true
      else sleep (2 ^ Z.of_nat attempt) ;;;
           ping_attempts evaluation_url payload rest
  end.

Definition ping_evaluation_server (evaluation_url : JSON)
    (payload : EvaluationPayload) (max_retries : Z) : M bool :=
  ping_attempts evaluation_url payload (seq 0 (Z.to_nat max_retries)).

(** The dictionary literal of lines 349-357 and 403-411; the keys are read
    in the order written. *)
Definition evaluation_payload (data : Dict) (repo_name commit : JSON)
  : M EvaluationPayload :=
  email <- lift (item data "email") ;;
  task <- lift (item data "task") ;;
  round <- lift (item data "round") ;;
  nonce <- lift (item data "nonce") ;;
  ret {| email := email; task := task; round := round; nonce := nonce;
         repo_url := repo_name; commit_sha := commit; pages_url := repo_name |}.

(** The result is the [repo_url] of the returned dictionary. *)
Definition build_initial_application (data : Dict) : M JSON :=
  try_except
    (repo_name <- lift (item data "task") ;;
     brief <- lift (item data "brief") ;;
     files <- write_code_with_llm brief (get_or data "checks" (JArr []))
                                  (get_or data "attachments" (JArr [])) ;;
     create_github_repo repo_name ;;;
     push_files_to_repo repo_name files (JNum 1) ;;;
     enable_github_pages repo_name ;;;
     commit <- get_sha_of_latest_commit repo_name ;;
     payload <- evaluation_payload data repo_name commit ;;
     evaluation_url <- lift (item data "evaluation_url") ;;
     ping_evaluation_server evaluation_url payload 3 ;;;
     ret (repo_url payload))
    (fun e => print (InitialBuildFailed e) ;;; raise e).

(** Lines 371-379: read the key files, keep those with content. *)
Fixpoint fetch_existing (repo_name : JSON) (names : list string)
  : M (list ExistingFile) :=
  match names with
  | [] => ret []
  | file_name :: rest =>
      ' (content, sha) <- get_file_content_from_repo repo_name (JStr file_name) ;;
      if negb (String.eqb content "") then
        print_short sha ;;;
        existing <- fetch_existing repo_name rest ;;
        ret ({| ef_name := file_name; ef_content := content; ef_sha := sha |}
               :: existing)
      else fetch_existing repo_name rest
  end.

(** Lines 386-397 for one file. *)
Definition ensure_sha (existing_files : list ExistingFile) (file : Dict) : Dict :=
  let file_name := get file "name" in
  let file :=
    if dict_mem file "action" then file
    else dict_set file "action" (JStr "update") in
  if is_str (get file "action") "update" && negb (dict_mem file "sha") then
    match find (fun ef => is_str file_name (ef_name ef)) existing_files with
    | Some ef => dict_set file "sha" (ef_sha ef)
    | None => file
    end
  else file.

Definition revise_existing_application (data : Dict) : M JSON :=
  try_except
    (repo_name <- lift (item data "task") ;;
     existing_files <- fetch_existing repo_name key_files ;;
     brief <- lift (item data "brief") ;;
     updated_files <-
       update_code_with_llm brief (get_or data "checks" (JArr []))
                            (get_or data "attachments" (JArr []))
                            repo_name existing_files ;;
     let updated_files := map (ensure_sha existing_files) updated_files in
     push_files_to_repo repo_name updated_files (get_or data "round" (JNum 2)) ;;;
     commit <- get_sha_of_latest_commit repo_name ;;
     payload <- evaluation_payload data repo_name commit ;;
     evaluation_url <- lift (item data "evaluation_url") ;;
     ping_evaluation_server evaluation_url payload 3 ;;;
     ret (repo_url payload))
    (fun e => print (RevisionFailed e) ;;; raise e).

Definition process_task_background (data : Dict) : M unit :=
  try_except
    (let repo_name := get data "task" in
     print (ProcessingTask repo_name (get data "round")) ;;;
     repo_exists <- repository_exists repo_name ;;
     has_required_files <-
       (if repo_exists then
          print RepositoryExists ;;;
          has <- check_repo_has_required_files repo_name ;;
          print (if has then HasRequiredFiles else MissingRequiredFiles) ;;;
          ret has
        else print RepositoryDoesNotExist ;;; ret false) ;;
     if repo_exists && has_required_files then
       print (ProcessingAsUpdate (get data "round")) ;;;
       revise_existing_application data ;;;
       print UpdateCompleted
     else
       print ProcessingAsInitialCreation ;;;
       build_initial_application data ;;;
       print InitialCreationCompleted)
    (fun e => print (BackgroundFailed e)).

(** What the endpoint answers: an [HTTPException] with its status, or the
    returned dictionary. *)
Inductive Reply : Type :=
| HTTPException (status : Z) (missing : option string)
| Body (body : Dict).

Definition required_fields : list string :=
  ["email"; "task"; "brief"; "evaluation_url"].

(** The reply, and the tasks added to [background_tasks]: each is the
    argument of a later call of [process_task_background], run by the
    framework after the reply is sent. *)
Definition handle_task (data : Dict) : Reply * list Dict :=
  if negb (validate_secret (get_or data "secret" (JStr ""))) then
    (HTTPException 401 None, [])
  else
    match find (fun field => negb (dict_mem data field)) required_fields with
    | Some field => (HTTPException 400 (Some field), [])
    | None =>
        (Body [("task"%string, get data "task"); ("round"%string, get data "round");
               ("status"%string, JStr "processing")],
         [data])
    end.

End Program.

(** * Observations on a run *)

(** The outcome of call [c] made after [h]. *)
Definition answer (E : Env) (h : History) (c : Call) : Outcome :=
  remote E (outside_view h) c.

(** What [get_file_content_from_repo] returns for the outcome of its
    request. *)
Definition read_result (E : Env) (o : Outcome) : Res (string * JSON) :=
  match o with
  | Returns r => file_content E r
  | Raises e => Raise e
  end.

(** An attempt of the notifier that did not deliver. *)
Definition attempt_failed (o : Outcome) : bool :=
  match o with
  | Returns r => negb (delivered_status (status_code r))
  | Raises _ => true
  end.

(** The events of consecutive failed attempts numbered from [i]: each post
    is followed by a wait of [2 ^ i]. *)
Fixpoint failed_attempts (evaluation_url : JSON) (payload : EvaluationPayload)
    (i : nat) (failures : list Outcome) : list Event :=
  match failures with
  | [] => []
  | o :: rest =>
      EvHttp (PostEvaluation evaluation_url payload) o
        :: EvSleep (2 ^ Z.of_nat i)
        :: failed_attempts evaluation_url payload (S i) rest
  end.

(** The callback took the post: it answered 200, 201 or 202. *)
Definition delivered (o : Outcome) : bool :=
  match o with
  | Returns r => existsb (Z.eqb (status_code r)) [200; 201; 202]
  | Raises _ => false
  end.

(** [outcomes] are what the callback answers to consecutive attempts
    numbered from [i], the first made after [h] and each next one after the
    post before it and the wait of [2 ^ i] that follows it. *)
Fixpoint attempts_answered (E : Env) (h : History) (evaluation_url : JSON)
    (payload : EvaluationPayload) (i : nat) (outcomes : list Outcome) : Prop :=
  match outcomes with
  | [] => True
  | o :: rest =>
      o = remote E (outside_view h) (PostEvaluation evaluation_url payload) /\
      attempts_answered E
        (h ++ [EvHttp (PostEvaluation evaluation_url payload) o;
               EvSleep (2 ^ Z.of_nat i)])
        evaluation_url payload (S i) rest
  end.

(** The configured secret as the value a request must carry. *)
Definition configured_secret (E : Env) : JSON :=
  match SECRET E with
  | Some s => JStr s
  | None => JNull
  end.

(** The workflow a run is routed to. *)
Inductive Route : Type := Revision | Creation.

(** The route a run announces: the first of the two lines
    "Processing as update operation" and "Processing as initial creation
    operation" that it prints; each is printed right before the call of
    [revise_existing_application], respectively [build_initial_application]. *)
Fixpoint routed (es : list Event) : option Route :=
  match es with
  | [] => None
  | EvPrint (ProcessingAsUpdate _) :: _ => Some Revision
  | EvPrint ProcessingAsInitialCreation :: _ => Some Creation
  | _ :: es' => routed es'
  end.

(** The existence query was answered, with 200 or with another status. *)
Definition reports_exists (o : Outcome) : option bool :=
  match o with
  | Returns r => Some (status_code r =? 200)
  | Raises _ => None
  end.

(** The read of a required file was completed, and gave content or none. *)
Definition reports_readable (E : Env) (o : Outcome) : option bool :=
  match read_result E o with
  | Val (content, _) => Some (negb (String.eqb content ""))
  | Raise _ => None
  end.

(** The state of the repository as the three live queries report it, in the
    words of the specification: [Complete] gives the revision path, [Absent]
    and [IncompleteExists] the creation path.  [README.md] is only asked for
    once [index.html] was readable.  There is no route when a query raises. *)
Definition route_of (E : Env) (repo index readme : Outcome) : option Route :=
  match reports_exists repo with
  | None => None
  | Some false => Some Creation
  | Some true =>
      match reports_readable E index with
      | None => None
      | Some false => Some Creation
      | Some true =>
          match reports_readable E readme with
          | None => None
          | Some false => Some Creation
          | Some true => Some Revision
          end
      end
  end.

(** The three queries of the classification of a run started after [h]. *)
Definition repo_query (E : Env) (repo_name : JSON) (h : History) : Event :=
  EvHttp (GetRepo repo_name) (remote E (outside_view h) (GetRepo repo_name)).

Definition index_query (E : Env) (repo_name : JSON) (h : History) : Event :=
  let call := GetContents repo_name (JStr "index.html") "main" in
  EvHttp call (remote E (outside_view h ++ [repo_query E repo_name h]) call).

Definition readme_query (E : Env) (repo_name : JSON) (h : History) : Event :=
  let call := GetContents repo_name (JStr "README.md") "main" in
  EvHttp call
    (remote E (outside_view h
                 ++ [repo_query E repo_name h; index_query E repo_name h]) call).

Definition outcome_of (e : Event) : Outcome :=
  match e with
  | EvHttp _ o => o
  | _ => Raises ValueError
  end.

(** Every event of [es], emitted after [h], satisfies [G] at the history it
    is emitted in. *)
Fixpoint guarded (G : History -> Event -> Prop) (h : History) (es : list Event)
  : Prop :=
  match es with
  | [] => True
  | e :: es' => G h e /\ guarded G (h ++ [e]) es'
  end.

(** The run of [m] continues a history [before ++ v], of which [v] is the
    part the assertions speak about (the events of the run so far).  With
    [v] in [P], the computation emits only events allowed by [G] and ends,
    with its result and the extended [v], in [Q]. *)
Definition triple {A} (before : History) (P : History -> Prop) (m : M A)
    (G : History -> Event -> Prop) (Q : Res A -> History -> Prop) : Prop :=
  forall v,
    P v ->
    guarded G v (fst (m (before ++ v))) /\
    Q (snd (m (before ++ v))) (v ++ fst (m (before ++ v))).

(** The outcome of the read of [file_path] in [repo_name], if [e] is one. *)
Definition is_read_of (repo_name file_path : JSON) (e : Event) : option Outcome :=
  match e with
  | EvHttp (GetContents r p _) o =>
      if json_eqb r repo_name && json_eqb p file_path then Some o else None
  | _ => None
  end.

(** The outcome of the latest read of the file in [h]. *)
Fixpoint last_read (h : History) (repo_name file_path : JSON) : option Outcome :=
  match h with
  | [] => None
  | e :: h' =>
      match last_read h' repo_name file_path with
      | Some o => Some o
      | None => is_read_of repo_name file_path e
      end
  end.

(** The token most recently read for the file: the one that
    [get_file_content_from_repo] returned at the latest read. *)
Definition last_read_token (E : Env) (h : History) (repo_name file_path : JSON)
  : option JSON :=
  match last_read h repo_name file_path with
  | Some o => match read_result E o with
              | Val (_, token) => Some token
              | Raise _ => None
              end
  | None => None
  end.

(** A write made as an update carries a token, not empty, which is the
    token most recently read for the file written. *)
Definition update_carries_token (E : Env) (h : History) (e : Event) : Prop :=
  match e with
  | EvHttp (PutContents repo_name file_name payload) _ =>
      message_verb payload = Update ->
      exists token,
        sha payload = Some token /\ truthy token = true /\
        last_read_token E h repo_name file_name = Some token
  | _ => True
  end.

Definition is_put (c : Call) : bool :=
  match c with
  | PutContents _ _ _ => true
  | _ => false
  end.

Definition is_read (c : Call) : bool :=
  match c with
  | GetContents _ _ _ => true
  | _ => false
  end.

(** The action of a file as [push_files_to_repo] first takes it: the one the
    file carries, or the default for the round. *)
Definition resolved_action (round : JSON) (file : Dict) : JSON :=
  get_or file "action" (JStr (if is_one round then "create" else "update")).

(** The write of [text] as the content of [file_name]. *)
Definition put_call (E : Env) (repo_name file_name round : JSON) (verb : Verb)
    (text : string) (token : option JSON) : Call :=
  PutContents repo_name file_name
    {| message_verb := verb; message_file := file_name; message_round := round;
       content := b64encode_utf8 E text; sha := token |}.

(** The host has the file (status 200, a JSON object) and its content
    decodes to the empty text. *)
Definition exists_empty (E : Env) (o : Outcome) : bool :=
  match o with
  | Returns r =>
      (status_code r =? 200) &&
      match json r with
      | Some (JObj d) =>
          match decoded_content E (get d "content") with
          | Val text => String.eqb text ""
          | Raise _ => false
          end
      | _ => false
      end
  | Raises _ => false
  end.

Definition is_object (v : JSON) : bool :=
  match v with
  | JObj _ => true
  | _ => false
  end.

(** The fields of a generated file object. *)
Definition field (item : JSON) (k : string) (default : JSON) : JSON :=
  match item with
  | JObj d => get_or d k default
  | _ => default
  end.

Definition recognised_item (item : JSON) : bool :=
  recognised (field item "name" JNull).

(** The entry that [write_code_with_llm] keeps for a recognised item. *)
Definition write_entry (item : JSON) : Dict :=
  [("name"%string, field item "name" JNull);
   ("content"%string, field item "content" JNull)].

(** The entry that [update_code_with_llm] keeps for a recognised item: the
    token of the existing file of that name is attached to an update. *)
Definition update_entry (sha_map : Dict) (item : JSON) : Dict :=
  [("name"%string, field item "name" JNull);
   ("content"%string, field item "content" JNull);
   ("action"%string, field item "action" (JStr "update"))]
  ++ match sha_map_get sha_map (field item "name" JNull) with
     | Some token =>
         if is_str (field item "action" (JStr "update")) "update"
         then [("sha"%string, token)] else []
     | None => []
     end.

(** The file is written as an update unless its token is missing and the
    read made then gives none. *)
Definition is_update (round : JSON) (file : Dict) : bool :=
  is_str (resolved_action round file) "update".

(** The token that each update of [files] carries is the one most recently
    read for its file. *)
Definition tokens_read (E : Env) (repo_name round : JSON) (files : list Dict)
    (v : History) : Prop :=
  forall file,
    In file files -> is_update round file = true ->
    truthy (get file "sha") = true ->
    last_read_token E v repo_name (get file "name") = Some (get file "sha").

(** Two updates of the same file both carry a token or both lack one. *)
Definition tokens_agree (round : JSON) (files : list Dict) : Prop :=
  forall f f',
    In f files -> In f' files ->
    is_update round f = true -> is_update round f' = true ->
    get f "name" = get f' "name" ->
    truthy (get f "sha") = truthy (get f' "sha").

(** The token kept for each existing file is the one most recently read
    for it. *)
Definition existing_read (E : Env) (repo_name : JSON)
    (existing : list ExistingFile) (v : History) : Prop :=
  forall ef,
    In ef existing ->
    last_read_token E v repo_name (JStr (ef_name ef)) = Some (ef_sha ef).

(** The entry of a generated item as the revision hands it to the write
    step. *)
Definition revised (existing : list ExistingFile) (item : JSON) : Dict :=
  ensure_sha existing (update_entry (sha_map_of existing) item).

(** The token that the revision attaches to an update of the file [name]. *)
Definition token_for (existing : list ExistingFile) (name : JSON) : JSON :=
  match sha_map_get (sha_map_of existing) name with
  | Some token => token
  | None =>
      match find (fun ef => is_str name (ef_name ef)) existing with
      | Some ef => ef_sha ef
      | None => JNull
      end
  end.

(** The calls that are neither a file write nor a file read. *)
Definition aside (c : Call) : Prop := is_put c = false /\ is_read c = false.

(** Whatever the history, the computation [m] emits only events in [K] and
    its result is in [Q]. *)
Definition spec {A} (K : Event -> Prop) (m : M A) (Q : Res A -> Prop) : Prop :=
  forall h, Forall K (fst (m h)) /\ Q (snd (m h)).

(** The result is a value in [Q], or an exception. *)
Definition returning {A} (Q : A -> Prop) : Res A -> Prop :=
  fun r => forall a, r = Val a -> Q a.

(** The result is an exception. *)
Definition raising {A} : Res A -> Prop :=
  fun r => forall a, r <> Val a.

Definition anything {A} : Res A -> Prop := fun _ => True.

(** The events whose call, if they are one, is in [P]. *)
Definition calls (P : Call -> Prop) : Event -> Prop :=
  fun e =>
    match e with
    | EvHttp c _ => P c
    | _ => True
    end.

(** The request carries what the evaluation payload reads besides the
    required fields. *)
Definition payload_fields (data : Dict) : Prop :=
  dict_mem data "round" = true /\ dict_mem data "nonce" = true.

(** What [call_llm] returns for the outcome of its request. *)
Definition completion_text (o : Outcome) : Res JSON :=
  match o with
  | Raises e => Raise e
  | Returns r =>
      if status_code r =? 200 then
        match json r with
        | None => Raise JSONDecodeError
        | Some j =>
            and_then (py_item j "choices") (fun choices =>
            and_then (py_first choices) (fun choice =>
            and_then (py_item choice "message") (fun message =>
            py_item message "content")))
        end
      else Raise (Failed StepLLM (status_code r))
  end.

(** [json.loads] of the returned text. *)
Definition parsed (E : Env) (text : JSON) : Res JSON :=
  match text with
  | JStr s => match json_loads E s with
              | Some j => Val j
              | None => Raise JSONDecodeError
              end
  | _ => Raise TypeError
  end.

(** The items that the loop over [response_data.get("files", [])] visits. *)
Definition generated_items (E : Env) (o : Outcome) : Res (list JSON) :=
  and_then (completion_text o) (fun text =>
  and_then (parsed E text) (fun response_data =>
  and_then (py_get response_data "files" (JArr [])) py_iter)).

(** The generated output has the shape the adapters go through without
    raising: JSON text of an object whose [files], when present, is a list
    (or other iterable) of objects. *)
Definition well_formed (E : Env) (o : Outcome) : bool :=
  match generated_items E o with
  | Val items => forallb is_object items
  | Raise _ => false
  end.

(** The calls that change the repository host, and the notification. *)
Definition is_write (c : Call) : bool :=
  match c with
  | CreateRepo _ | EnablePages _ | PutContents _ _ _ => true
  | _ => false
  end.

Definition is_notification (c : Call) : bool :=
  match c with
  | PostEvaluation _ _ => true
  | _ => false
  end.

(** A write of a file names one of the two recognised files. *)
Definition writes_recognised (c : Call) : Prop :=
  match c with
  | PutContents _ file_name _ => recognised file_name = true
  | _ => True
  end.

(** The file writes among the events: the name written and the content
    sent. *)
Definition written (es : list Event) : list (JSON * string) :=
  flat_map (fun e =>
              match e with
              | EvHttp (PutContents _ file_name payload) _ =>
                  [(file_name, content payload)]
              | _ => []
              end) es.

(** What a successful write of [file] sends. *)
Definition to_write (E : Env) (file : Dict) : JSON * string :=
  (get file "name",
   match get file "content" with
   | JStr text => b64encode_utf8 E text
   | _ => ""%string
   end).

(** The seconds spent in [time.sleep] and the posts made to the evaluation
    callback among the events. *)
Fixpoint slept (es : list Event) : Z :=
  match es with
  | [] => 0
  | EvSleep seconds :: es' => seconds + slept es'
  | _ :: es' => slept es'
  end.

Fixpoint posts (es : list Event) : nat :=
  match es with
  | [] => 0%nat
  | EvHttp (PostEvaluation _ _) _ :: es' => S (posts es')
  | _ :: es' => posts es'
  end.

(** The statuses that the function making the call goes on with; the two
    queries of the repository state go on with any status. *)
Definition accepted (c : Call) (status : Z) : bool :=
  match c with
  | CreateRepo _ => status =? 201
  | EnablePages _ => (status =? 201) || (status =? 202)
  | GetCommit _ _ => status =? 200
  | PutContents _ _ _ => (status =? 200) || (status =? 201)
  | ChatCompletion _ => status =? 200
  | GetRepo _ | GetContents _ _ _ | PostEvaluation _ _ => true
  end.

(** The event is not a call that failed: a post to the evaluation callback
    may fail, every other call was answered, with a status accepted. *)
Definition succeeded (e : Event) : bool :=
  match e with
  | EvHttp (PostEvaluation _ _) _ => true
  | EvHttp c (Returns r) => accepted c (status_code r)
  | EvHttp _ (Raises _) => false
  | _ => true
  end.

(** A call is made only when every call before it succeeded. *)
Definition called_after_success (v : History) (e : Event) : Prop :=
  match e with
  | EvHttp _ _ => forallb succeeded v = true
  | _ => True
  end.

(** Once the evaluation callback was posted to, no other call is made. *)
Definition notification_is_last (v : History) (e : Event) : Prop :=
  match e with
  | EvHttp (PostEvaluation _ _) _ => True
  | EvHttp _ _ => posts v = 0%nat
  | _ => True
  end.

(** The place of a call in a run. *)
Definition in_order (v : History) (e : Event) : Prop :=
  called_after_success v e /\ notification_is_last v e.

(** Nothing failed and nothing was posted yet. *)
Definition on_track (v : History) : Prop :=
  forallb succeeded v = true /\ posts v = 0%nat.

(** How a step that posts nothing leaves the run: on track when it returns,
    with nothing posted when it raises. *)
Definition kept_on_track {A} (r : Res A) (v : History) : Prop :=
  match r with
  | Val _ => on_track v
  | Raise _ => posts v = 0%nat
  end.

(** The computation posts nothing, makes each of its calls only when those
    before succeeded, and returns a value only when all of them did. *)
Definition tracked {A} (m : M A) : Prop :=
  forall before, triple before on_track m in_order kept_on_track.

(** The evaluation callback was posted to, at most three times. *)
Definition notified (v : History) : Prop := (1 <= posts v <= 3)%nat.

(** How a workflow ends: notified when it returns, with nothing posted when
    it raises. *)
Definition notified_on_return {A} (r : Res A) (v : History) : Prop :=
  match r with
  | Val _ => notified v
  | Raise _ => posts v = 0%nat
  end.

(** What the last line of a run says about it. *)
Definition closing_line (l : Line) (v : History) : Prop :=
  match l with
  | BackgroundFailed _ => posts v = 0%nat
  | UpdateCompleted | InitialCreationCompleted => notified v
  | _ => False
  end.

(** The run ends with a line that tells how it went. *)
Definition closed (v : History) : Prop :=
  exists pre closing, v = pre ++ [EvPrint closing] /\ closing_line closing v.

(** The post carries what the request said: the address and the four
    fields it echoes, and the repository named by the task. *)
Definition told (data : Dict) (evaluation_url : JSON)
    (payload : EvaluationPayload) : Prop :=
  dict_get data "evaluation_url" = Some evaluation_url /\
  dict_get data "email" = Some (email payload) /\
  dict_get data "task" = Some (task payload) /\
  dict_get data "round" = Some (round payload) /\
  dict_get data "nonce" = Some (nonce payload) /\
  repo_url payload = task payload /\
  pages_url payload = task payload.

(** The call, when made to the repository host, is about the repository
    named by the task of the request, on its main branch; a write names in
    its message the file it writes. *)
Definition addressed (data : Dict) (c : Call) : Prop :=
  match c with
  | GetRepo repo_name | CreateRepo repo_name | EnablePages repo_name =>
      repo_name = get data "task"
  | GetCommit repo_name branch | GetContents repo_name _ branch =>
      repo_name = get data "task" /\ branch = "main"%string
  | PutContents repo_name file_name payload =>
      repo_name = get data "task" /\ message_file payload = file_name
  | ChatCompletion _ | PostEvaluation _ _ => True
  end.

(** The call, when a post to the callback, carries what the request said. *)
Definition reports (data : Dict) (c : Call) : Prop :=
  match c with
  | PostEvaluation evaluation_url payload => told data evaluation_url payload
  | _ => True
  end.

(** The calls of a first build: nothing is read from the repository, and
    every file is added, without token, in round 1. *)
Definition creates (c : Call) : Prop :=
  match c with
  | GetRepo _ | GetContents _ _ _ => False
  | PutContents _ _ payload =>
      message_verb payload = Add /\ sha payload = None /\
      message_round payload = JNum 1
  | _ => True
  end.

(** The calls of a revision: no repository is created, Pages is not
    enabled, and every write is of the round of the request, 2 when it names
    none. *)
Definition revises (data : Dict) (c : Call) : Prop :=
  match c with
  | GetRepo _ | CreateRepo _ | EnablePages _ => False
  | PutContents _ _ payload =>
      message_round payload = get_or data "round" (JNum 2)
  | _ => True
  end.

(** What [get_sha_of_latest_commit] returns for the outcome of its
    request. *)
Definition commit_answer (o : Outcome) : Res JSON :=
  match o with
  | Returns r =>
      if status_code r =? 200 then
        match json r with
        | Some j => py_get j "sha" JNull
        | None => Raise JSONDecodeError
        end
      else Raise (Failed StepLatestCommit (status_code r))
  | Raises e => Raise e
  end.

(** The outcome of the last commit query among the events. *)
Fixpoint last_commit (v : History) : option Outcome :=
  match v with
  | [] => None
  | e :: v' =>
      match last_commit v' with
      | Some o => Some o
      | None =>
          match e with
          | EvHttp (GetCommit _ _) o => Some o
          | _ => None
          end
      end
  end.

(** The last commit query was answered with [commit]. *)
Definition commit_known (commit : JSON) (v : History) : Prop :=
  exists o, last_commit v = Some o /\ commit_answer o = Val commit.

(** A post to the callback carries the commit of the last commit query. *)
Definition reports_last_commit (v : History) (e : Event) : Prop :=
  match e with
  | EvHttp (PostEvaluation _ payload) _ => commit_known (commit_sha payload) v
  | _ => True
  end.

(** The request to the generation service. *)
Definition is_generation (c : Call) : bool :=
  match c with
  | ChatCompletion _ => true
  | _ => false
  end.

(** An answer of the generation service that is not well formed is among
    the events. *)
Definition rejected (E : Env) (v : History) : bool :=
  existsb (fun e => match e with
                    | EvHttp (ChatCompletion _) o => negb (well_formed E o)
                    | _ => false
                    end) v.

(** Nothing was written to the repository host and no notification sent. *)
Definition unpublished (v : History) : Prop :=
  Forall (calls (fun c => is_write c = false /\ is_notification c = false)) v.

(** After an answer that is not well formed nothing is done but printing,
    and the generation service is asked only while nothing is published. *)
Definition stops_at_rejection (E : Env) (v : History) (e : Event) : Prop :=
  match e with
  | EvPrint _ => True
  | EvSleep _ => rejected E v = false
  | EvHttp c _ =>
      rejected E v = false /\ (is_generation c = true -> unpublished v)
  end.

(** No answer that is not well formed so far; and nothing published
    either. *)
Definition judged (E : Env) (v : History) : Prop := rejected E v = false.

Definition untouched (E : Env) (v : History) : Prop :=
  judged E v /\ unpublished v.

(** How a step that went past the generation leaves the run. *)
Definition judged_on_return {A} (E : Env) (r : Res A) (v : History) : Prop :=
  match r with
  | Val _ => judged E v
  | Raise _ => True
  end.

(** Calls made before the generation, and calls made after it. *)
Definition before_generation (c : Call) : Prop :=
  is_write c = false /\ is_notification c = false /\ is_generation c = false.

Definition after_generation (c : Call) : Prop := is_generation c = false.

(** The answers of the generation service among the events. *)
Definition generations (v : History) : list Outcome :=
  flat_map (fun e =>
              match e with
              | EvHttp (ChatCompletion _) o => [o]
              | _ => []
              end) v.

(** The names of the files that are published. *)
Definition published_names : list string := ["index.html"; "README.md"].

(** The name and the content that the write of a generated item sends. *)
Definition expected_write (E : Env) (item : JSON) : JSON * string :=
  (field item "name" JNull,
   match field item "content" JNull with
   | JStr text => b64encode_utf8 E text
   | _ => ""%string
   end).

(** The writes that a generated output calls for: one for each item named
    [index.html] or [README.md], in the order of the output. *)
Definition expected (E : Env) (items : list JSON) : list (JSON * string) :=
  map (expected_write E)
      (filter (fun item =>
                 existsb (is_str (field item "name" JNull)) published_names)
              items).

(** The same, for the answer of the generation service. *)
Definition published (E : Env) (o : Outcome) : list (JSON * string) :=
  match generated_items E o with
  | Val items => expected E items
  | Raise _ => []
  end.

(** The writes made so far are the first of those that the one generated
    output of the run calls for. *)
Definition partly_published (E : Env) (v : History) : Prop :=
  match generations v with
  | [] => written v = []
  | [o] => exists rest, published E o = written v ++ rest
  | _ :: _ :: _ => False
  end.

(** The writes made are all those that the one generated output of the run
    calls for. *)
Definition fully_published (E : Env) (v : History) : Prop :=
  exists o items,
    generations v = [o] /\ generated_items E o = Val items /\
    written v = expected E items.

Definition published_on_return {A} (E : Env) (r : Res A) (v : History) : Prop :=
  match r with
  | Val _ => fully_published E v
  | Raise _ => partly_published E v
  end.

(** The calls that neither write a file nor ask the generation service. *)
Definition beside_publishing (c : Call) : Prop :=
  is_put c = false /\ is_generation c = false.

(** Any event is allowed. *)
Definition unguarded (v : History) (e : Event) : Prop := True.

(** What the adapters leave: the one answer, its items, and the files kept
    from them. *)
Definition generated (E : Env) (entry : JSON -> Dict) (files : list Dict)
    (v : History) : Prop :=
  exists o items,
    generations v = [o] /\ generated_items E o = Val items /\
    written v = [] /\ files = map entry (filter recognised_item items).

(** * Example environments *)

Definition status_only (n : Z) : Outcome :=
  Returns {| status_code := n; json := Some (JObj []) |}.

Definition ok_json (j : JSON) : Outcome :=
  Returns {| status_code := 200; json := Some j |}.

(** The library functions of the examples: [json_loads] knows the documents
    of the examples by name, the base64 functions are the identity. *)
Definition example_env (answers : History -> Call -> Outcome)
    (documents : string -> option JSON) : Env :=
  {| remote := answers;
     json_loads := documents;
     b64decode_utf8 := fun s => Some s;
     b64encode_utf8 := fun s => s;
     SECRET := Some "s3cret"%string |}.

(** A host that rejects the credentials of every call. *)
Definition unauthorized : Env :=
  example_env (fun _ _ => status_only 401) (fun _ => None).

(** The generated documents of the examples. *)
Definition two_files_document : JSON :=
  JObj [("files"%string,
         JArr [JObj [("name"%string, JStr "index.html");
                     ("content"%string, JStr "<html></html>")];
               JObj [("name"%string, JStr "notes.txt");
                     ("content"%string, JStr "scratch")];
               JObj [("name"%string, JStr "README.md");
                     ("content"%string, JStr "# Overview")]])].

Definition no_files_document : JSON := JObj [("files"%string, JArr [])].

Definition documents (text : string) : option JSON :=
  if String.eqb text "two-files" then Some two_files_document
  else if String.eqb text "no-files" then Some no_files_document
  else None.

(** A chat completion whose message content is [text]. *)
Definition completion (text : string) : Outcome :=
  ok_json
    (JObj [("choices"%string,
            JArr [JObj [("message"%string,
                         JObj [("content"%string, JStr text)])]])]).

(** A host on which the repository does not exist yet and every step of the
    creation succeeds; the generation service answers [text]; the evaluation
    callback accepts. *)
Definition fresh_host (text : string) (h : History) (c : Call) : Outcome :=
  match c with
  | GetRepo _ => status_only 404
  | GetContents _ _ _ => status_only 404
  | ChatCompletion _ => completion text
  | CreateRepo _ => status_only 201
  | PutContents _ _ _ => status_only 201
  | EnablePages _ => status_only 201
  | GetCommit _ _ => ok_json (JObj [("sha"%string, JStr "c0ffee")])
  | PostEvaluation _ _ => status_only 200
  end.

(** A host on which the repository exists with both files. *)
Definition live_host (h : History) (c : Call) : Outcome :=
  match c with
  | GetRepo _ => status_only 200
  | GetContents _ path _ =>
      if is_str path "index.html" then
        ok_json (JObj [("content"%string, JStr "<html>old</html>");
                       ("sha"%string, JStr "1ndex5ha")])
      else
        ok_json (JObj [("content"%string, JStr "# Old");
                       ("sha"%string, JStr "readme5ha")])
  | ChatCompletion _ => completion "two-files"
  | CreateRepo _ => status_only 422
  | PutContents _ _ _ => status_only 200
  | EnablePages _ => status_only 201
  | GetCommit _ _ => ok_json (JObj [("sha"%string, JStr "c0ffee")])
  | PostEvaluation _ _ => status_only 200
  end.

(** The same host after [index.html] was emptied: the file is there, with a
    token, and has no content. *)
Definition emptied_host (h : History) (c : Call) : Outcome :=
  match c with
  | GetContents _ path _ =>
      if is_str path "index.html" then
        ok_json (JObj [("content"%string, JStr "");
                       ("sha"%string, JStr "1ndex5ha")])
      else live_host h c
  | _ => live_host h c
  end.

(** A fresh host that refuses to write [README.md]. *)
Definition protected_host (h : History) (c : Call) : Outcome :=
  match c with
  | PutContents _ name _ =>
      if is_str name "README.md" then status_only 422 else status_only 201
  | _ => fresh_host "two-files" h c
  end.

(** A fresh host that accepts every write and answers it without a body. *)
Definition terse_host (h : History) (c : Call) : Outcome :=
  match c with
  | PutContents _ _ _ => Returns {| status_code := 201; json := None |}
  | _ => fresh_host "two-files" h c
  end.

(** A host that answers every call with status 200 and a body that is not
    JSON. *)
Definition bodyless : Env :=
  example_env (fun _ _ => Returns {| status_code := 200; json := None |})
              (fun _ => None).

(** A callback that is unavailable at the first post and accepts (202) once
    it has been posted to. *)
Definition flaky_host (h : History) (c : Call) : Outcome :=
  match c with
  | PostEvaluation _ _ =>
      if existsb (fun e => match e with
                           | EvHttp (PostEvaluation _ _) _ => true
                           | _ => false
                           end) h
      then status_only 202 else status_only 503
  | _ => fresh_host "two-files" h c
  end.

Definition flaky : Env := example_env flaky_host documents.

(** The live host, on which [index.html] is emptied once it has been read:
    the first read of the file gives its content, every later one an empty
    content with the token of the file. *)
Definition emptied_later_host (h : History) (c : Call) : Outcome :=
  match c with
  | GetContents _ path _ =>
      if is_str path "index.html" &&
         existsb (fun e => match e with
                           | EvHttp (GetContents _ p _) _ => is_str p "index.html"
                           | _ => false
                           end) h
      then emptied_host h c else live_host h c
  | _ => live_host h c
  end.

Definition emptied_later : Env := example_env emptied_later_host documents.

Definition fresh : Env := example_env (fresh_host "two-files") documents.
Definition live : Env := example_env live_host documents.
Definition emptied : Env := example_env emptied_host documents.

(** A fresh host where the generation service answers text that is not
    JSON, and one where it answers a document without files. *)
Definition garbled : Env := example_env (fresh_host "Sure! Here you go") documents.
Definition without_files : Env := example_env (fresh_host "no-files") documents.

Definition protected : Env := example_env protected_host documents.

(** Generated files as the first build hands them to the write step. *)
Definition index_file : Dict :=
  [("name"%string, JStr "index.html"); ("content"%string, JStr "<html></html>")].
Definition readme_file : Dict :=
  [("name"%string, JStr "README.md"); ("content"%string, JStr "# Overview")].

Definition terse : Env := example_env terse_host documents.

(** The existing [index.html] as a revision reads it on the live host, and a
    generated item that asks to create that file. *)
Definition existing_index : ExistingFile :=
  {| ef_name := "index.html"; ef_content := "<html>old</html>";
     ef_sha := JStr "1ndex5ha" |}.

Definition recreated_index : JSON :=
  JObj [("name"%string, JStr "index.html");
        ("content"%string, JStr "<html>new</html>");
        ("action"%string, JStr "create")].

Definition full_request : Dict :=
  [("secret"%string, JStr "s3cret"); ("email"%string, JStr "dev@example.org");
   ("task"%string, JStr "site"); ("brief"%string, JStr "a landing page");
   ("evaluation_url"%string, JStr "https://eval.example.org/notify");
   ("round"%string, JNum 2); ("nonce"%string, JStr "n-1")].

Definition request_without_round : Dict :=
  [("secret"%string, JStr "s3cret"); ("email"%string, JStr "dev@example.org");
   ("task"%string, JStr "site"); ("brief"%string, JStr "a landing page");
   ("evaluation_url"%string, JStr "https://eval.example.org/notify");
   ("nonce"%string, JStr "n-1")].

Definition request_without_brief : Dict :=
  [("secret"%string, JStr "s3cret"); ("email"%string, JStr "dev@example.org");
   ("task"%string, JStr "site");
   ("evaluation_url"%string, JStr "https://eval.example.org/notify")].

Definition request_with_wrong_secret : Dict :=
  [("secret"%string, JStr "guess"); ("email"%string, JStr "dev@example.org");
   ("task"%string, JStr "site"); ("brief"%string, JStr "a landing page");
   ("evaluation_url"%string, JStr "https://eval.example.org/notify")].

Definition request_without_secret : Dict :=
  [("email"%string, JStr "dev@example.org");
   ("task"%string, JStr "site"); ("brief"%string, JStr "a landing page");
   ("evaluation_url"%string, JStr "https://eval.example.org/notify")].

(** * Properties *)

Section Facts.

Variable E : Env.

Lemma get_file_content_from_repo_run (repo_name file_path : JSON) (h : History) :
  get_file_content_from_repo E repo_name file_path h =
  ([EvHttp (GetContents repo_name file_path "main")
           (answer E h (GetContents repo_name file_path "main"))],
   read_result E (answer E h (GetContents repo_name file_path "main"))).
Proof.
  unfold get_file_content_from_repo, bind, request, lift, read_result, answer.
  destruct (remote E _ _) as [r | e]; reflexivity.
Qed.

Lemma repository_exists_run (repo_name : JSON) (h : History) :
  repository_exists E repo_name h =
  ([EvHttp (GetRepo repo_name) (answer E h (GetRepo repo_name))],
   match answer E h (GetRepo repo_name) with
   | Returns r => Val (status_code r =? 200)
   | Raises e => Raise e
   end).
Proof.
  unfold repository_exists, bind, request, ret, answer.
  destruct (remote E _ _); reflexivity.
Qed.

Lemma check_repo_has_required_files_run (repo_name : JSON) (h : History) :
  let index := GetContents repo_name (JStr "index.html") "main" in
  let readme := GetContents repo_name (JStr "README.md") "main" in
  let e2 := EvHttp index (answer E h index) in
  let e3 := EvHttp readme (answer E (h ++ [e2]) readme) in
  check_repo_has_required_files E repo_name h =
  match read_result E (answer E h index) with
  | Raise e => ([e2], Raise e)
  | Val (content, _) =>
      if String.eqb content "" then ([e2], Val false)
      else match read_result E (answer E (h ++ [e2]) readme) with
           | Raise e => ([e2; e3], Raise e)
           | Val (content', _) => ([e2; e3], Val (negb (String.eqb content' "")))
           end
  end.
Proof.
  intros index readme e2 e3.
  unfold check_repo_has_required_files, required_files, check_files.
  unfold bind at 1. rewrite get_file_content_from_repo_run.
  fold index e2.
  destruct (read_result E (answer E h index)) as [[content sha]|e]; [|reflexivity].
  destruct (String.eqb content ""); [reflexivity|].
  unfold bind. rewrite get_file_content_from_repo_run. fold readme e3.
  destruct (read_result E (answer E (h ++ [e2]) readme)) as [[content' sha']|e];
    [|reflexivity].
  destruct (String.eqb content' ""); reflexivity.
Qed.

End Facts.


(** ** Histories *)

Lemma outside_view_app (h h' : History) :
  outside_view (h ++ h') = outside_view h ++ outside_view h'.
Proof. apply filter_app. Qed.


(** ** Reading a file *)

(** C6, as the code has it: any status other than 200 is reported as the
    empty result; an exception raised by the request itself reaches the
    caller unchanged; an answer with status 200 is decoded, which raises
    when the body is not JSON, is not an object, or has a content that is
    not text or does not decode, and gives the empty content with the token
    of the file when the content is empty or absent. *)
Theorem get_file_content_from_repo_outcomes :
  forall (E : Env) (repo_name file_path : JSON) (h : History),
    let call := GetContents repo_name file_path "main" in
    let run := get_file_content_from_repo E repo_name file_path h in
    (forall r, answer E h call = Returns r -> status_code r <> 200 ->
       run = ([EvHttp call (Returns r)], Val (""%string, JNull))) /\
    (forall e, answer E h call = Raises e ->
       run = ([EvHttp call (Raises e)], Raise e)) /\
    (forall r, answer E h call = Returns r -> status_code r = 200 ->
       run =
       ([EvHttp call (Returns r)],
        match json r with
        | None => Raise JSONDecodeError
        | Some (JObj data) =>
            if truthy (get data "content") then
              match get data "content" with
              | JStr encoded =>
                  match b64decode_utf8 E encoded with
                  | Some text => Val (text, get data "sha")
                  | None => Raise ValueError
                  end
              | _ => Raise TypeError
              end
            else Val (""%string, get data "sha")
        | Some _ => Raise AttributeError
        end)).
Proof.
  intros E repo_name file_path h call run. subst run.
  rewrite get_file_content_from_repo_run. fold call. split; [|split].
  - intros r Hr Hstatus. rewrite Hr. simpl. unfold file_content.
    apply Z.eqb_neq in Hstatus. rewrite Hstatus. reflexivity.
  - intros e He. rewrite He. reflexivity.
  - intros r Hr Hstatus. rewrite Hr. cbn [read_result]. unfold file_content.
    rewrite Hstatus. cbn [Z.eqb Pos.eqb].
    destruct (json r) as [[| | | | |data]|]; try reflexivity.
    cbn [py_get and_then]. unfold decoded_content, get.
    destruct (truthy (get_or data "content" JNull)); [|reflexivity].
    destruct (get_or data "content" JNull); try reflexivity.
    destruct (b64decode_utf8 E _); reflexivity.
Qed.

Lemma get_file_content_from_repo_outcomes_witness :
  get_file_content_from_repo unauthorized (JStr "site") (JStr "index.html") [] =
  ([EvHttp (GetContents (JStr "site") (JStr "index.html") "main") (status_only 401)],
   Val (""%string, JNull)) /\
  get_file_content_from_repo bodyless (JStr "site") (JStr "index.html") [] =
  ([EvHttp (GetContents (JStr "site") (JStr "index.html") "main")
           (Returns {| status_code := 200; json := None |})],
   Raise JSONDecodeError).
Proof.
  split.
  - apply (proj1 (get_file_content_from_repo_outcomes
                    unauthorized (JStr "site") (JStr "index.html") [])
                 {| status_code := 401; json := Some (JObj []) |}).
    + reflexivity.
    + simpl. lia.
  - apply (proj2 (proj2 (get_file_content_from_repo_outcomes
                           bodyless (JStr "site") (JStr "index.html") []))
                 {| status_code := 200; json := None |});
      reflexivity.
Defined.

(** C6 as stated fails: the host answers 401 (credentials rejected) and the
    caller gets the empty result, not an error. *)
Lemma auth_failure_read_as_absent :
  answer unauthorized [] (GetContents (JStr "site") (JStr "index.html") "main")
    = status_only 401 /\
  snd (get_file_content_from_repo unauthorized (JStr "site") (JStr "index.html") [])
    = Val (""%string, JNull).
Proof. split; reflexivity. Qed.

(** ** The notifier *)

Lemma ping_attempts_run (E : Env) (evaluation_url : JSON)
    (payload : EvaluationPayload) :
  forall (n i : nat) (h : History),
  exists (failures : list Outcome) (final : option Outcome),
    Forall (fun o => attempt_failed o = true) failures /\
    match final with
    | Some o =>
        attempt_failed o = false /\ (List.length failures < n)%nat /\
        ping_attempts E evaluation_url payload (seq i n) h =
        (failed_attempts evaluation_url payload i failures
           ++ [EvHttp (PostEvaluation evaluation_url payload) o], Val true)
    | None =>
        List.length failures = n /\
        ping_attempts E evaluation_url payload (seq i n) h =
        (failed_attempts evaluation_url payload i failures, Val false)
    end.
Proof.
  induction n as [|n IH]; intros i h.
  - exists [], None. repeat split; constructor.
  - simpl seq. simpl ping_attempts.
    set (call := PostEvaluation evaluation_url payload).
    assert (Hstep : forall k,
              bind (try_except
                      (r <- request E call ;;
                       ret (delivered_status (status_code r)))
                      (fun _ => ret false))
                   (fun ok => if ok then ret true
                              else sleep (2 ^ Z.of_nat i) ;;; k) h =
              if attempt_failed (answer E h call) then
                let (es, r) := k ((h ++ [EvHttp call (answer E h call)])
                                    ++ [EvSleep (2 ^ Z.of_nat i)]) in
                (EvHttp call (answer E h call)
                   :: EvSleep (2 ^ Z.of_nat i) :: es, r)
              else ([EvHttp call (answer E h call)], Val true)).
    { intros k. unfold bind, try_except, request, ret, sleep, answer.
      destruct (remote E _ call) as [r | e]; simpl.
      - destruct (delivered_status (status_code r)); simpl;
          [reflexivity | destruct (k _); reflexivity].
      - destruct (k _); reflexivity. }
    rewrite Hstep.
    destruct (attempt_failed (answer E h call)) eqn:Hfail.
    + destruct (IH (S i) ((h ++ [EvHttp call (answer E h call)])
                            ++ [EvSleep (2 ^ Z.of_nat i)]))
        as (failures & final & Hall & Hfinal).
      exists (answer E h call :: failures), final. split.
      * constructor; assumption.
      * destruct final as [o|].
        -- destruct Hfinal as (Ho & Hlen & Hrun).
           rewrite Hrun. repeat split; [assumption | simpl; lia].
        -- destruct Hfinal as (Hlen & Hrun).
           rewrite Hrun. split; [simpl; lia | reflexivity].
    + exists [], (Some (answer E h call)). split; [constructor|].
      split; [assumption|]. split; [simpl; lia | reflexivity].
Qed.

Lemma ping_attempts_step (E : Env) (evaluation_url : JSON)
    (payload : EvaluationPayload) (i : nat) (rest : list nat) (h : History) :
  let call := PostEvaluation evaluation_url payload in
  let o := answer E h call in
  ping_attempts E evaluation_url payload (i :: rest) h =
  if delivered o then ([EvHttp call o], Val true)
  else
    let (es, r) :=
      ping_attempts E evaluation_url payload rest
        (h ++ [EvHttp call o; EvSleep (2 ^ Z.of_nat i)]) in
    (EvHttp call o :: EvSleep (2 ^ Z.of_nat i) :: es, r).
Proof.
  cbv zeta. cbn [ping_attempts].
  unfold bind, try_except, request, ret, sleep, answer, delivered,
    delivered_status.
  destruct (remote E _ _) as [r | e]; cbn [existsb].
  - destruct (status_code r =? 200), (status_code r =? 201),
      (status_code r =? 202); cbn [orb app];
      rewrite <- ?app_assoc; cbn [app];
      try reflexivity;
      destruct (ping_attempts _ _ _ _ _); reflexivity.
  - cbn [app]. rewrite <- ?app_assoc. cbn [app].
    destruct (ping_attempts _ _ _ _ _); reflexivity.
Qed.

Lemma ping_attempts_trace (E : Env) (evaluation_url : JSON)
    (payload : EvaluationPayload) :
  forall (n i : nat) (h : History),
    let call := PostEvaluation evaluation_url payload in
    exists failures : list Outcome,
      attempts_answered E h evaluation_url payload i failures /\
      Forall (fun o => delivered o = false) failures /\
      let trace := failed_attempts evaluation_url payload i failures in
      let next := answer E (h ++ trace) call in
      if (List.length failures <? n)%nat
      then delivered next = true /\
           ping_attempts E evaluation_url payload (seq i n) h
           = (trace ++ [EvHttp call next], Val true)
      else List.length failures = n /\
           ping_attempts E evaluation_url payload (seq i n) h
           = (trace, Val false).
Proof.
  induction n as [|n IH]; intros i h call.
  - exists []. cbn. auto.
  - cbn [seq]. rewrite ping_attempts_step. fold call.
    destruct (delivered (answer E h call)) eqn:Hnow.
    + exists []. cbn [attempts_answered failed_attempts List.length app].
      rewrite app_nil_r. change (0 <? S n)%nat with true. cbv beta iota.
      repeat split; [constructor | exact Hnow].
    + destruct (IH (S i) (h ++ [EvHttp call (answer E h call);
                                EvSleep (2 ^ Z.of_nat i)]))
        as (failures & Hanswered & Hfailed & Hrun).
      exists (answer E h call :: failures).
      cbn [attempts_answered failed_attempts List.length].
      split; [split; [reflexivity | exact Hanswered]|].
      split; [constructor; assumption|].
      cbv zeta in Hrun |- *. fold call in Hrun.
      change (S (List.length failures) <? S n)%nat
        with (List.length failures <? n)%nat.
      rewrite <- app_assoc in Hrun. cbn [app] in Hrun.
      destruct (List.length failures <? n)%nat.
      * destruct Hrun as [Hnext Hrun]. rewrite Hrun.
        split; [exact Hnext | reflexivity].
      * destruct Hrun as [Hlen Hrun]. rewrite Hrun.
        split; [congruence | reflexivity].
Qed.

(** C5: the posts of a call are what the callback answers, one after the
    other.  A post that is not answered 200, 201 or 202 (an exception of the
    request included) is followed by a wait of [2 ^ i] for the attempt
    number [i] counted from 0, and by the next attempt; the first post
    answered 200, 201 or 202 ends the call with [True]; after [max_retries]
    posts that were not, the call ends with [False]; the call never
    raises. *)
Theorem ping_evaluation_server_backoff :
  forall (E : Env) (evaluation_url : JSON) (payload : EvaluationPayload)
         (max_retries : Z) (h : History),
    let call := PostEvaluation evaluation_url payload in
    let run := ping_evaluation_server E evaluation_url payload max_retries h in
    exists failures : list Outcome,
      attempts_answered E h evaluation_url payload 0 failures /\
      Forall (fun o => delivered o = false) failures /\
      let trace := failed_attempts evaluation_url payload 0 failures in
      let next := answer E (h ++ trace) call in
      if (List.length failures <? Z.to_nat max_retries)%nat
      then delivered next = true /\
           run = (trace ++ [EvHttp call next], Val true)
      else List.length failures = Z.to_nat max_retries /\
           run = (trace, Val false).
Proof.
  intros. unfold run, ping_evaluation_server. apply ping_attempts_trace.
Qed.

Lemma ping_evaluation_server_backoff_witness :
  let call := PostEvaluation (JStr "https://eval.example.org/notify")
                {| email := JStr "dev@example.org"; task := JStr "site";
                   round := JNum 2; nonce := JStr "n-1"; repo_url := JStr "site";
                   commit_sha := JStr "c0ffee"; pages_url := JStr "site" |} in
  ping_evaluation_server flaky (JStr "https://eval.example.org/notify")
    {| email := JStr "dev@example.org"; task := JStr "site";
       round := JNum 2; nonce := JStr "n-1"; repo_url := JStr "site";
       commit_sha := JStr "c0ffee"; pages_url := JStr "site" |} 3 []
  = ([EvHttp call (status_only 503); EvSleep 1; EvHttp call (status_only 202)],
     Val true).
Proof.
  intros call.
  destruct (ping_evaluation_server_backoff flaky
              (JStr "https://eval.example.org/notify")
              {| email := JStr "dev@example.org"; task := JStr "site";
                 round := JNum 2; nonce := JStr "n-1"; repo_url := JStr "site";
                 commit_sha := JStr "c0ffee"; pages_url := JStr "site" |} 3 [])
    as (failures & Hanswered & Hfailed & Hrun).
  destruct failures as [|first [|second failures]].
  - destruct Hrun as [Hnext _]. discriminate Hnext.
  - destruct Hanswered as [-> _]. exact (proj2 Hrun).
  - destruct Hanswered as [-> [-> _]].
    inversion Hfailed as [|? ? _ Hrest]. inversion Hrest as [|? ? Hsecond _].
    discriminate Hsecond.
Defined.

(** ** Intake *)

Lemma validate_secret_true (E : Env) (secret : JSON) :
  validate_secret E secret = true <-> secret = configured_secret E.
Proof.
  unfold validate_secret, configured_secret.
  destruct secret, (SECRET E); split; intros H;
    try discriminate; try reflexivity.
  - apply String.eqb_eq in H. congruence.
  - inversion H. apply String.eqb_refl.
Qed.

Lemma process_task_background_returns (E : Env) (data : Dict) (h : History) :
  exists es, process_task_background E data h = (es, Val tt).
Proof.
  unfold process_task_background, try_except at 1.
  match goal with |- context [match ?m h with _ => _ end] =>
    destruct (m h) as [es [[]|e]] end.
  - eexists; reflexivity.
  - unfold print. eexists; reflexivity.
Qed.

(** C7: a request whose secret differs from the configured one is answered
    401; with the right secret and one of [email], [task], [brief],
    [evaluation_url] missing it is answered 400; otherwise the workflow is
    added to the background tasks and the reply is
    [{task, round, status: "processing"}].  The reply is computed without
    any call to the outside, so it is the same however the remote parties
    behave, and the workflow that runs later ends without raising. *)
Theorem handle_task_replies :
  forall (E : Env) (data : Dict),
    let supplied := get_or data "secret" (JStr "") in
    (supplied <> configured_secret E ->
       handle_task E data = (HTTPException 401 None, [])) /\
    (supplied = configured_secret E ->
       (exists field, In field required_fields /\ dict_mem data field = false) ->
       exists missing,
         In missing required_fields /\ dict_mem data missing = false /\
         handle_task E data = (HTTPException 400 (Some missing), [])) /\
    (supplied = configured_secret E ->
       (forall field, In field required_fields -> dict_mem data field = true) ->
       handle_task E data =
       (Body [("task"%string, get data "task"); ("round"%string, get data "round");
              ("status"%string, JStr "processing")],
        [data])) /\
    (forall E', SECRET E' = SECRET E -> handle_task E' data = handle_task E data) /\
    (forall h, exists es, process_task_background E data h = (es, Val tt)).
Proof.
  intros E data supplied. unfold handle_task. fold supplied.
  repeat split.
  - intros Hne.
    destruct (validate_secret E supplied) eqn:Hv; [|reflexivity].
    apply validate_secret_true in Hv. contradiction.
  - intros Heq (field & Hin & Hmiss).
    apply validate_secret_true in Heq. rewrite Heq. simpl negb. cbv iota.
    destruct (find (fun f => negb (dict_mem data f)) required_fields)
      as [missing|] eqn:Hfind.
    + apply find_some in Hfind as [Hin' Hmem].
      exists missing. apply negb_true_iff in Hmem. auto.
    + apply (find_none _ _ Hfind) in Hin. rewrite Hmiss in Hin. discriminate.
  - intros Heq Hall.
    apply validate_secret_true in Heq. rewrite Heq. simpl negb. cbv iota.
    unfold required_fields in *. simpl find.
    rewrite !Hall by (simpl; auto 6). reflexivity.
  - intros E' HS. unfold validate_secret. rewrite HS. reflexivity.
  - intros h. apply process_task_background_returns.
Qed.

Lemma handle_task_replies_witness :
  handle_task fresh request_with_wrong_secret = (HTTPException 401 None, []) /\
  (exists missing,
     In missing required_fields /\
     dict_mem request_without_brief missing = false /\
     handle_task fresh request_without_brief
       = (HTTPException 400 (Some missing), [])) /\
  handle_task fresh full_request =
    (Body [("task"%string, JStr "site"); ("round"%string, JNum 2);
           ("status"%string, JStr "processing")],
     [full_request]).
Proof.
  split; [|split].
  - apply (proj1 (handle_task_replies fresh request_with_wrong_secret)).
    discriminate.
  - apply (proj1 (proj2 (handle_task_replies fresh request_without_brief))).
    + reflexivity.
    + exists "brief"%string. split; [simpl; auto | reflexivity].
  - apply (proj1 (proj2 (proj2 (handle_task_replies fresh full_request)))).
    + reflexivity.
    + intros field [<-|[<-|[<-|[<-|[]]]]]; reflexivity.
Defined.

(** ** Routing *)

(** Bring every history a call was answered in to the form
    [outside_view h ++ calls]. *)
Ltac view_norm :=
  unfold answer, outside_view in *;
  rewrite ?filter_app in *;
  cbn [filter seen_outside] in *;
  rewrite <- ?app_assoc in *;
  cbn [app] in *;
  rewrite ?app_nil_r in *.

Ltac reduce_in H := cbv beta iota in H; cbn [andb negb fst snd] in H; view_norm.

#[local] Opaque revise_existing_application build_initial_application.

Ltac aborted H :=
  let Hd := fresh "Hd" in
  reduce_in H; inversion H; subst; simpl;
  split; [reflexivity | split; intros Hd; discriminate Hd].

Ltac creation H E data pre n :=
  reduce_in H;
  match type of H with context [build_initial_application E data ?hh] =>
    let eb := fresh "eb" in
    let rb := fresh "rb" in
    let Hb := fresh "Hb" in
    let Hd := fresh "Hd" in
    destruct (build_initial_application E data hh) as [eb rb] eqn:Hb;
    split; [|split; intros Hd; [discriminate Hd|]];
    [ destruct rb; inversion H; subst; reflexivity
    | exists pre,
        (match rb with
         | Val _ => EvPrint InitialCreationCompleted
         | Raise e => EvPrint (BackgroundFailed e)
         end), n;
      split; [reflexivity|]; cbn [app]; rewrite Hb;
      destruct rb; inversion H; subst; reflexivity ]
  end.

Lemma process_task_background_classified :
  forall (E : Env) (data : Dict) (h : History),
    let repo_name := get data "task" in
    let q1 := repo_query E repo_name h in
    let q2 := index_query E repo_name h in
    let q3 := readme_query E repo_name h in
    let route := route_of E (outcome_of q1) (outcome_of q2) (outcome_of q3) in
    let es := fst (process_task_background E data h) in
    routed es = route /\
    (route = Some Revision ->
       exists pre closing,
         outside_view pre = [q1; q2; q3] /\
         let line := EvPrint (ProcessingAsUpdate (get data "round")) in
         es = pre ++ line
                :: fst (revise_existing_application E data (h ++ pre ++ [line]))
                ++ [closing]) /\
    (route = Some Creation ->
       exists pre closing n,
         outside_view pre = firstn n [q1; q2; q3] /\
         let line := EvPrint ProcessingAsInitialCreation in
         es = pre ++ line
                :: fst (build_initial_application E data (h ++ pre ++ [line]))
                ++ [closing]).
Proof.
  intros E data h repo_name q1 q2 q3 route es.
  subst es route q3 q2 q1.
  destruct (process_task_background E data h) as [es r] eqn:Hrun.
  unfold process_task_background, repository_exists,
    check_repo_has_required_files, required_files, check_files,
    get_file_content_from_repo, request, try_except, bind, print, ret, lift
    in Hrun.
  fold repo_name in Hrun.
  unfold route_of, reports_exists, reports_readable, read_result,
    readme_query, index_query, repo_query, outcome_of.
  reduce_in Hrun.
  destruct (remote E (filter seen_outside h) (GetRepo repo_name)) as [r1|e1];
    [|aborted Hrun].
  reduce_in Hrun.
  destruct (status_code r1 =? 200) eqn:Hs1;
    [|creation Hrun E data
        [EvPrint (ProcessingTask repo_name (get data "round"));
         EvHttp (GetRepo repo_name) (Returns r1);
         EvPrint RepositoryDoesNotExist] 1%nat].
  reduce_in Hrun.
  match type of Hrun with context [match remote E ?hh ?c with _ => _ end] =>
    destruct (remote E hh c) as [r2|e2] eqn:Hq2 end; [|aborted Hrun].
  reduce_in Hrun.
  destruct (file_content E r2) as [[content2 sha2]|e2]; [|aborted Hrun].
  reduce_in Hrun.
  destruct (String.eqb content2 "");
    [creation Hrun E data
        [EvPrint (ProcessingTask repo_name (get data "round"));
         EvHttp (GetRepo repo_name) (Returns r1);
         EvPrint RepositoryExists;
         EvHttp (GetContents repo_name (JStr "index.html") "main") (Returns r2);
         EvPrint MissingRequiredFiles] 2%nat|].
  reduce_in Hrun.
  match type of Hrun with context [match remote E ?hh ?c with _ => _ end] =>
    destruct (remote E hh c) as [r3|e3] eqn:Hq3 end; [|aborted Hrun].
  reduce_in Hrun.
  destruct (file_content E r3) as [[content3 sha3]|e3]; [|aborted Hrun].
  reduce_in Hrun.
  destruct (String.eqb content3 "");
    [creation Hrun E data
        [EvPrint (ProcessingTask repo_name (get data "round"));
         EvHttp (GetRepo repo_name) (Returns r1);
         EvPrint RepositoryExists;
         EvHttp (GetContents repo_name (JStr "index.html") "main") (Returns r2);
         EvHttp (GetContents repo_name (JStr "README.md") "main") (Returns r3);
         EvPrint MissingRequiredFiles] 3%nat|].
  reduce_in Hrun.
  match type of Hrun with context [revise_existing_application E data ?hh] =>
    destruct (revise_existing_application E data hh) as [er rr] eqn:Hr end.
  split; [|split; intros Hd; [|discriminate Hd]].
  - destruct rr; inversion Hrun; subst; reflexivity.
  - exists [EvPrint (ProcessingTask repo_name (get data "round"));
            EvHttp (GetRepo repo_name) (Returns r1);
            EvPrint RepositoryExists;
            EvHttp (GetContents repo_name (JStr "index.html") "main") (Returns r2);
            EvHttp (GetContents repo_name (JStr "README.md") "main") (Returns r3);
            EvPrint HasRequiredFiles].
    exists (match rr with
            | Val _ => EvPrint UpdateCompleted
            | Raise e => EvPrint (BackgroundFailed e)
            end).
    split; [reflexivity|]. cbn [app]. rewrite Hr.
    destruct rr; inversion Hrun; subst; reflexivity.
Qed.

#[local] Transparent revise_existing_application build_initial_application.

(** C1: the run is routed to the revision path exactly when the existence
    query is answered 200 and both reads of [index.html] and [README.md]
    return content; it is routed to the creation path when the repository is
    reported absent or one of the two files gives no content; the workflow
    routed to runs next.  The three queries name only the task, so two
    requests for the same task are routed alike whatever their round. *)
Theorem process_task_background_routing :
  forall (E : Env) (data : Dict) (h : History),
    let repo_name := get data "task" in
    let q1 := repo_query E repo_name h in
    let q2 := index_query E repo_name h in
    let q3 := readme_query E repo_name h in
    let route := route_of E (outcome_of q1) (outcome_of q2) (outcome_of q3) in
    let es := fst (process_task_background E data h) in
    routed es = route /\
    (route = Some Revision ->
       exists pre closing,
         outside_view pre = [q1; q2; q3] /\
         let line := EvPrint (ProcessingAsUpdate (get data "round")) in
         es = pre ++ line
                :: fst (revise_existing_application E data (h ++ pre ++ [line]))
                ++ [closing]) /\
    (route = Some Creation ->
       exists pre closing n,
         outside_view pre = firstn n [q1; q2; q3] /\
         let line := EvPrint ProcessingAsInitialCreation in
         es = pre ++ line
                :: fst (build_initial_application E data (h ++ pre ++ [line]))
                ++ [closing]) /\
    (forall data',
       get data' "task" = repo_name ->
       routed (fst (process_task_background E data' h)) = routed es).
Proof.
  intros E data h repo_name q1 q2 q3 route es.
  destruct (process_task_background_classified E data h) as (H1 & H2 & H3).
  split; [exact H1|]. split; [exact H2|]. split; [exact H3|].
  intros data' Htask.
  destruct (process_task_background_classified E data' h) as (H1' & _).
  rewrite Htask in H1'. subst es. rewrite H1'. symmetry. exact H1.
Qed.

Lemma process_task_background_routing_witness :
  (exists pre closing,
     outside_view pre =
       [repo_query live (JStr "site") []; index_query live (JStr "site") [];
        readme_query live (JStr "site") []] /\
     fst (process_task_background live full_request []) =
       pre ++ EvPrint (ProcessingAsUpdate (JNum 2))
           :: fst (revise_existing_application live full_request
                     ([] ++ pre ++ [EvPrint (ProcessingAsUpdate (JNum 2))]))
           ++ [closing]) /\
  (exists pre closing n,
     outside_view pre =
       firstn n
         [repo_query fresh (JStr "site") []; index_query fresh (JStr "site") [];
          readme_query fresh (JStr "site") []] /\
     fst (process_task_background fresh full_request []) =
       pre ++ EvPrint ProcessingAsInitialCreation
           :: fst (build_initial_application fresh full_request
                     ([] ++ pre ++ [EvPrint ProcessingAsInitialCreation]))
           ++ [closing]).
Proof.
  split.
  - apply (proj1 (proj2 (process_task_background_routing live full_request []))).
    reflexivity.
  - apply (proj1 (proj2 (proj2
             (process_task_background_routing fresh full_request [])))).
    reflexivity.
Defined.

(** ** Writing files *)

Lemma push_files_to_repo_app (E : Env) (repo_name round : JSON)
    (before after : list Dict) :
  forall (h : History) (es : list Event) (done : list Dict),
    push_files_to_repo E repo_name before round h = (es, Val done) ->
    push_files_to_repo E repo_name (before ++ after) round h =
    (es ++ fst (push_files_to_repo E repo_name after round (h ++ es)),
     and_then (snd (push_files_to_repo E repo_name after round (h ++ es)))
              (fun rest => Val (done ++ rest))).
Proof.
  induction before as [|file before IH]; intros h es done Hrun.
  - simpl in Hrun. inversion Hrun; subst. simpl. rewrite app_nil_r.
    destruct (push_files_to_repo E repo_name after round h) as [es' [rest|e]];
      reflexivity.
  - simpl in Hrun |- *. unfold bind at 1 in Hrun. unfold bind at 1.
    destruct (push_file E repo_name round file h) as [es1 [file'|e]];
      [|discriminate].
    unfold bind at 1 in Hrun. unfold bind at 1.
    destruct (push_files_to_repo E repo_name before round (h ++ es1))
      as [es2 [done2|e]] eqn:Hbefore.
    2:{ simpl in Hrun. discriminate. }
    simpl in Hrun. inversion Hrun; subst. clear Hrun.
    rewrite (IH _ _ _ Hbefore). rewrite <- !app_assoc, ?app_nil_r. cbn [app].
    destruct (push_files_to_repo E repo_name after round (h ++ es1 ++ es2))
      as [es3 [rest|e]]; simpl; rewrite ?app_nil_r; reflexivity.
Qed.


Lemma is_str_update_not_create (v : JSON) :
  is_str v "update" = true -> is_str v "create" = false.
Proof.
  destruct v; simpl; try discriminate.
  intros H. apply String.eqb_eq in H. subst. reflexivity.
Qed.

(** Case analysis on whatever blocks the evaluation of the run in [H]. *)
Ltac split_run H :=
  repeat (reduce_in H;
          match type of H with
          | context [match ?x with _ => _ end] =>
              lazymatch x with
              | context [match _ with _ => _ end] => fail
              | _ => destruct x eqn:?
              end
          end).

Lemma push_file_refresh (E : Env) (repo_name round : JSON) (file : Dict)
    (h : History) (text : string) :
  is_str (resolved_action round file) "update" = true ->
  truthy (get file "sha") = false ->
  get file "content" = JStr text ->
  let name := get file "name" in
  let read := GetContents repo_name name "main" in
  let e_read := EvHttp read (answer E h read) in
  let put verb token := put_call E repo_name name round verb text token in
  match read_result E (answer E h read) with
  | Raise e => push_file E repo_name round file h = ([e_read], Raise e)
  | Val (_, token) =>
      if truthy token then
        if sliceable token then
          exists result,
            push_file E repo_name round file h =
            ([e_read;
              EvHttp (put Update (Some token))
                     (answer E (h ++ [e_read]) (put Update (Some token)))],
             result)
        else push_file E repo_name round file h = ([e_read], Raise TypeError)
      else
        exists result,
          push_file E repo_name round file h =
          ([e_read;
            EvHttp (put Add None) (answer E (h ++ [e_read]) (put Add None))],
           result)
  end.
Proof.
  intros Hupdate Hsha Hcontent name read e_read put.
  pose proof (is_str_update_not_create _ Hupdate) as Hcreate.
  unfold resolved_action in Hupdate, Hcreate.
  destruct (push_file E repo_name round file h) as [es res] eqn:Hrun.
  unfold push_file, print_short, refresh_sha, get_file_content_from_repo,
    payload_content, request, response_json, guard, bind, ret, lift, raise
    in Hrun.
  rewrite Hcontent, Hsha, Hupdate in Hrun. fold name read in Hrun.
  subst e_read put. unfold read_result, put_call.
  reduce_in Hrun.
  destruct (remote E (filter seen_outside h) read) as [r|e].
  2:{ reduce_in Hrun. symmetry; exact Hrun. }
  reduce_in Hrun.
  destruct (file_content E r) as [[current token]|e].
  2:{ reduce_in Hrun. symmetry; exact Hrun. }
  reduce_in Hrun.
  destruct (truthy token) eqn:Htoken.
  - destruct (sliceable token) eqn:Hslice.
    + reduce_in Hrun. rewrite Hupdate, Htoken, Hcreate in Hrun.
      split_run Hrun; eexists; inversion Hrun; reflexivity.
    + reduce_in Hrun. symmetry; exact Hrun.
  - reduce_in Hrun. cbn [is_str String.eqb Ascii.eqb Bool.eqb] in Hrun.
    split_run Hrun; eexists; inversion Hrun; reflexivity.
Qed.

Lemma push_files_to_repo_cons (E : Env) (repo_name round : JSON) (file : Dict)
    (after : list Dict) (h : History) :
  (forall es e,
     push_file E repo_name round file h = (es, Raise e) ->
     push_files_to_repo E repo_name (file :: after) round h = (es, Raise e)) /\
  (exists rest,
     fst (push_files_to_repo E repo_name (file :: after) round h) =
     fst (push_file E repo_name round file h) ++ rest).
Proof.
  cbn [push_files_to_repo]. unfold bind at 1 3. split.
  - intros es e Hfile. rewrite Hfile. reflexivity.
  - destruct (push_file E repo_name round file h) as [es [file'|e]].
    + match goal with |- context [bind ?m ?f ?hh] =>
        destruct (bind m f hh) as [rest r] end.
      exists rest. reflexivity.
    + exists []. cbn [fst]. rewrite app_nil_r. reflexivity.
Qed.

Lemma push_file_without_text (E : Env) (repo_name round : JSON) (file : Dict)
    (h : History) :
  is_str (resolved_action round file) "update" = true ->
  truthy (get file "sha") = false ->
  (forall text, get file "content" <> JStr text) ->
  let name := get file "name" in
  let read := GetContents repo_name name "main" in
  let e_read := EvHttp read (answer E h read) in
  match read_result E (answer E h read) with
  | Raise e => push_file E repo_name round file h = ([e_read], Raise e)
  | Val (_, token) =>
      push_file E repo_name round file h =
      ([e_read],
       Raise (if truthy token && negb (sliceable token)
              then TypeError else AttributeError))
  end.
Proof.
  intros Hupdate Hsha Hcontent name read e_read.
  unfold resolved_action in Hupdate.
  destruct (push_file E repo_name round file h) as [es res] eqn:Hrun.
  unfold push_file, print_short, refresh_sha, get_file_content_from_repo,
    payload_content, request, response_json, guard, bind, ret, lift, raise
    in Hrun.
  rewrite Hsha, Hupdate in Hrun. fold name read in Hrun.
  subst e_read. unfold read_result.
  reduce_in Hrun.
  destruct (remote E (filter seen_outside h) read) as [r|e].
  2:{ reduce_in Hrun. symmetry; exact Hrun. }
  reduce_in Hrun.
  destruct (file_content E r) as [[current token]|e].
  2:{ reduce_in Hrun. symmetry; exact Hrun. }
  reduce_in Hrun.
  destruct (truthy token) eqn:Htoken.
  - destruct (sliceable token) eqn:Hslice; cbn [andb negb].
    + reduce_in Hrun.
      destruct (get file "content") as [| | |text| |];
        try (reduce_in Hrun; symmetry; exact Hrun).
      destruct (Hcontent text eq_refl).
    + reduce_in Hrun. symmetry; exact Hrun.
  - cbn [andb]. reduce_in Hrun.
    destruct (get file "content") as [| | |text| |];
      try (reduce_in Hrun; symmetry; exact Hrun).
    destruct (Hcontent text eq_refl).
Qed.

(** C3, as the code has it: an update that carries no token makes the write
    step read the file again, whatever its place in the list.  An exception
    of that read propagates.  A token from the read that cannot be sliced
    (it is not a string) ends the step with [TypeError].  Otherwise a file
    whose content is text is written: as an update carrying the token read,
    or, when the read gave none, as a creation without token; and a file
    whose content is not text ends the step with [AttributeError], nothing
    being written. *)
Theorem push_files_to_repo_refreshes_token :
  forall (E : Env) (repo_name round : JSON) (before : list Dict) (file : Dict)
         (after : list Dict) (h : History) (es : list Event) (done : list Dict),
    push_files_to_repo E repo_name before round h = (es, Val done) ->
    is_str (resolved_action round file) "update" = true ->
    truthy (get file "sha") = false ->
    let name := get file "name" in
    let read := GetContents repo_name name "main" in
    let e_read := EvHttp read (answer E (h ++ es) read) in
    let run := push_files_to_repo E repo_name (before ++ file :: after) round h in
    match read_result E (answer E (h ++ es) read) with
    | Raise e => run = (es ++ [e_read], Raise e)
    | Val (_, token) =>
        if truthy token && negb (sliceable token)
        then run = (es ++ [e_read], Raise TypeError)
        else
          match get file "content" with
          | JStr text =>
              let put :=
                put_call E repo_name name round
                  (if truthy token then Update else Add) text
                  (if truthy token then Some token else None) in
              exists rest,
                fst run =
                es ++ e_read
                   :: EvHttp put (answer E ((h ++ es) ++ [e_read]) put)
                   :: rest
          | _ => run = (es ++ [e_read], Raise AttributeError)
          end
    end.
Proof.
  intros E repo_name round before file after h es done
         Hbefore Hupdate Hsha name read e_read run.
  subst run. rewrite (push_files_to_repo_app _ _ _ _ _ _ _ _ Hbefore).
  destruct (push_files_to_repo_cons E repo_name round file after (h ++ es))
    as [Hraise Hevents].
  assert (Htext : (exists text, get file "content" = JStr text) \/
                  (forall text, get file "content" <> JStr text)).
  { destruct (get file "content"); try (right; intros; discriminate).
    left. eexists. reflexivity. }
  destruct Htext as [[text Hcontent] | Hcontent].
  - pose proof (push_file_refresh E repo_name round file (h ++ es) text
                  Hupdate Hsha Hcontent) as Hfile.
    cbv zeta in Hfile. fold name read e_read in Hfile. rewrite Hcontent.
    destruct (read_result E (answer E (h ++ es) read)) as [[current token]|e].
    + destruct (truthy token); cbn [andb].
      * destruct (sliceable token); cbn [negb].
        -- destruct Hfile as [result Hfile]. cbn [fst].
           destruct Hevents as [rest Hrest]. rewrite Hrest, Hfile.
           eexists. reflexivity.
        -- rewrite (Hraise _ _ Hfile). reflexivity.
      * destruct Hfile as [result Hfile]. cbn [fst].
        destruct Hevents as [rest Hrest]. rewrite Hrest, Hfile.
        eexists. reflexivity.
    + rewrite (Hraise _ _ Hfile). reflexivity.
  - pose proof (push_file_without_text E repo_name round file (h ++ es)
                  Hupdate Hsha Hcontent) as Hfile.
    cbv zeta in Hfile. fold name read e_read in Hfile.
    destruct (read_result E (answer E (h ++ es) read)) as [[current token]|e].
    + rewrite (Hraise _ _ Hfile).
      destruct (truthy token && negb (sliceable token)); [reflexivity|].
      destruct (get file "content") as [| | |text| |]; try reflexivity.
      destruct (Hcontent text eq_refl).
    + rewrite (Hraise _ _ Hfile). reflexivity.
Qed.

Lemma push_files_to_repo_refreshes_token_witness :
  (exists rest,
     fst (push_files_to_repo fresh (JStr "site")
            [[("name"%string, JStr "index.html");
              ("content"%string, JStr "<html></html>");
              ("action"%string, JStr "update")]] (JNum 2) []) =
     EvHttp (GetContents (JStr "site") (JStr "index.html") "main") (status_only 404)
       :: EvHttp (put_call fresh (JStr "site") (JStr "index.html") (JNum 2) Add
                    "<html></html>" None) (status_only 201)
       :: rest) /\
  (exists rest,
     fst (push_files_to_repo live (JStr "site")
            [readme_file;
             [("name"%string, JStr "index.html");
              ("content"%string, JStr "<html></html>");
              ("action"%string, JStr "update")]] (JNum 1) []) =
     [EvHttp (put_call live (JStr "site") (JStr "README.md") (JNum 1) Add
                "# Overview" None) (status_only 200)]
     ++ EvHttp (GetContents (JStr "site") (JStr "index.html") "main")
               (ok_json (JObj [("content"%string, JStr "<html>old</html>");
                               ("sha"%string, JStr "1ndex5ha")]))
       :: EvHttp (put_call live (JStr "site") (JStr "index.html") (JNum 1) Update
                    "<html></html>" (Some (JStr "1ndex5ha"))) (status_only 200)
       :: rest).
Proof.
  split.
  - apply (push_files_to_repo_refreshes_token fresh (JStr "site") (JNum 2) []
             [("name"%string, JStr "index.html");
              ("content"%string, JStr "<html></html>");
              ("action"%string, JStr "update")] [] [] [] []);
      reflexivity.
  - apply (push_files_to_repo_refreshes_token live (JStr "site") (JNum 1)
             [readme_file]
             [("name"%string, JStr "index.html");
              ("content"%string, JStr "<html></html>");
              ("action"%string, JStr "update")] [] []
             [EvHttp (put_call live (JStr "site") (JStr "README.md") (JNum 1) Add
                        "# Overview" None) (status_only 200)]
             [readme_file]);
      reflexivity.
Defined.

(** C3 as stated fails: a generated item without content is kept by the
    revision as an update whose content is [None]; with no token it is read
    again, the read gives no token, and the step raises without writing. *)
Lemma update_without_content_fails_after_reread :
  update_filtered [] [JObj [("name"%string, JStr "index.html")]] []
  = ([], Val [[("name"%string, JStr "index.html"); ("content"%string, JNull);
               ("action"%string, JStr "update")]]) /\
  push_files_to_repo fresh (JStr "site")
    [[("name"%string, JStr "index.html"); ("content"%string, JNull);
      ("action"%string, JStr "update")]] (JNum 2) []
  = ([EvHttp (GetContents (JStr "site") (JStr "index.html") "main")
             (status_only 404)],
     Raise AttributeError).
Proof. split; reflexivity. Qed.

(** ** The generated files *)

Lemma write_filtered_run (items : list JSON) (h : History) :
  write_filtered items h =
  ([], if forallb is_object items
       then Val (map write_entry (filter recognised_item items))
       else Raise AttributeError).
Proof.
  revert h. induction items as [|item items IH]; intros h; [reflexivity|].
  cbn [write_filtered forallb filter map].
  destruct item as [| | | | |d]; try reflexivity.
  unfold bind at 1, lift at 1, py_get at 1. cbv beta iota.
  unfold recognised_item. cbn [field].
  destruct (recognised (get_or d "name" JNull)).
  - unfold bind, lift, ret, py_get. rewrite IH. cbn [is_object andb].
    destruct (forallb is_object items); reflexivity.
  - rewrite IH. reflexivity.
Qed.

Lemma update_filtered_run (sha_map : Dict) (items : list JSON)
    (h : History) :
  update_filtered sha_map items h =
  ([], if forallb is_object items
       then Val (map (update_entry sha_map) (filter recognised_item items))
       else Raise AttributeError).
Proof.
  revert h. induction items as [|item items IH]; intros h; [reflexivity|].
  cbn [update_filtered forallb filter map].
  destruct item as [| | | | |d]; try reflexivity.
  unfold bind at 1, lift at 1, py_get at 1. cbv beta iota.
  unfold recognised_item. cbn [field].
  destruct (recognised (get_or d "name" JNull)) eqn:Hrec.
  - unfold bind, lift, ret, py_get. rewrite IH. cbn [is_object andb].
    destruct (forallb is_object items); [|reflexivity].
    cbn [map app fst snd]. unfold update_entry. cbn [field].
    destruct (sha_map_get sha_map (get_or d "name" JNull)) as [token|];
      [|reflexivity].
    destruct (is_str (get_or d "action" (JStr "update")) "update"); reflexivity.
  - rewrite IH. reflexivity.
Qed.

(** ** Files without content *)

Lemma dict_get_set (d : Dict) (k k' : string) (v : JSON) :
  dict_get (dict_set d k v) k' =
  if String.eqb k' k then Some v else dict_get d k'.
Proof.
  induction d as [|[k0 v0] d IH]; cbn [dict_set dict_get].
  - reflexivity.
  - destruct (String.eqb k k0) eqn:Hk; cbn [dict_get].
    + apply String.eqb_eq in Hk. subst k0.
      destruct (String.eqb k' k); reflexivity.
    + rewrite IH. destruct (String.eqb k' k0) eqn:Hk'; [|reflexivity].
      apply String.eqb_eq in Hk'. subst k0.
      rewrite String.eqb_sym, Hk. reflexivity.
Qed.

Lemma sha_map_of_absent (existing : list ExistingFile) (name : string) :
  (forall ef, In ef existing -> ef_name ef <> name) ->
  forall acc,
    dict_get (fold_left (fun m ef => dict_set m (ef_name ef) (ef_sha ef))
                        existing acc) name
    = dict_get acc name.
Proof.
  induction existing as [|ef existing IH]; intros Hne acc; [reflexivity|].
  cbn [fold_left]. rewrite IH by (intros; apply Hne; right; assumption).
  rewrite dict_get_set.
  destruct (String.eqb name (ef_name ef)) eqn:Hn; [|reflexivity].
  apply String.eqb_eq in Hn. exfalso. apply (Hne ef); [left; reflexivity | auto].
Qed.

Lemma find_existing_absent (existing : list ExistingFile) (name : string) :
  (forall ef, In ef existing -> ef_name ef <> name) ->
  find (fun ef => is_str (JStr name) (ef_name ef)) existing = None.
Proof.
  induction existing as [|ef existing IH]; intros Hne; [reflexivity|].
  cbn [find is_str].
  destruct (String.eqb name (ef_name ef)) eqn:Hn.
  - apply String.eqb_eq in Hn. exfalso.
    apply (Hne ef); [left; reflexivity | auto].
  - apply IH. intros; apply Hne; right; assumption.
Qed.

Lemma exists_empty_content (E : Env) (r : Response) :
  exists_empty E (Returns r) = true ->
  exists token, file_content E r = Val (""%string, token).
Proof.
  unfold exists_empty, file_content. intros H.
  apply andb_true_iff in H as [Hs H]. rewrite Hs.
  destruct (json r) as [[| | | | |d]|]; try discriminate.
  cbn [py_get and_then]. unfold get in H. 
  destruct (decoded_content E (get_or d "content" JNull)) as [text|e];
    [|discriminate].
  apply String.eqb_eq in H. subst text. cbn [and_then]. eauto.
Qed.

Lemma exists_empty_unreadable (E : Env) (o : Outcome) :
  exists_empty E o = true -> reports_readable E o = Some false.
Proof.
  destruct o as [r|e]; [|discriminate]. intros H.
  destruct (exists_empty_content E r H) as [token Hc].
  unfold reports_readable, read_result. rewrite Hc. reflexivity.
Qed.

Lemma fetch_existing_omits_empty (E : Env) (repo_name : JSON) (h : History)
    (es : list Event) (existing : list ExistingFile) :
  fetch_existing E repo_name key_files h = (es, Val existing) ->
  forall name o,
    In (EvHttp (GetContents repo_name (JStr name) "main") o) es ->
    exists_empty E o = true ->
    forall ef, In ef existing -> ef_name ef <> name.
Proof.
  intros Hrun name o Hin Hempty.
  destruct o as [r|e]; [|discriminate].
  destruct (exists_empty_content E r Hempty) as [token Hc].
  unfold fetch_existing, key_files, get_file_content_from_repo, print_short,
    request, guard, bind, ret, lift, raise in Hrun.
  split_run Hrun; inversion Hrun; subst; clear Hrun;
    cbn [In] in Hin;
    repeat match goal with
           | H : _ \/ _ |- _ => destruct H
           | H : False |- _ => destruct H
           | H : EvHttp _ _ = EvHttp _ _ |- _ => inversion H; subst; clear H
           end;
    try congruence;
    intros ef Hef; cbn [In] in Hef;
    repeat match goal with
           | H : _ \/ _ |- _ => destruct H
           | H : False |- _ => destruct H
           end;
    subst; cbn [ef_name]; try discriminate;
    match goal with
    | H1 : file_content E ?r = Val (""%string, _),
      H2 : file_content E ?r = Val (?c, _),
      H3 : negb (?c =? "")%string = true |- _ =>
        rewrite H1 in H2; inversion H2; subst; discriminate H3
    end.
Qed.

Lemma ensure_sha_name (existing : list ExistingFile) (file : Dict) :
  get (ensure_sha existing file) "name" = get file "name".
Proof.
  unfold ensure_sha, get, get_or.
  destruct (dict_mem file "action").
  - destruct (_ && _); [|reflexivity].
    destruct (find _ existing); [|reflexivity].
    rewrite dict_get_set. reflexivity.
  - destruct (_ && _).
    + destruct (find _ existing).
      * rewrite !dict_get_set. reflexivity.
      * rewrite dict_get_set. reflexivity.
    + rewrite dict_get_set. reflexivity.
Qed.

Lemma update_entry_without_token (existing : list ExistingFile) (name : string)
    (item : JSON) :
  (forall ef, In ef existing -> ef_name ef <> name) ->
  field item "name" JNull = JStr name ->
  dict_get (ensure_sha existing (update_entry (sha_map_of existing) item)) "sha"
    = None.
Proof.
  intros Habsent Hname. unfold update_entry. rewrite Hname.
  cbn [sha_map_get]. unfold sha_map_of.
  rewrite (sha_map_of_absent existing name Habsent). cbn [dict_get app].
  unfold ensure_sha. cbn [dict_mem dict_get get get_or String.eqb Ascii.eqb Bool.eqb].
  cbn [negb andb].
  rewrite (find_existing_absent existing name Habsent).
  destruct (is_str _ "update"); reflexivity.
Qed.

(** C9, as the code has it: a file that the host has, with empty content,
    counts as missing where the repository is classified and where the
    revision collects the existing files: the check of the required files
    answers no and the run is routed to the creation path; in the revision
    path the file is left out of the existing files, and no entry of that
    name gets a token from them.  The read of the write step does not look
    at the content: there the token of the empty file is taken and the file
    is written as an update carrying it. *)
Theorem empty_file_treated_as_missing :
  forall (E : Env) (repo_name : JSON),
    (forall h,
       let index := GetContents repo_name (JStr "index.html") "main" in
       let readme := GetContents repo_name (JStr "README.md") "main" in
       let e2 := EvHttp index (answer E h index) in
       exists_empty E (answer E h index) = true \/
       (reports_readable E (answer E h index) = Some true /\
        exists_empty E (answer E (h ++ [e2]) readme) = true) ->
       snd (check_repo_has_required_files E repo_name h) = Val false) /\
    (forall data h,
       get data "task" = repo_name ->
       let q1 := repo_query E repo_name h in
       let q2 := index_query E repo_name h in
       let q3 := readme_query E repo_name h in
       reports_exists (outcome_of q1) = Some true ->
       exists_empty E (outcome_of q2) = true \/
       (reports_readable E (outcome_of q2) = Some true /\
        exists_empty E (outcome_of q3) = true) ->
       routed (fst (process_task_background E data h)) = Some Creation) /\
    (forall h es existing,
       fetch_existing E repo_name key_files h = (es, Val existing) ->
       forall name o,
         In (EvHttp (GetContents repo_name (JStr name) "main") o) es ->
         exists_empty E o = true ->
         (forall ef, In ef existing -> ef_name ef <> name) /\
         (forall items h' es' updated entry,
            update_filtered (sha_map_of existing) items h' = (es', Val updated) ->
            In entry (map (ensure_sha existing) updated) ->
            get entry "name" = JStr name ->
            dict_get entry "sha" = None)) /\
    (forall round file h text,
       is_str (resolved_action round file) "update" = true ->
       truthy (get file "sha") = false ->
       get file "content" = JStr text ->
       let name := get file "name" in
       let read := GetContents repo_name name "main" in
       let e_read := EvHttp read (answer E h read) in
       exists_empty E (answer E h read) = true ->
       exists token,
         read_result E (answer E h read) = Val (""%string, token) /\
         (truthy token = true -> sliceable token = true ->
          let put := put_call E repo_name name round Update text (Some token) in
          exists result,
            push_file E repo_name round file h =
            ([e_read; EvHttp put (answer E (h ++ [e_read]) put)], result))).
Proof.
  intros E repo_name. split; [|split; [|split]].
  - intros h index readme e2 Hempty.
    pose proof (check_repo_has_required_files_run E repo_name h) as Hrun.
    cbv zeta in Hrun. fold index readme e2 in Hrun. rewrite Hrun.
    destruct Hempty as [Hempty | [Hreadable Hempty]].
    + apply exists_empty_unreadable in Hempty.
      unfold reports_readable in Hempty.
      destruct (read_result E (answer E h index)) as [[content token]|e];
        [|discriminate].
      inversion Hempty as [Hcontent]. apply negb_false_iff in Hcontent.
      rewrite Hcontent. reflexivity.
    + apply exists_empty_unreadable in Hempty.
      unfold reports_readable in Hempty, Hreadable.
      destruct (read_result E (answer E h index)) as [[content token]|e];
        [|discriminate].
      inversion Hreadable as [Hcontent]. apply negb_true_iff in Hcontent.
      rewrite Hcontent.
      destruct (read_result E (answer E (h ++ [e2]) readme))
        as [[content' token']|e]; [|discriminate].
      inversion Hempty as [Hcontent']. rewrite Hcontent'. reflexivity.
  - intros data h Htask q1 q2 q3 Hexists Hempty.
    destruct (process_task_background_classified E data h) as [Hrouted _].
    rewrite Htask in Hrouted. fold q1 q2 q3 in Hrouted. rewrite Hrouted.
    unfold route_of. rewrite Hexists.
    destruct Hempty as [Hempty | [Hreadable Hempty]].
    + rewrite (exists_empty_unreadable _ _ Hempty). reflexivity.
    + rewrite Hreadable, (exists_empty_unreadable _ _ Hempty). reflexivity.
  - intros h es existing Hfetch name o Hin Hempty.
    pose proof (fetch_existing_omits_empty E repo_name h es existing
                  Hfetch name o Hin Hempty) as Habsent.
    split; [exact Habsent|].
    intros items h' es' updated entry Hupdated Hentry Hname.
    rewrite update_filtered_run in Hupdated.
    destruct (forallb is_object items); inversion Hupdated; subst; clear Hupdated.
    apply in_map_iff in Hentry as (entry0 & <- & Hentry0).
    apply in_map_iff in Hentry0 as (item & <- & _).
    rewrite ensure_sha_name in Hname.
    apply (update_entry_without_token existing name item Habsent).
    exact Hname.
  - intros round file h text Hupdate Hsha Hcontent name read e_read Hempty.
    pose proof (push_file_refresh E repo_name round file h text
                  Hupdate Hsha Hcontent) as Hfile.
    cbv zeta in Hfile. fold name read e_read in Hfile.
    destruct (answer E h read) as [r|e] eqn:Hanswer; [|discriminate Hempty].
    destruct (exists_empty_content E r Hempty) as [token Htoken].
    exists token. cbn [read_result] in Hfile |- *. rewrite Htoken in Hfile |- *.
    split; [reflexivity|].
    intros Htruthy Hslice. rewrite Htruthy, Hslice in Hfile. exact Hfile.
Qed.

Lemma empty_file_treated_as_missing_witness :
  snd (check_repo_has_required_files emptied (JStr "site") []) = Val false /\
  routed (fst (process_task_background emptied full_request [])) = Some Creation /\
  (forall ef,
     In ef (match snd (fetch_existing emptied (JStr "site") key_files []) with
            | Val existing => existing
            | Raise _ => []
            end) ->
     ef_name ef <> "index.html"%string) /\
  (exists token,
     read_result emptied
       (answer emptied [] (GetContents (JStr "site") (JStr "index.html") "main"))
     = Val (""%string, token) /\
     (truthy token = true -> sliceable token = true ->
      exists result,
        push_file emptied (JStr "site") (JNum 2)
          [("name"%string, JStr "index.html");
           ("content"%string, JStr "<html></html>")] []
        = ([EvHttp (GetContents (JStr "site") (JStr "index.html") "main")
                   (ok_json (JObj [("content"%string, JStr "");
                                   ("sha"%string, JStr "1ndex5ha")]));
            EvHttp (put_call emptied (JStr "site") (JStr "index.html") (JNum 2)
                      Update "<html></html>" (Some token))
                   (status_only 200)],
           result))).
Proof.
  destruct (empty_file_treated_as_missing emptied (JStr "site"))
    as (Hcheck & Hroute & Hfetch & Hwrite).
  split; [|split; [|split]].
  - apply Hcheck. left. reflexivity.
  - apply Hroute; [reflexivity | reflexivity | left; reflexivity].
  - refine (proj1 (Hfetch [] _ _ eq_refl "index.html"%string
                     (ok_json (JObj [("content"%string, JStr "");
                                     ("sha"%string, JStr "1ndex5ha")])) _ _)).
    + left. reflexivity.
    + reflexivity.
  - exact (Hwrite (JNum 2)
             [("name"%string, JStr "index.html");
              ("content"%string, JStr "<html></html>")] [] "<html></html>"
             eq_refl eq_refl eq_refl eq_refl).
Defined.

(** C9 as stated fails: the repository is classified with both files, then
    [index.html] is emptied.  The revision reads it as empty and leaves it
    out of the existing files, so the update of it carries no token; the
    write step reads the file again, gets an empty content once more, and
    writes the file as an update that carries the token of the empty file. *)
Lemma empty_file_token_used_by_write :
  let es := fst (process_task_background emptied_later full_request []) in
  let empty_index :=
    ok_json (JObj [("content"%string, JStr ""); ("sha"%string, JStr "1ndex5ha")]) in
  routed es = Some Revision /\
  exists_empty emptied_later empty_index = true /\
  nth_error es 7
    = Some (EvHttp (GetContents (JStr "site") (JStr "index.html") "main")
                   empty_index) /\
  es = firstn 10 es
       ++ [EvHttp (GetContents (JStr "site") (JStr "index.html") "main")
                  empty_index;
           EvHttp (PutContents (JStr "site") (JStr "index.html")
                     {| message_verb := Update;
                        message_file := JStr "index.html";
                        message_round := JNum 2;
                        content := "<html></html>";
                        sha := Some (JStr "1ndex5ha") |})
                  (status_only 200)]
       ++ skipn 12 es.
Proof. repeat split; reflexivity. Qed.

(** ** Events and results of the workflows *)

Section Spec.

Variable E : Env.
Variable K : Event -> Prop.

Lemma spec_ret {A} (Q : Res A -> Prop) (a : A) :
  Q (Val a) -> spec K (ret a) Q.
Proof. intros H h. split; [constructor | exact H]. Qed.

Lemma spec_raise {A} (Q : Res A -> Prop) (e : Exn) :
  Q (Raise e) -> spec K (raise e) Q.
Proof. intros H h. split; [constructor | exact H]. Qed.

Lemma spec_lift {A} (Q : Res A -> Prop) (r : Res A) :
  Q r -> spec K (lift r) Q.
Proof. intros H h. split; [constructor | exact H]. Qed.

Lemma spec_bind {A B} (Q : Res A -> Prop) (R : Res B -> Prop)
    (m : M A) (f : A -> M B) :
  spec K m Q ->
  (forall a, Q (Val a) -> spec K (f a) R) ->
  (forall e, Q (Raise e) -> R (Raise e)) ->
  spec K (bind m f) R.
Proof.
  intros Hm Hf He h. destruct (Hm h) as [Hk HQ]. unfold bind.
  destruct (m h) as [es [a|e]]; cbn [fst snd] in *.
  - destruct (Hf a HQ (h ++ es)) as [Hk' HR].
    destruct (f a (h ++ es)) as [es' r]; cbn [fst snd] in *.
    split; [apply Forall_app; split; assumption | assumption].
  - split; [assumption | apply He, HQ].
Qed.

Lemma spec_try_except {A} (Q R : Res A -> Prop) (m : M A)
    (handler : Exn -> M A) :
  spec K m Q ->
  (forall a, Q (Val a) -> R (Val a)) ->
  (forall e, Q (Raise e) -> spec K (handler e) R) ->
  spec K (try_except m handler) R.
Proof.
  intros Hm Hv Hh h. destruct (Hm h) as [Hk HQ]. unfold try_except.
  destruct (m h) as [es [a|e]]; cbn [fst snd] in *.
  - split; [assumption | apply Hv, HQ].
  - destruct (Hh e HQ (h ++ es)) as [Hk' HR].
    destruct (handler e (h ++ es)) as [es' r]; cbn [fst snd] in *.
    split; [apply Forall_app; split; assumption | assumption].
Qed.

Lemma spec_request (Q : Res Response -> Prop) (c : Call) :
  (forall o, K (EvHttp c o)) ->
  (forall r, Q (Val r)) ->
  (forall e, Q (Raise e)) ->
  spec K (request E c) Q.
Proof.
  intros Hk Hv He h. unfold request. cbn [fst snd].
  split; [constructor; [apply Hk | constructor]|].
  destruct (remote E _ c); auto.
Qed.

Lemma spec_print (Q : Res unit -> Prop) (l : Line) :
  K (EvPrint l) -> Q (Val tt) -> spec K (print l) Q.
Proof. intros Hk HQ h. split; [constructor; [exact Hk | constructor] | exact HQ]. Qed.

Lemma spec_sleep (Q : Res unit -> Prop) (n : Z) :
  K (EvSleep n) -> Q (Val tt) -> spec K (sleep n) Q.
Proof. intros Hk HQ h. split; [constructor; [exact Hk | constructor] | exact HQ]. Qed.

Lemma spec_conseq {A} (Q Q' : Res A -> Prop) (m : M A) :
  spec K m Q -> (forall r, Q r -> Q' r) -> spec K m Q'.
Proof. intros Hm HQ h. destruct (Hm h). auto. Qed.

Lemma spec_guard (Q : Res unit -> Prop) (ok : bool) (e : Exn) :
  Q (Val tt) -> Q (Raise e) -> spec K (guard ok e) Q.
Proof.
  intros Hv He. unfold guard. destruct ok; [apply spec_ret | apply spec_raise];
    assumption.
Qed.

(** A step whose result does not matter, followed by the rest. *)
Lemma spec_then {A B} (R : Res B -> Prop) (m : M A) (f : A -> M B) :
  spec K m anything ->
  (forall a, spec K (f a) R) ->
  (forall e, R (Raise e)) ->
  spec K (bind m f) R.
Proof.
  intros Hm Hf He. apply (spec_bind anything); auto.
Qed.

End Spec.

Ltac solve_post :=
  first [ exact I
        | assumption
        | (unfold returning, raising, anything; intros; discriminate) ].

Ltac spec_step :=
  lazymatch goal with
  | |- spec _ (bind _ _) _ => apply spec_then; [ | intros ? | intros ?; solve_post ]
  | |- spec _ (ret _) _ => apply spec_ret; try solve_post
  | |- spec _ (raise _) _ => apply spec_raise; try solve_post
  | |- spec _ (lift _) _ => apply spec_lift; try solve_post
  | |- spec _ (guard _ _) _ => apply spec_guard; try solve_post
  | |- spec _ (print _) _ => apply spec_print; try solve_post
  | |- spec _ (sleep _) _ => apply spec_sleep; try solve_post
  | |- spec _ (request _ _) _ =>
      apply spec_request; [ | intros ?; solve_post | intros ?; solve_post ]
  | |- spec _ (try_except _ _) _ =>
      apply (spec_try_except _ anything); [ | intros ? ?; solve_post | intros ? ? ]
  | |- spec _ (if ?b then _ else _) _ => destruct b
  | |- spec _ (match ?x with _ => _ end) _ => destruct x
  end.

Section Calls.

Variable E : Env.
Variable P : Call -> Prop.

Lemma response_json_calls (r : Response) :
  spec (calls P) (response_json r) anything.
Proof. unfold response_json. repeat spec_step. Qed.

Lemma repository_exists_calls (repo_name : JSON) :
  P (GetRepo repo_name) ->
  spec (calls P) (repository_exists E repo_name) anything.
Proof. intros HP. unfold repository_exists. repeat spec_step. intros o; exact HP. Qed.

Lemma get_file_content_from_repo_calls (repo_name file_path : JSON) :
  P (GetContents repo_name file_path "main") ->
  spec (calls P) (get_file_content_from_repo E repo_name file_path) anything.
Proof.
  intros HP. unfold get_file_content_from_repo. repeat spec_step.
  intros o; exact HP.
Qed.

Lemma check_repo_has_required_files_calls (repo_name : JSON) :
  (forall path, P (GetContents repo_name path "main")) ->
  spec (calls P) (check_repo_has_required_files E repo_name) anything.
Proof.
  intros HP. unfold check_repo_has_required_files, required_files, check_files.
  repeat first [ apply get_file_content_from_repo_calls; apply HP | spec_step ].
Qed.

Lemma create_github_repo_calls (repo_name : JSON) :
  P (CreateRepo repo_name) ->
  spec (calls P) (create_github_repo E repo_name) anything.
Proof.
  intros HP. unfold create_github_repo.
  repeat first [ apply response_json_calls | spec_step ]. intros o; exact HP.
Qed.

Lemma enable_github_pages_calls (repo_name : JSON) :
  P (EnablePages repo_name) ->
  spec (calls P) (enable_github_pages E repo_name) anything.
Proof.
  intros HP. unfold enable_github_pages. repeat spec_step. intros o; exact HP.
Qed.

Lemma get_sha_of_latest_commit_calls (repo_name : JSON) :
  P (GetCommit repo_name "main") ->
  spec (calls P) (get_sha_of_latest_commit E repo_name) anything.
Proof.
  intros HP. unfold get_sha_of_latest_commit.
  repeat first [ apply response_json_calls | spec_step ]. intros o; exact HP.
Qed.

Lemma call_llm_calls (prompt : Prompt) :
  P (ChatCompletion prompt) ->
  spec (calls P) (call_llm E prompt) anything.
Proof.
  intros HP. unfold call_llm.
  repeat first [ apply response_json_calls | spec_step ]. intros o; exact HP.
Qed.

Lemma attachment_context_calls (attachments : list JSON) :
  spec (calls P) (attachment_context E attachments) anything.
Proof.
  induction attachments as [|attachment rest IH]; cbn [attachment_context].
  - repeat spec_step.
  - repeat first [ exact IH | spec_step ].
Qed.

Lemma ping_evaluation_server_calls (evaluation_url : JSON)
    (payload : EvaluationPayload) (max_retries : Z) :
  P (PostEvaluation evaluation_url payload) ->
  spec (calls P) (ping_evaluation_server E evaluation_url payload max_retries)
       anything.
Proof.
  intros HP. unfold ping_evaluation_server.
  induction (seq 0 (Z.to_nat max_retries)) as [|attempt rest IH];
    cbn [ping_attempts].
  - repeat spec_step.
  - repeat first [ exact IH | spec_step ]. intros o; exact HP.
Qed.

Lemma push_file_calls (repo_name round : JSON) (file : Dict) :
  P (GetContents repo_name (get file "name") "main") ->
  (forall payload, P (PutContents repo_name (get file "name") payload)) ->
  spec (calls P) (push_file E repo_name round file) anything.
Proof.
  intros Hread Hput. unfold push_file, print_short, refresh_sha, payload_content.
  repeat first [ apply response_json_calls
               | apply get_file_content_from_repo_calls; exact Hread
               | spec_step ];
    intros o; apply Hput.
Qed.

Lemma push_files_to_repo_calls (repo_name round : JSON) (files : list Dict) :
  (forall name, P (GetContents repo_name name "main")) ->
  (forall file payload,
     In file files -> P (PutContents repo_name (get file "name") payload)) ->
  spec (calls P) (push_files_to_repo E repo_name files round) anything.
Proof.
  intros Hread. induction files as [|file rest IH]; intros Hput;
    cbn [push_files_to_repo].
  - repeat spec_step.
  - apply spec_then; [ | intros file' | intros e; exact I ].
    + apply push_file_calls; [apply Hread |].
      intros payload. apply Hput. left. reflexivity.
    + apply spec_then; [ | intros rest' | intros e; exact I ].
      * apply IH. intros f p Hin. apply Hput. right. exact Hin.
      * repeat spec_step.
Qed.

End Calls.

Lemma spec_silent {A} (K : Event -> Prop) (Q : Res A -> Prop) (m : M A)
    (r : Res A) :
  (forall h, m h = ([], r)) -> Q r -> spec K m Q.
Proof. intros Hm HQ h. rewrite Hm. split; [constructor | exact HQ]. Qed.

Section Flows.

Variable E : Env.
Variable P : Call -> Prop.

Lemma evaluation_payload_calls (data : Dict) (repo_name commit : JSON) :
  spec (calls P) (evaluation_payload data repo_name commit)
       (returning (fun _ => payload_fields data)).
Proof.
  intros h. unfold evaluation_payload, bind, lift, ret, item, returning,
    payload_fields, dict_mem.
  destruct (dict_get data "email"); [|split; [constructor | discriminate]].
  destruct (dict_get data "task"); [|split; [constructor | discriminate]].
  destruct (dict_get data "round"); [|split; [constructor | discriminate]].
  destruct (dict_get data "nonce"); [|split; [constructor | discriminate]].
  split; [constructor | auto].
Qed.

(** The last steps of both workflows: read the commit, build the payload,
    notify. *)
Lemma report_calls (data : Dict) (repo_name : JSON) :
  P (GetCommit repo_name "main") ->
  (payload_fields data -> forall url payload, P (PostEvaluation url payload)) ->
  spec (calls P)
    (commit <- get_sha_of_latest_commit E repo_name ;;
     payload <- evaluation_payload data repo_name commit ;;
     evaluation_url <- lift (item data "evaluation_url") ;;
     ping_evaluation_server E evaluation_url payload 3 ;;;
     ret (repo_url payload))
    anything.
Proof.
  intros Hcommit Hnotify.
  apply spec_then; [ | intros commit | intros; exact I ].
  - apply get_sha_of_latest_commit_calls, Hcommit.
  - apply (spec_bind _ (returning (fun _ => payload_fields data)));
      [ apply evaluation_payload_calls | intros payload Hfields | intros; exact I ].
    specialize (Hfields payload eq_refl).
    repeat first [ apply ping_evaluation_server_calls; apply Hnotify, Hfields
                 | spec_step ].
Qed.

Lemma build_initial_application_calls (data : Dict) (Qf : list Dict -> Prop) :
  (forall brief checks attachments,
     spec (calls P) (write_code_with_llm E brief checks attachments)
          (returning Qf)) ->
  (forall repo_name files,
     Qf files ->
     P (CreateRepo repo_name) /\
     (forall name, P (GetContents repo_name name "main")) /\
     (forall file payload,
        In file files -> P (PutContents repo_name (get file "name") payload)) /\
     P (EnablePages repo_name) /\
     P (GetCommit repo_name "main") /\
     (payload_fields data -> forall url payload, P (PostEvaluation url payload))) ->
  spec (calls P) (build_initial_application E data) anything.
Proof.
  intros Hwrite HP. unfold build_initial_application.
  apply (spec_try_except _ anything);
    [ | intros; exact I | intros e _; repeat spec_step ].
  apply spec_then; [repeat spec_step | intros repo_name | intros; exact I].
  apply spec_then; [repeat spec_step | intros brief | intros; exact I].
  apply (spec_bind _ (returning Qf));
    [ apply Hwrite | intros files Hfiles | intros; exact I ].
  destruct (HP repo_name files (Hfiles files eq_refl))
    as (Hcreate & Hread & Hput & Hpages & Hcommit & Hnotify).
  apply spec_then; [ | intros _ | intros; exact I ].
  { apply create_github_repo_calls, Hcreate. }
  apply spec_then; [ | intros _ | intros; exact I ].
  { apply push_files_to_repo_calls; assumption. }
  apply spec_then; [ | intros _ | intros; exact I ].
  { apply enable_github_pages_calls, Hpages. }
  apply report_calls; assumption.
Qed.

End Flows.

(** ** The generation adapters *)

Lemma bind_silent {A B} (m : M A) (f : A -> M B) (r : Res A) (h : History) :
  (forall h', m h' = ([], r)) ->
  bind m f h = match r with
               | Val a => f a h
               | Raise e => ([], Raise e)
               end.
Proof.
  intros Hm. unfold bind. rewrite Hm. destruct r as [a|e]; [|reflexivity].
  rewrite app_nil_r. destruct (f a h); reflexivity.
Qed.

Lemma bind_lift {A B} (r : Res A) (f : A -> M B) (h : History) :
  bind (lift r) f h = match r with
                      | Val a => f a h
                      | Raise e => ([], Raise e)
                      end.
Proof. apply bind_silent. reflexivity. Qed.

Lemma attachment_context_silent (E : Env) (attachments : list JSON) :
  exists r, forall h, attachment_context E attachments h = ([], r).
Proof.
  induction attachments as [|attachment rest [r IH]]; cbn [attachment_context].
  - eexists. reflexivity.
  - unfold bind, lift, ret.
    destruct (py_get attachment "name" JNull) as [name|e];
      [|eexists; reflexivity].
    destruct (py_get attachment "url" JNull) as [data_uri|e];
      [|eexists; reflexivity].
    destruct (as_data_uri data_uri) as [uri|].
    + destruct r as [parts|e]; eexists; intros h; rewrite IH; reflexivity.
    + exists r. intros h. cbn [app]. rewrite IH. reflexivity.
Qed.

Lemma call_llm_run (E : Env) (prompt : Prompt) (h : History) :
  call_llm E prompt h =
  ([EvHttp (ChatCompletion prompt) (answer E h (ChatCompletion prompt))],
   completion_text (answer E h (ChatCompletion prompt))).
Proof.
  unfold call_llm, completion_text, answer, request, response_json, guard,
    bind, ret, raise, lift.
  destruct (remote E _ _) as [r|e]; [|reflexivity]. cbv beta iota.
  destruct (status_code r =? 200); [|reflexivity].
  destruct (json r) as [j|]; [|reflexivity]. cbn [app fst snd].
  destruct (py_item j "choices") as [choices|e]; [|reflexivity].
  cbn [and_then].
  destruct (py_first choices) as [choice|e]; [|reflexivity].
  cbn [and_then].
  destruct (py_item choice "message") as [message|e]; [|reflexivity].
  cbn [and_then app]. destruct (py_item message "content"); reflexivity.
Qed.

(** Both adapters: nothing is emitted before the request to the generation
    service, which is made once unless building the prompt raises, and the
    result is the filtered items of the answer. *)
Lemma write_code_with_llm_run (E : Env) (brief checks attachments : JSON)
    (h : History) :
  (exists e, write_code_with_llm E brief checks attachments h = ([], Raise e)) \/
  (exists prompt,
     let o := answer E h (ChatCompletion prompt) in
     write_code_with_llm E brief checks attachments h =
     ([EvHttp (ChatCompletion prompt) o],
      and_then (generated_items E o) (fun items =>
        if forallb is_object items
        then Val (map write_entry (filter recognised_item items))
        else Raise AttributeError))).
Proof.
  unfold write_code_with_llm. rewrite bind_lift.
  destruct (py_iter (or_empty attachments)) as [to_attach|e];
    [|left; eexists; reflexivity].
  destruct (attachment_context_silent E to_attach) as [r Hsilent].
  rewrite (bind_silent _ _ _ _ Hsilent).
  destruct r as [context|e]; [|left; eexists; reflexivity].
  rewrite bind_lift.
  destruct (py_iter (or_empty checks)) as [check_list|e];
    [|left; eexists; reflexivity].
  right.
  exists {| p_brief := brief; p_checks := check_list;
            p_attachments := context; p_existing := None |}.
  cbv zeta.
  unfold bind at 1. rewrite call_llm_run.
  unfold generated_items.
  destruct (completion_text _) as [text|e]; [|reflexivity].
  cbn [and_then]. unfold bind, loads, parsed, lift, ret, raise.
  destruct text as [| | |s| |]; try reflexivity.
  destruct (json_loads E s) as [doc|]; [|reflexivity].
  cbn [and_then].
  destruct (py_get doc "files" (JArr [])) as [files|e]; [|reflexivity].
  cbn [and_then].
  destruct (py_iter files) as [items|e]; [|reflexivity].
  rewrite write_filtered_run. cbn [and_then app].
  destruct (forallb is_object items); reflexivity.
Qed.

Lemma update_code_with_llm_run (E : Env) (brief checks attachments repo_name : JSON)
    (existing_files : list ExistingFile) (h : History) :
  (exists e,
     update_code_with_llm E brief checks attachments repo_name existing_files h
     = ([], Raise e)) \/
  (exists prompt,
     let o := answer E h (ChatCompletion prompt) in
     update_code_with_llm E brief checks attachments repo_name existing_files h =
     ([EvHttp (ChatCompletion prompt) o],
      and_then (generated_items E o) (fun items =>
        if forallb is_object items
        then Val (map (update_entry (sha_map_of existing_files))
                      (filter recognised_item items))
        else Raise AttributeError))).
Proof.
  unfold update_code_with_llm. rewrite bind_lift.
  destruct (py_iter (or_empty attachments)) as [to_attach|e];
    [|left; eexists; reflexivity].
  destruct (attachment_context_silent E to_attach) as [r Hsilent].
  rewrite (bind_silent _ _ _ _ Hsilent).
  destruct r as [context|e]; [|left; eexists; reflexivity].
  rewrite bind_lift.
  destruct (py_iter (or_empty checks)) as [check_list|e];
    [|left; eexists; reflexivity].
  right.
  exists {| p_brief := brief; p_checks := check_list;
            p_attachments := context; p_existing := Some existing_files |}.
  cbv zeta.
  unfold bind at 1. rewrite call_llm_run.
  unfold generated_items.
  destruct (completion_text _) as [text|e]; [|reflexivity].
  cbn [and_then]. unfold bind, loads, parsed, lift, ret, raise.
  destruct text as [| | |s| |]; try reflexivity.
  destruct (json_loads E s) as [doc|]; [|reflexivity].
  cbn [and_then].
  destruct (py_get doc "files" (JArr [])) as [files|e]; [|reflexivity].
  cbn [and_then].
  destruct (py_iter files) as [items|e]; [|reflexivity].
  rewrite update_filtered_run. cbn [and_then app].
  destruct (forallb is_object items); reflexivity.
Qed.


Section Workflows.

Variable E : Env.
Variable P : Call -> Prop.

Lemma write_code_with_llm_calls (brief checks attachments : JSON) :
  (forall prompt, P (ChatCompletion prompt)) ->
  spec (calls P) (write_code_with_llm E brief checks attachments)
       (returning (fun files =>
          exists items, files = map write_entry (filter recognised_item items))).
Proof.
  intros HP h.
  destruct (write_code_with_llm_run E brief checks attachments h)
    as [[e Hrun] | [prompt Hrun]]; cbv zeta in Hrun; rewrite Hrun; cbn [fst snd].
  - split; [constructor | intros a Ha; discriminate].
  - split; [constructor; [apply HP | constructor]|].
    intros files Hfiles.
    destruct (generated_items E _) as [items|e]; [|discriminate].
    cbn [and_then] in Hfiles.
    destruct (forallb is_object items); inversion Hfiles. eauto.
Qed.

Lemma update_code_with_llm_calls (brief checks attachments repo_name : JSON)
    (existing_files : list ExistingFile) :
  (forall prompt, P (ChatCompletion prompt)) ->
  spec (calls P)
       (update_code_with_llm E brief checks attachments repo_name existing_files)
       (returning (fun files =>
          exists items,
            files = map (update_entry (sha_map_of existing_files))
                        (filter recognised_item items))).
Proof.
  intros HP h.
  destruct (update_code_with_llm_run E brief checks attachments repo_name
              existing_files h)
    as [[e Hrun] | [prompt Hrun]]; cbv zeta in Hrun; rewrite Hrun; cbn [fst snd].
  - split; [constructor | intros a Ha; discriminate].
  - split; [constructor; [apply HP | constructor]|].
    intros files Hfiles.
    destruct (generated_items E _) as [items|e]; [|discriminate].
    cbn [and_then] in Hfiles.
    destruct (forallb is_object items); inversion Hfiles. eauto.
Qed.

(** With an output that is not well formed, both adapters raise. *)
Lemma write_code_with_llm_rejects (brief checks attachments : JSON) :
  (forall prompt, P (ChatCompletion prompt)) ->
  (forall h prompt, well_formed E (answer E h (ChatCompletion prompt)) = false) ->
  spec (calls P) (write_code_with_llm E brief checks attachments) raising.
Proof.
  intros HP Hbad h.
  destruct (write_code_with_llm_run E brief checks attachments h)
    as [[e Hrun] | [prompt Hrun]]; cbv zeta in Hrun; rewrite Hrun; cbn [fst snd].
  - split; [constructor | intros a Ha; discriminate].
  - split; [constructor; [apply HP | constructor]|].
    specialize (Hbad h prompt). unfold well_formed in Hbad.
    destruct (generated_items E _) as [items|e]; [|intros a Ha; discriminate].
    cbn [and_then]. rewrite Hbad. intros a Ha; discriminate.
Qed.

Lemma update_code_with_llm_rejects (brief checks attachments repo_name : JSON)
    (existing_files : list ExistingFile) :
  (forall prompt, P (ChatCompletion prompt)) ->
  (forall h prompt, well_formed E (answer E h (ChatCompletion prompt)) = false) ->
  spec (calls P)
       (update_code_with_llm E brief checks attachments repo_name existing_files)
       raising.
Proof.
  intros HP Hbad h.
  destruct (update_code_with_llm_run E brief checks attachments repo_name
              existing_files h)
    as [[e Hrun] | [prompt Hrun]]; cbv zeta in Hrun; rewrite Hrun; cbn [fst snd].
  - split; [constructor | intros a Ha; discriminate].
  - split; [constructor; [apply HP | constructor]|].
    specialize (Hbad h prompt). unfold well_formed in Hbad.
    destruct (generated_items E _) as [items|e]; [|intros a Ha; discriminate].
    cbn [and_then]. rewrite Hbad. intros a Ha; discriminate.
Qed.

Lemma fetch_existing_calls (repo_name : JSON) (names : list string) :
  (forall name, P (GetContents repo_name name "main")) ->
  spec (calls P) (fetch_existing E repo_name names) anything.
Proof.
  intros HP. induction names as [|name rest IH]; cbn [fetch_existing].
  - repeat spec_step.
  - unfold print_short.
    repeat first [ exact IH
                 | apply get_file_content_from_repo_calls; apply HP
                 | spec_step ].
Qed.

Lemma revise_existing_application_calls (data : Dict)
    (Qf : list ExistingFile -> list Dict -> Prop) :
  (forall brief checks attachments repo_name existing,
     spec (calls P)
          (update_code_with_llm E brief checks attachments repo_name existing)
          (returning (Qf existing))) ->
  (forall repo_name name, P (GetContents repo_name name "main")) ->
  (forall repo_name existing files,
     Qf existing files ->
     (forall file payload,
        In file (map (ensure_sha existing) files) ->
        P (PutContents repo_name (get file "name") payload)) /\
     P (GetCommit repo_name "main") /\
     (payload_fields data -> forall url payload, P (PostEvaluation url payload))) ->
  spec (calls P) (revise_existing_application E data) anything.
Proof.
  intros Hupdate Hread HP. unfold revise_existing_application.
  apply (spec_try_except _ anything);
    [ | intros; exact I | intros e _; repeat spec_step ].
  apply spec_then; [repeat spec_step | intros repo_name | intros; exact I].
  apply spec_then; [ | intros existing | intros; exact I].
  { apply fetch_existing_calls, Hread. }
  apply spec_then; [repeat spec_step | intros brief | intros; exact I].
  apply (spec_bind _ (returning (Qf existing)));
    [ apply Hupdate | intros files Hfiles | intros; exact I ].
  destruct (HP repo_name existing files (Hfiles files eq_refl))
    as (Hput & Hcommit & Hnotify).
  cbv zeta.
  apply spec_then; [ | intros _ | intros; exact I ].
  { apply push_files_to_repo_calls; [apply Hread | assumption]. }
  apply report_calls; assumption.
Qed.

Lemma process_task_background_calls (data : Dict) :
  (forall repo_name, P (GetRepo repo_name)) ->
  (forall repo_name name, P (GetContents repo_name name "main")) ->
  spec (calls P) (revise_existing_application E data) anything ->
  spec (calls P) (build_initial_application E data) anything ->
  spec (calls P) (process_task_background E data) anything.
Proof.
  intros Hrepo Hread Hrevise Hbuild. unfold process_task_background.
  repeat first [ exact Hrevise | exact Hbuild
               | apply repository_exists_calls; apply Hrepo
               | apply check_repo_has_required_files_calls; apply Hread
               | spec_step ].
Qed.

End Workflows.

(** ** What is written *)

Lemma push_file_written (E : Env) (repo_name round : JSON) (file : Dict)
    (h : History) (es : list Event) (file' : Dict) :
  push_file E repo_name round file h = (es, Val file') ->
  written es = [to_write E file].
Proof.
  intros Hrun. unfold to_write.
  unfold push_file, print_short, refresh_sha, get_file_content_from_repo,
    payload_content, request, response_json, guard, bind, ret, lift, raise
    in Hrun.
  split_run Hrun; inversion Hrun; subst; reflexivity.
Qed.

Lemma push_files_to_repo_written (E : Env) (repo_name round : JSON)
    (files : list Dict) :
  forall (h : History) (es : list Event) (done : list Dict),
    push_files_to_repo E repo_name files round h = (es, Val done) ->
    written es = map (to_write E) files.
Proof.
  induction files as [|file rest IH]; intros h es done Hrun.
  - inversion Hrun. reflexivity.
  - cbn [push_files_to_repo] in Hrun. unfold bind at 1 in Hrun.
    destruct (push_file E repo_name round file h) as [es1 [file'|e]] eqn:Hfile;
      [|discriminate].
    unfold bind at 1 in Hrun.
    destruct (push_files_to_repo E repo_name rest round (h ++ es1))
      as [es2 [rest'|e]] eqn:Hrest; [|discriminate].
    cbn in Hrun. inversion Hrun; subst. clear Hrun.
    rewrite app_nil_r.
    pose proof (push_file_written _ _ _ _ _ _ _ Hfile) as H1.
    pose proof (IH _ _ _ Hrest) as H2.
    unfold written in *. rewrite flat_map_app, H1, H2. reflexivity.
Qed.

(** ** Output that is not well formed *)

Section Rejection.

Variable E : Env.
Variable P : Call -> Prop.
Hypothesis Pllm : forall prompt, P (ChatCompletion prompt).
Hypothesis Pread : forall repo_name name, P (GetContents repo_name name "main").
Hypothesis Prepo : forall repo_name, P (GetRepo repo_name).
Hypothesis Hbad :
  forall h prompt, well_formed E (answer E h (ChatCompletion prompt)) = false.

Lemma raising_value {A} (a : A) : ~ raising (Val a).
Proof. intros H. exact (H a eq_refl). Qed.

Lemma build_initial_application_rejects (data : Dict) :
  spec (calls P) (build_initial_application E data) raising.
Proof.
  unfold build_initial_application.
  apply (spec_try_except _ raising);
    [ | intros a Ha; exact Ha | intros e _; repeat spec_step ].
  apply spec_then; [repeat spec_step | intros repo_name | intros; solve_post].
  apply spec_then; [repeat spec_step | intros brief | intros; solve_post].
  apply (spec_bind _ raising);
    [ apply write_code_with_llm_rejects; assumption
    | intros files Hfiles; destruct (raising_value _ Hfiles)
    | intros e _; solve_post ].
Qed.

Lemma revise_existing_application_rejects (data : Dict) :
  spec (calls P) (revise_existing_application E data) raising.
Proof.
  unfold revise_existing_application.
  apply (spec_try_except _ raising);
    [ | intros a Ha; exact Ha | intros e _; repeat spec_step ].
  apply spec_then; [repeat spec_step | intros repo_name | intros; solve_post].
  apply spec_then; [ | intros existing | intros; solve_post].
  { apply fetch_existing_calls, Pread. }
  apply spec_then; [repeat spec_step | intros brief | intros; solve_post].
  apply (spec_bind _ raising);
    [ apply update_code_with_llm_rejects; assumption
    | intros files Hfiles; destruct (raising_value _ Hfiles)
    | intros e _; solve_post ].
Qed.

Lemma process_task_background_rejects (data : Dict) (h : History) :
  Forall (calls P) (fst (process_task_background E data h)) /\
  exists pre e,
    fst (process_task_background E data h) = pre ++ [EvPrint (BackgroundFailed e)].
Proof.
  unfold process_task_background.
  match goal with |- context [try_except ?body ?handler] =>
    assert (Hbody : spec (calls P) body raising) end.
  { apply spec_then; [repeat spec_step | intros _ | intros; solve_post].
    apply spec_then; [ | intros repo_exists | intros; solve_post].
    { apply repository_exists_calls, Prepo. }
    apply spec_then; [ | intros has | intros; solve_post].
    { repeat first [ apply check_repo_has_required_files_calls; apply Pread
                   | spec_step ]. }
    destruct (repo_exists && has).
    - apply spec_then; [repeat spec_step | intros _ | intros; solve_post].
      apply (spec_bind _ raising);
        [ apply revise_existing_application_rejects
        | intros a Ha; destruct (raising_value _ Ha)
        | intros e _; solve_post ].
    - apply spec_then; [repeat spec_step | intros _ | intros; solve_post].
      apply (spec_bind _ raising);
        [ apply build_initial_application_rejects
        | intros a Ha; destruct (raising_value _ Ha)
        | intros e _; solve_post ]. }
  unfold try_except. destruct (Hbody h) as [Hevents Hraise].
  match goal with |- context [match ?body h with _ => _ end] =>
    destruct (body h) as [es [a|e]] end; cbn [fst snd] in *.
  - destruct (raising_value _ Hraise).
  - unfold print. cbn [fst]. split.
    + apply Forall_app. split; [assumption | repeat constructor].
    + eauto.
Qed.

End Rejection.

(** ** Requests without round or nonce *)

(** C10: a request is accepted without [round] and [nonce], and the
    workflow reads both once the site is published.  No run on such a
    request sends a notification; and on a fresh host the creation path
    creates the repository, writes both files, enables hosting, reads the
    commit and then fails with the missing key, which the top level logs. *)
Theorem missing_round_fails_after_publishing :
  (forall (E : Env) (data : Dict) (h : History),
     dict_mem data "round" = false \/ dict_mem data "nonce" = false ->
     Forall (calls (fun c => is_notification c = false))
            (fst (process_task_background E data h))) /\
  handle_task fresh request_without_round =
    (Body [("task"%string, JStr "site"); ("round"%string, JNull);
           ("status"%string, JStr "processing")],
     [request_without_round]) /\
  process_task_background fresh request_without_round [] =
  ([EvPrint (ProcessingTask (JStr "site") JNull);
    EvHttp (GetRepo (JStr "site")) (status_only 404);
    EvPrint RepositoryDoesNotExist;
    EvPrint ProcessingAsInitialCreation;
    EvHttp (ChatCompletion {| p_brief := JStr "a landing page"; p_checks := [];
                              p_attachments := []; p_existing := None |})
           (completion "two-files");
    EvHttp (CreateRepo (JStr "site")) (status_only 201);
    EvHttp (put_call fresh (JStr "site") (JStr "index.html") (JNum 1) Add
                     "<html></html>" None) (status_only 201);
    EvHttp (put_call fresh (JStr "site") (JStr "README.md") (JNum 1) Add
                     "# Overview" None) (status_only 201);
    EvHttp (EnablePages (JStr "site")) (status_only 201);
    EvHttp (GetCommit (JStr "site") "main")
           (ok_json (JObj [("sha"%string, JStr "c0ffee")]));
    EvPrint (InitialBuildFailed (KeyError "round"));
    EvPrint (BackgroundFailed (KeyError "round"))],
   Val tt).
Proof.
  split; [|split; reflexivity].
  intros E data h Hmissing.
  assert (Hfields : ~ payload_fields data).
  { intros [Hround Hnonce]. destruct Hmissing as [H|H]; congruence. }
  set (P := fun c => is_notification c = false).
  apply (process_task_background_calls E P data); try (intros; reflexivity).
  - apply (revise_existing_application_calls E P data (fun _ _ => True)).
    + intros. eapply spec_conseq.
      * apply update_code_with_llm_calls. intros; reflexivity.
      * intros r _ a _. exact I.
    + intros; reflexivity.
    + intros repo_name existing files _.
      split; [intros; reflexivity | split; [reflexivity|]].
      intros Hf. destruct (Hfields Hf).
  - apply (build_initial_application_calls E P data (fun _ => True)).
    + intros. eapply spec_conseq.
      * apply write_code_with_llm_calls. intros; reflexivity.
      * intros r _ a _. exact I.
    + intros repo_name files _.
      repeat split; try reflexivity; try (intros; reflexivity).
      intros Hf. destruct (Hfields Hf).
Qed.

Lemma missing_round_fails_after_publishing_witness :
  Forall (calls (fun c => is_notification c = false))
         (fst (process_task_background fresh request_without_round [])).
Proof.
  apply (proj1 missing_round_fails_after_publishing
           fresh request_without_round []).
  left. reflexivity.
Defined.

(** ** Tokens of updates *)

Lemma json_eqb_refl : forall a, json_eqb a a = true.
Proof.
  fix IH 1. intros [|b|n|s|items|fields]; cbn [json_eqb].
  - reflexivity.
  - destruct b; reflexivity.
  - apply Z.eqb_refl.
  - apply String.eqb_refl.
  - induction items as [|x items IHitems]; [reflexivity|].
    rewrite IH, IHitems. reflexivity.
  - induction fields as [|[k x] fields IHfields]; [reflexivity|].
    rewrite String.eqb_refl, IH, IHfields. reflexivity.
Qed.

Lemma json_eqb_eq : forall a b, json_eqb a b = true -> a = b.
Proof.
  fix IH 1.
  intros [|x|x|x|xs|xs] [|y|y|y|ys|ys]; cbn [json_eqb]; try discriminate;
    intros H.
  - reflexivity.
  - apply Bool.eqb_prop in H. congruence.
  - apply Z.eqb_eq in H. congruence.
  - apply String.eqb_eq in H. congruence.
  - f_equal. revert ys H.
    induction xs as [|x xs IHxs]; intros [|y ys] H; try discriminate.
    + reflexivity.
    + apply andb_true_iff in H as [H1 H2].
      f_equal; [apply IH, H1 | apply IHxs, H2].
  - f_equal. revert ys H.
    induction xs as [|[k x] xs IHxs]; intros [|[k' y] ys] H; try discriminate.
    + reflexivity.
    + apply andb_true_iff in H as [H1 H2].
      apply andb_true_iff in H1 as [Hk Hx].
      apply String.eqb_eq in Hk. subst k'.
      f_equal; [f_equal; apply IH, Hx | apply IHxs, H2].
Qed.

Lemma last_read_app (h h' : History) (repo_name file_path : JSON) :
  last_read (h ++ h') repo_name file_path =
  match last_read h' repo_name file_path with
  | Some o => Some o
  | None => last_read h repo_name file_path
  end.
Proof.
  induction h as [|e h IH]; cbn [app last_read].
  - destruct (last_read h' repo_name file_path); reflexivity.
  - rewrite IH. destruct (last_read h' repo_name file_path); reflexivity.
Qed.

Lemma last_read_token_other (E : Env) (h : History) (e : Event)
    (repo_name file_path : JSON) :
  is_read_of repo_name file_path e = None ->
  last_read_token E (h ++ [e]) repo_name file_path
  = last_read_token E h repo_name file_path.
Proof.
  intros He. unfold last_read_token. rewrite last_read_app.
  cbn [last_read]. rewrite He. reflexivity.
Qed.

Lemma last_read_token_read (E : Env) (h : History) (o : Outcome)
    (repo_name file_path : JSON) (branch : string) :
  last_read_token E (h ++ [EvHttp (GetContents repo_name file_path branch) o])
                  repo_name file_path
  = match read_result E o with
    | Val (_, token) => Some token
    | Raise _ => None
    end.
Proof.
  unfold last_read_token. rewrite last_read_app.
  cbn [last_read is_read_of]. rewrite !json_eqb_refl. reflexivity.
Qed.

Lemma is_read_of_other_call (repo_name file_path : JSON) (c : Call) (o : Outcome) :
  is_read c = false -> is_read_of repo_name file_path (EvHttp c o) = None.
Proof. destruct c; try reflexivity. discriminate. Qed.

Lemma guarded_app (G : History -> Event -> Prop) (es es' : list Event) :
  forall h, guarded G h (es ++ es') <->
            guarded G h es /\ guarded G (h ++ es) es'.
Proof.
  induction es as [|e es IH]; intros h; cbn [app guarded].
  - rewrite app_nil_r. tauto.
  - rewrite IH, <- app_assoc. cbn [app]. tauto.
Qed.

Section Logic.

Variable E : Env.
Variable before : History.
Variable G : History -> Event -> Prop.

Lemma triple_ret {A} (P : History -> Prop) (Q : Res A -> History -> Prop) (a : A) :
  (forall v, P v -> Q (Val a) v) -> triple before P (ret a) G Q.
Proof. intros H v HP. cbn. rewrite app_nil_r. auto. Qed.

Lemma triple_raise {A} (P : History -> Prop) (Q : Res A -> History -> Prop)
    (e : Exn) :
  (forall v, P v -> Q (Raise e) v) -> triple before P (raise e) G Q.
Proof. intros H v HP. cbn. rewrite app_nil_r. auto. Qed.

Lemma triple_lift {A} (P : History -> Prop) (Q : Res A -> History -> Prop)
    (r : Res A) :
  (forall v, P v -> Q r v) -> triple before P (lift r) G Q.
Proof. intros H v HP. cbn. rewrite app_nil_r. auto. Qed.

Lemma triple_bind {A B} (P : History -> Prop) (Q : Res A -> History -> Prop)
    (R : Res B -> History -> Prop) (m : M A) (f : A -> M B) :
  triple before P m G Q ->
  (forall a, triple before (Q (Val a)) (f a) G R) ->
  (forall e v, Q (Raise e) v -> R (Raise e) v) ->
  triple before P (bind m f) G R.
Proof.
  intros Hm Hf He v HP. specialize (Hm v HP). unfold bind.
  destruct (m (before ++ v)) as [es [a|e]]; cbn [fst snd] in Hm;
    destruct Hm as [Hg HQ].
  - specialize (Hf a (v ++ es) HQ). rewrite app_assoc in Hf.
    destruct (f a ((before ++ v) ++ es)) as [es' r]; cbn [fst snd] in *.
    rewrite guarded_app, app_assoc. tauto.
  - cbn [fst snd]. auto.
Qed.

Lemma triple_try_except {A} (P : History -> Prop) (Q R : Res A -> History -> Prop)
    (m : M A) (handler : Exn -> M A) :
  triple before P m G Q ->
  (forall a v, Q (Val a) v -> R (Val a) v) ->
  (forall e, triple before (Q (Raise e)) (handler e) G R) ->
  triple before P (try_except m handler) G R.
Proof.
  intros Hm Hv Hh v HP. specialize (Hm v HP). unfold try_except.
  destruct (m (before ++ v)) as [es [a|e]]; cbn [fst snd] in Hm;
    destruct Hm as [Hg HQ].
  - cbn [fst snd]. auto.
  - specialize (Hh e (v ++ es) HQ). rewrite app_assoc in Hh.
    destruct (handler e ((before ++ v) ++ es)) as [es' r]; cbn [fst snd] in *.
    rewrite guarded_app, app_assoc. tauto.
Qed.

Lemma triple_conseq {A} (P P' : History -> Prop) (Q Q' : Res A -> History -> Prop)
    (m : M A) :
  triple before P m G Q ->
  (forall v, P' v -> P v) ->
  (forall r v, Q r v -> Q' r v) ->
  triple before P' m G Q'.
Proof. intros Hm HP HQ v HP'. destruct (Hm v (HP v HP')). auto. Qed.

(** A fact that does not depend on the history can be taken out of the
    precondition. *)
Lemma triple_pure {A} (fact : Prop) (P : History -> Prop)
    (Q : Res A -> History -> Prop) (m : M A) :
  (fact -> triple before P m G Q) ->
  triple before (fun v => fact /\ P v) m G Q.
Proof. intros H v [Hfact HP]. apply H; assumption. Qed.

(** A computation known by the calls it makes keeps an assertion that all
    these calls keep. *)
Lemma triple_of_spec {A} (Pc : Call -> Prop) (I : History -> Prop)
    (Q : Res A -> Prop) (m : M A) :
  spec (calls Pc) m Q ->
  (forall v e, calls Pc e -> G v e) ->
  (forall v e, I v -> calls Pc e -> I (v ++ [e])) ->
  triple before I m G (fun r v => I v /\ Q r).
Proof.
  intros Hm HG HI v Hv. destruct (Hm (before ++ v)) as [Hcalls HQ].
  assert (Hboth : forall es v',
             Forall (calls Pc) es -> I v' -> guarded G v' es /\ I (v' ++ es)).
  { induction es as [|e es IH]; intros v' Hes Hv'; cbn [guarded].
    - rewrite app_nil_r. auto.
    - inversion Hes; subst.
      destruct (IH (v' ++ [e])) as [Hg Hi];
        [assumption | apply HI; assumption |].
      rewrite <- app_assoc in Hi. cbn [app] in Hi.
      split; [split; [apply HG; assumption | exact Hg] | exact Hi]. }
  destruct (Hboth _ v Hcalls Hv). auto.
Qed.

End Logic.

Lemma push_file_shape (E : Env) (repo_name round : JSON) (file : Dict)
    (h : History) :
  let name := get file "name" in
  let call := GetContents repo_name name "main" in
  let read := EvHttp call (answer E h call) in
  exists es r,
    push_file E repo_name round file h = (es, r) /\
    if is_update round file && negb (truthy (get file "sha")) then
      es = [read] \/
      exists payload o,
        es = [read; EvHttp (PutContents repo_name name payload) o] /\
        (message_verb payload = Update ->
         exists token content,
           sha payload = Some token /\ truthy token = true /\
           read_result E (answer E h call) = Val (content, token))
    else
      es = [] \/
      exists payload o,
        es = [EvHttp (PutContents repo_name name payload) o] /\
        (message_verb payload = Update ->
         is_update round file = true /\ truthy (get file "sha") = true /\
         sha payload = Some (get file "sha")).
Proof.
  intros name call read.
  destruct (push_file E repo_name round file h) as [es r] eqn:Hrun.
  exists es, r. split; [reflexivity|].
  subst read call. unfold is_update, resolved_action, read_result.
  unfold push_file, print_short, refresh_sha, get_file_content_from_repo,
    payload_content, request, response_json, guard, bind, ret, lift, raise
    in Hrun.
  fold name in Hrun.
  destruct (is_str (get_or file "action"
                      (JStr (if is_one round then "create" else "update")))
                   "update") eqn:Hupdate;
    destruct (truthy (get file "sha")) eqn:Htoken;
    cbn [andb negb] in Hrun |- *;
    split_run Hrun; inversion Hrun; subst; clear Hrun;
    try (left; reflexivity);
    try (right; eexists _, _; split; [reflexivity|];
         cbn [message_verb sha andb];
         first [ discriminate
               | intros _; eexists _, _; repeat split; eauto
               | intros _; repeat split; eauto ]).

Qed.

Lemma tokens_read_other (E : Env) (repo_name round : JSON) (files : list Dict)
    (v : History) (e : Event) :
  (forall name, is_read_of repo_name name e = None) ->
  tokens_read E repo_name round files v ->
  tokens_read E repo_name round files (v ++ [e]).
Proof.
  intros He Hread file Hin Hupdate Htoken.
  rewrite last_read_token_other by apply He. apply Hread; assumption.
Qed.

Lemma tokens_read_tail (E : Env) (repo_name round : JSON) (file : Dict)
    (rest : list Dict) (v : History) :
  tokens_read E repo_name round (file :: rest) v ->
  tokens_read E repo_name round rest v.
Proof. intros Hread f Hin. apply Hread. right. exact Hin. Qed.

(** The read made for an update without token leaves the tokens of the
    remaining files as they were read: none of them is for that file. *)
Lemma tokens_read_refresh (E : Env) (repo_name round : JSON) (file : Dict)
    (rest : list Dict) (v : History) (o : Outcome) :
  tokens_agree round (file :: rest) ->
  is_update round file = true ->
  truthy (get file "sha") = false ->
  tokens_read E repo_name round (file :: rest) v ->
  tokens_read E repo_name round rest
    (v ++ [EvHttp (GetContents repo_name (get file "name") "main") o]).
Proof.
  intros Hagree Hupdate Htoken Hread f Hin Hupdate' Htoken'.
  rewrite last_read_token_other.
  - apply Hread; [right; exact Hin | assumption | assumption].
  - cbn [is_read_of]. rewrite json_eqb_refl. cbn [andb].
    destruct (json_eqb (get file "name") (get f "name")) eqn:Hname;
      [|reflexivity].
    apply json_eqb_eq in Hname.
    pose proof (Hagree file f (or_introl eq_refl) (or_intror Hin)
                  Hupdate Hupdate' Hname) as Hsame.
    congruence.
Qed.

Lemma push_file_tokens (E : Env) (before : History) (repo_name round : JSON)
    (file : Dict) (rest : list Dict) :
  tokens_agree round (file :: rest) ->
  triple before (tokens_read E repo_name round (file :: rest))
         (push_file E repo_name round file)
         (update_carries_token E)
         (fun _ v => tokens_read E repo_name round rest v).
Proof.
  intros Hagree v Hread.
  destruct (push_file_shape E repo_name round file (before ++ v))
    as (es & r & Hrun & Hshape).
  cbv zeta in Hshape. rewrite Hrun. cbn [fst snd].
  set (call := GetContents repo_name (get file "name") "main") in *.
  assert (Hput : forall payload o name,
            is_read_of repo_name name
              (EvHttp (PutContents repo_name (get file "name") payload) o)
            = None) by reflexivity.
  destruct (is_update round file && negb (truthy (get file "sha"))) eqn:Hrefresh.
  - apply andb_true_iff in Hrefresh as [Hupdate Htoken].
    apply negb_true_iff in Htoken.
    pose proof (tokens_read_refresh E repo_name round file rest v
                  (answer E (before ++ v) call) Hagree Hupdate Htoken Hread)
      as Hrest.
    fold call in Hrest.
    destruct Hshape as [-> | (payload & o & -> & Hverb)].
    + split; [cbn; auto | exact Hrest].
    + split.
      * cbn [guarded update_carries_token]. split; [exact I|]. split; [|exact I].
        intros Hupd. destruct (Hverb Hupd) as (token & content & Hsha & Htruthy & Hres).
        exists token. split; [assumption|]. split; [assumption|].
        unfold call. rewrite last_read_token_read. fold call. rewrite Hres.
        reflexivity.
      * replace (v ++ [EvHttp call (answer E (before ++ v) call);
                       EvHttp (PutContents repo_name (get file "name") payload) o])
          with ((v ++ [EvHttp call (answer E (before ++ v) call)])
                  ++ [EvHttp (PutContents repo_name (get file "name") payload) o])
          by (rewrite <- app_assoc; reflexivity).
        apply tokens_read_other; [intros; apply Hput | exact Hrest].
  - destruct Hshape as [-> | (payload & o & -> & Hverb)].
    + split; [exact I|]. rewrite app_nil_r.
      apply (tokens_read_tail _ _ _ _ _ _ Hread).
    + split.
      * cbn [guarded update_carries_token]. split; [|exact I].
        intros Hupd. destruct (Hverb Hupd) as (Hupdate & Htruthy & Hsha).
        exists (get file "sha"). split; [assumption|]. split; [assumption|].
        apply Hread; [left; reflexivity | assumption | assumption].
      * apply tokens_read_other; [intros; apply Hput|].
        apply (tokens_read_tail _ _ _ _ _ _ Hread).
Qed.

Lemma push_files_to_repo_tokens (E : Env) (before : History)
    (repo_name round : JSON) (files : list Dict) :
  tokens_agree round files ->
  triple before (tokens_read E repo_name round files)
         (push_files_to_repo E repo_name files round)
         (update_carries_token E)
         (fun _ _ => True).
Proof.
  induction files as [|file rest IH]; intros Hagree; cbn [push_files_to_repo].
  - apply triple_ret. auto.
  - apply triple_bind with (Q := fun _ v => tokens_read E repo_name round rest v).
    + apply push_file_tokens, Hagree.
    + intros file'.
      apply triple_bind with (Q := fun _ _ => True).
      * apply IH. intros f f' Hf Hf'. apply Hagree; right; assumption.
      * intros rest'. apply triple_ret. auto.
      * auto.
    + auto.
Qed.

Lemma fetch_existing_tokens (E : Env) (before : History) (repo_name : JSON) :
  triple before (fun _ => True)
         (fetch_existing E repo_name key_files)
         (update_carries_token E)
         (fun r v => forall existing,
                       r = Val existing -> existing_read E repo_name existing v).
Proof.
  intros v _.
  destruct (fetch_existing E repo_name key_files (before ++ v)) as [es r] eqn:Hrun.
  cbn [fst snd].
  unfold fetch_existing, key_files, get_file_content_from_repo, print_short,
    request, guard, bind, ret, lift, raise in Hrun.
  split_run Hrun; inversion Hrun; subst; clear Hrun;
    (split; [cbn; auto|]);
    intros existing Hexisting; inversion Hexisting; subst; clear Hexisting;
    intros ef Hin; cbn [In] in Hin;
    repeat match goal with
           | H : _ \/ _ |- _ => destruct H
           | H : False |- _ => destruct H
           end;
    subst ef; cbn [ef_name ef_sha];
    unfold last_read_token; rewrite last_read_app;
    cbn [last_read is_read_of]; rewrite ?json_eqb_refl;
    cbn [json_eqb String.eqb Ascii.eqb Bool.eqb andb read_result];
    match goal with
    | H : file_content E ?r = _ |- context [file_content E ?r] => rewrite H
    end; reflexivity.
Qed.

Lemma is_str_eq (v : JSON) (s : string) : is_str v s = true -> v = JStr s.
Proof.
  destruct v; cbn [is_str]; try discriminate.
  intros H. apply String.eqb_eq in H. congruence.
Qed.

Lemma sha_map_of_some (existing : list ExistingFile) (name : string) (token : JSON) :
  forall acc,
    dict_get (fold_left (fun m ef => dict_set m (ef_name ef) (ef_sha ef))
                        existing acc) name = Some token ->
    dict_get acc name = Some token \/
    exists ef, In ef existing /\ ef_name ef = name /\ ef_sha ef = token.
Proof.
  induction existing as [|ef existing IH]; intros acc H; cbn [fold_left] in H.
  - left. exact H.
  - destruct (IH _ H) as [Hacc | (ef' & Hin & Hname & Hsha)].
    + rewrite dict_get_set in Hacc.
      destruct (String.eqb name (ef_name ef)) eqn:Hn.
      * apply String.eqb_eq in Hn. inversion Hacc.
        right. exists ef. split; [left; reflexivity | auto].
      * left. exact Hacc.
    + right. exists ef'. split; [right; exact Hin | auto].
Qed.

Lemma revised_name (existing : list ExistingFile) (item : JSON) :
  get (revised existing item) "name" = field item "name" JNull.
Proof. unfold revised. rewrite ensure_sha_name. reflexivity. Qed.

Lemma revised_action (existing : list ExistingFile) (item : JSON) (round : JSON) :
  resolved_action round (revised existing item)
  = field item "action" (JStr "update").
Proof.
  unfold resolved_action, revised, update_entry, ensure_sha, get_or.
  destruct (sha_map_get _ _) as [token|];
    [destruct (is_str (field item "action" (JStr "update")) "update") eqn:Hu|];
    cbn [app dict_mem dict_get get get_or String.eqb Ascii.eqb Bool.eqb];
    rewrite ?Hu; cbn [andb negb]; try reflexivity.
  destruct (is_str (field item "action" (JStr "update")) "update");
    cbn [andb]; [|reflexivity].
  destruct (find _ existing); [rewrite dict_get_set|]; reflexivity.
Qed.

Lemma revised_token (existing : list ExistingFile) (item : JSON) :
  is_str (field item "action" (JStr "update")) "update" = true ->
  get (revised existing item) "sha"
  = token_for existing (field item "name" JNull).
Proof.
  intros Hu. unfold revised, update_entry, ensure_sha, token_for, get, get_or.
  destruct (sha_map_get _ _) as [token|]; rewrite ?Hu;
    cbn [app dict_mem dict_get get get_or String.eqb Ascii.eqb Bool.eqb];
    rewrite ?Hu; cbn [andb negb]; [reflexivity|].
  destruct (find _ existing); [rewrite dict_get_set|]; reflexivity.
Qed.

Lemma token_for_read (existing : list ExistingFile) (name : JSON) :
  truthy (token_for existing name) = true ->
  exists ef,
    In ef existing /\ name = JStr (ef_name ef) /\
    token_for existing name = ef_sha ef.
Proof.
  unfold token_for, sha_map_get, sha_map_of. intros Htruthy.
  destruct name as [| | |s| |];
    try (destruct (find _ existing) as [ef|] eqn:Hfind;
         [apply find_some in Hfind as [_ Hstr]; discriminate | discriminate]).
  destruct (dict_get _ s) as [token|] eqn:Hmap.
  - destruct (sha_map_of_some existing s token [] Hmap)
      as [Hnil | (ef & Hin & Hname & Hsha)]; [discriminate|].
    exists ef. subst. auto.
  - destruct (find _ existing) as [ef|] eqn:Hfind; [|discriminate].
    apply find_some in Hfind as [Hin Hstr]. apply is_str_eq in Hstr.
    exists ef. auto.
Qed.

(** The entries that the revision hands to the write step satisfy what the
    write step relies on. *)
Lemma revised_tokens (E : Env) (repo_name round : JSON)
    (existing : list ExistingFile) (items : list JSON) (v : History) :
  existing_read E repo_name existing v ->
  tokens_read E repo_name round (map (revised existing) items) v /\
  tokens_agree round (map (revised existing) items).
Proof.
  intros Hexisting. split.
  - intros file Hin Hupdate Htruthy.
    apply in_map_iff in Hin as (item & <- & _).
    unfold is_update in Hupdate. rewrite revised_action in Hupdate.
    rewrite revised_token in Htruthy |- * by exact Hupdate.
    rewrite revised_name.
    destruct (token_for_read _ _ Htruthy) as (ef & Hin & Hname & Htoken).
    rewrite Htoken, Hname. apply Hexisting, Hin.
  - intros f f' Hf Hf' Hupdate Hupdate' Hname.
    apply in_map_iff in Hf as (item & <- & _).
    apply in_map_iff in Hf' as (item' & <- & _).
    unfold is_update in Hupdate, Hupdate'.
    rewrite revised_action in Hupdate, Hupdate'.
    rewrite !revised_name in Hname.
    rewrite !revised_token by assumption. rewrite Hname. reflexivity.
Qed.

Lemma revised_agree (round : JSON) (existing : list ExistingFile)
    (items : list JSON) :
  tokens_agree round (map (revised existing) items).
Proof.
  intros f f' Hf Hf' Hupdate Hupdate' Hname.
  apply in_map_iff in Hf as (item & <- & _).
  apply in_map_iff in Hf' as (item' & <- & _).
  unfold is_update in Hupdate, Hupdate'.
  rewrite revised_action in Hupdate, Hupdate'.
  rewrite !revised_name in Hname.
  rewrite !revised_token by assumption. rewrite Hname. reflexivity.
Qed.

Lemma created_tokens (E : Env) (repo_name : JSON) (items : list JSON)
    (v : History) :
  tokens_read E repo_name (JNum 1) (map write_entry items) v /\
  tokens_agree (JNum 1) (map write_entry items).
Proof.
  split.
  - intros file Hin Hupdate. apply in_map_iff in Hin as (item & <- & _).
    discriminate Hupdate.
  - intros f f' Hf _ Hupdate. apply in_map_iff in Hf as (item & <- & _).
    discriminate Hupdate.
Qed.

Section Tokens.

Variable E : Env.
Variable before : History.

Lemma aside_allowed (v : History) (e : Event) :
  calls (fun c => is_put c = false) e -> update_carries_token E v e.
Proof.
  destruct e as [c o| |]; try (intros; exact I).
  destruct c; try (intros; exact I). discriminate.
Qed.

Lemma aside_allowed' (v : History) (e : Event) :
  calls aside e -> update_carries_token E v e.
Proof.
  destruct e as [c o| |]; try (intros; exact I).
  destruct c; try (intros; exact I). intros [H _]. discriminate.
Qed.

Lemma existing_read_aside (repo_name : JSON) (existing : list ExistingFile)
    (v : History) (e : Event) :
  existing_read E repo_name existing v ->
  calls aside e ->
  existing_read E repo_name existing (v ++ [e]).
Proof.
  intros Hread He ef Hin. rewrite last_read_token_other; [apply Hread, Hin|].
  destruct e as [c o| |]; try reflexivity.
  destruct He as [_ He]. apply is_read_of_other_call, He.
Qed.

(** A step that makes no file write, on the way. *)
Lemma triple_step {A} (m : M A) (Q : Res A -> Prop) :
  spec (calls (fun c => is_put c = false)) m Q ->
  triple before (fun _ => True) m (update_carries_token E)
         (fun r _ => Q r).
Proof.
  intros Hm.
  eapply triple_conseq.
  - apply (triple_of_spec before (update_carries_token E)
             (fun c => is_put c = false) (fun _ => True) Q m Hm).
    + apply aside_allowed.
    + auto.
  - auto.
  - intros r v [_ HQ]. exact HQ.
Qed.

Lemma report_tokens (data : Dict) (repo_name : JSON) :
  triple before (fun _ => True)
    (commit <- get_sha_of_latest_commit E repo_name ;;
     payload <- evaluation_payload data repo_name commit ;;
     evaluation_url <- lift (item data "evaluation_url") ;;
     ping_evaluation_server E evaluation_url payload 3 ;;;
     ret (repo_url payload))
    (update_carries_token E) (fun _ _ => True).
Proof.
  eapply triple_conseq.
  - apply (triple_step _ anything).
    apply report_calls; [reflexivity | intros; reflexivity].
  - auto.
  - auto.
Qed.

Lemma build_initial_application_tokens (data : Dict) :
  triple before (fun _ => True) (build_initial_application E data)
         (update_carries_token E) (fun _ _ => True).
Proof.
  unfold build_initial_application.
  apply triple_try_except with (Q := fun _ _ => True); [ | auto | ].
  2:{ intros e. eapply triple_conseq;
        [ apply (triple_step _ anything); repeat spec_step | auto | auto ]. }
  apply triple_bind with (Q := fun _ _ => True);
    [apply triple_lift; auto | intros repo_name | auto].
  apply triple_bind with (Q := fun _ _ => True);
    [apply triple_lift; auto | intros brief | auto].
  apply triple_bind
    with (Q := fun r _ =>
                 returning (fun files =>
                   exists items,
                     files = map write_entry (filter recognised_item items)) r);
    [ | intros files | auto ].
  { apply triple_step. apply write_code_with_llm_calls. intros; reflexivity. }
  apply triple_bind with (Q := fun _ _ =>
          exists items, files = map write_entry (filter recognised_item items));
    [ | intros _ | auto ].
  { intros v Hfiles. destruct (Hfiles files eq_refl) as [items ->].
    destruct (triple_step (create_github_repo E repo_name) anything) with (v := v)
      as [Hg _]; [apply create_github_repo_calls; reflexivity | exact I |].
    split; [exact Hg | eauto]. }
  apply triple_bind with (Q := fun _ _ => True); [ | intros _ | auto ].
  { intros v [items ->].
    apply push_files_to_repo_tokens.
    - apply (proj2 (created_tokens E repo_name _ v)).
    - apply (proj1 (created_tokens E repo_name _ v)). }
  apply triple_bind with (Q := fun _ _ => True); [ | intros _ | auto ].
  { apply (triple_step _ anything).
    apply enable_github_pages_calls. reflexivity. }
  apply report_tokens.
Qed.

Lemma revise_existing_application_tokens (data : Dict) :
  triple before (fun _ => True) (revise_existing_application E data)
         (update_carries_token E) (fun _ _ => True).
Proof.
  unfold revise_existing_application.
  apply triple_try_except with (Q := fun _ _ => True); [ | auto | ].
  2:{ intros e. eapply triple_conseq;
        [ apply (triple_step _ anything); repeat spec_step | auto | auto ]. }
  apply triple_bind with (Q := fun _ _ => True);
    [apply triple_lift; auto | intros repo_name | auto].
  apply triple_bind
    with (Q := fun r v => forall existing,
                 r = Val existing -> existing_read E repo_name existing v);
    [ apply fetch_existing_tokens | intros existing | auto ].
  apply triple_bind
    with (Q := fun _ v => existing_read E repo_name existing v);
    [ apply triple_lift; auto | intros brief | auto ].
  apply triple_bind
    with (Q := fun r v =>
                 existing_read E repo_name existing v /\
                 returning (fun files =>
                   exists items,
                     files = map (update_entry (sha_map_of existing))
                                 (filter recognised_item items)) r);
    [ | intros files | auto ].
  { apply (triple_of_spec before (update_carries_token E) aside).
    - apply update_code_with_llm_calls. intros; split; reflexivity.
    - apply aside_allowed'.
    - intros v e. apply existing_read_aside. }
  cbv zeta.
  apply triple_bind with (Q := fun _ _ => True); [ | intros _ | auto ].
  { intros v [Hexisting Hfiles].
    destruct (Hfiles files eq_refl) as [items ->].
    rewrite map_map. fold (revised existing).
    apply push_files_to_repo_tokens.
    - apply revised_agree.
    - apply revised_tokens, Hexisting. }
  apply report_tokens.
Qed.

Lemma process_task_background_tokens (data : Dict) :
  triple before (fun _ => True) (process_task_background E data)
         (update_carries_token E) (fun _ _ => True).
Proof.
  unfold process_task_background.
  apply triple_try_except with (Q := fun _ _ => True); [ | auto | ].
  2:{ intros e. eapply triple_conseq;
        [ apply (triple_step _ anything); repeat spec_step | auto | auto ]. }
  apply triple_bind with (Q := fun _ _ => True); [ | intros _ | auto ].
  { apply (triple_step _ anything). repeat spec_step. }
  apply triple_bind with (Q := fun _ _ => True); [ | intros repo_exists | auto ].
  { apply (triple_step _ anything). apply repository_exists_calls. reflexivity. }
  apply triple_bind with (Q := fun _ _ => True); [ | intros has | auto ].
  { apply (triple_step _ anything).
    repeat first [ apply check_repo_has_required_files_calls; reflexivity
                 | spec_step ]. }
  destruct (repo_exists && has).
  - apply triple_bind with (Q := fun _ _ => True); [ | intros _ | auto ].
    { apply (triple_step _ anything). repeat spec_step. }
    apply triple_bind with (Q := fun _ _ => True);
      [ apply revise_existing_application_tokens | intros _ | auto ].
    apply (triple_step _ anything). repeat spec_step.
  - apply triple_bind with (Q := fun _ _ => True); [ | intros _ | auto ].
    { apply (triple_step _ anything). repeat spec_step. }
    apply triple_bind with (Q := fun _ _ => True);
      [ apply build_initial_application_tokens | intros _ | auto ].
    apply (triple_step _ anything). repeat spec_step.
Qed.

End Tokens.

Lemma guarded_at (G : History -> Event -> Prop) (pre post : list Event)
    (e : Event) (v : History) :
  guarded G v (pre ++ e :: post) -> G (v ++ pre) e.
Proof.
  intros H. apply guarded_app in H as [_ H]. exact (proj1 H).
Qed.

(** C2: in every run, a file write made as an update carries a token that
    is not empty and is the token most recently read, in that run, for the
    file written; so no update is sent without a token. *)
Theorem update_writes_carry_latest_token :
  forall (E : Env) (data : Dict) (h : History) (pre post : list Event)
         (repo_name file_name : JSON) (payload : PutPayload) (o : Outcome),
    fst (process_task_background E data h)
      = pre ++ EvHttp (PutContents repo_name file_name payload) o :: post ->
    message_verb payload = Update ->
    exists token,
      sha payload = Some token /\ truthy token = true /\
      last_read_token E pre repo_name file_name = Some token.
Proof.
  intros E data h pre post repo_name file_name payload o Hrun Hupdate.
  destruct (process_task_background_tokens E h data [] I) as [Hguarded _].
  rewrite app_nil_r, Hrun in Hguarded.
  apply guarded_at in Hguarded. exact (Hguarded Hupdate).
Qed.

Lemma update_writes_carry_latest_token_witness :
  exists token,
    Some (JStr "1ndex5ha") = Some token /\ truthy token = true /\
    last_read_token live
      (firstn 10 (fst (process_task_background live full_request [])))
      (JStr "site") (JStr "index.html") = Some token.
Proof.
  apply (update_writes_carry_latest_token live full_request []
           (firstn 10 (fst (process_task_background live full_request [])))
           (skipn 11 (fst (process_task_background live full_request [])))
           (JStr "site") (JStr "index.html")
           {| message_verb := Update; message_file := JStr "index.html";
              message_round := JNum 2; content := "<html></html>";
              sha := Some (JStr "1ndex5ha") |}
           (status_only 200));
    reflexivity.
Defined.

(** ** Output that is not well formed, in a run *)

Section Invariants.

Variable before : History.
Variable G : History -> Event -> Prop.

(** A computation known by the calls it makes keeps an assertion that all
    these calls keep, and is allowed where the assertion allows them. *)
Lemma triple_of_spec_inv {A} (Pc : Call -> Prop) (I : History -> Prop)
    (Q : Res A -> Prop) (m : M A) :
  spec (calls Pc) m Q ->
  (forall v e, I v -> calls Pc e -> G v e) ->
  (forall v e, I v -> calls Pc e -> I (v ++ [e])) ->
  triple before I m G (fun r v => I v /\ Q r).
Proof.
  intros Hm HG HI v Hv. destruct (Hm (before ++ v)) as [Hcalls HQ].
  assert (Hboth : forall es v',
             Forall (calls Pc) es -> I v' -> guarded G v' es /\ I (v' ++ es)).
  { induction es as [|e es IH]; intros v' Hes Hv'; cbn [guarded].
    - rewrite app_nil_r. auto.
    - inversion Hes; subst.
      destruct (IH (v' ++ [e])) as [Hg Hi];
        [assumption | apply HI; assumption |].
      rewrite <- app_assoc in Hi. cbn [app] in Hi.
      split; [split; [apply HG; assumption | exact Hg] | exact Hi]. }
  destruct (Hboth _ v Hcalls Hv). auto.
Qed.

End Invariants.

Lemma rejected_app (E : Env) (v v' : History) :
  rejected E (v ++ v') = rejected E v || rejected E v'.
Proof. apply existsb_app. Qed.

Section RunRejection.

Variable E : Env.
Variable before : History.

Lemma untouched_step {A} (m : M A) :
  spec (calls before_generation) m anything ->
  triple before (untouched E) m (stops_at_rejection E)
    (fun _ v => untouched E v).
Proof.
  intros Hm.
  eapply triple_conseq;
    [ apply (triple_of_spec_inv before (stops_at_rejection E)
               before_generation (untouched E) anything m Hm)
    | intros v Hv; exact Hv
    | intros r v [Hv _]; exact Hv ].
  - intros v e [Hj Hu] He. destruct e as [c o| |]; cbn; auto.
  - intros v e [Hj Hu] He. split.
    + unfold judged in *. rewrite rejected_app, Hj. cbn.
      destruct e as [c o| |]; try reflexivity.
      destruct He as (_ & _ & Hc). destruct c; try discriminate Hc; reflexivity.
    + apply Forall_app. split; [exact Hu|]. constructor; [|constructor].
      destruct e as [c o| |]; cbn; auto.
      destruct He as (Hw & Hn & _). auto.
Qed.

Lemma judged_step {A} (m : M A) :
  spec (calls after_generation) m anything ->
  triple before (judged E) m (stops_at_rejection E) (fun _ v => judged E v).
Proof.
  intros Hm.
  eapply triple_conseq;
    [ apply (triple_of_spec_inv before (stops_at_rejection E)
               after_generation (judged E) anything m Hm)
    | intros v Hv; exact Hv
    | intros r v [Hv _]; exact Hv ].
  - intros v e Hj He. destruct e as [c o| |]; cbn; auto.
    split; [exact Hj|]. intros Hgen. cbn in He. unfold after_generation in He.
    congruence.
  - intros v e Hj He. unfold judged in *. rewrite rejected_app, Hj. cbn.
    destruct e as [c o| |]; try reflexivity.
    cbn in He. unfold after_generation in He.
    destruct c; try discriminate He; reflexivity.
Qed.

Lemma generation_judged (prompt : Prompt) (v : History) (o : Outcome) :
  untouched E v ->
  guarded (stops_at_rejection E) v [EvHttp (ChatCompletion prompt) o] /\
  (well_formed E o = true -> judged E (v ++ [EvHttp (ChatCompletion prompt) o])).
Proof.
  intros [Hj Hu]. split.
  - cbn. auto.
  - intros Hok. unfold judged in *. rewrite rejected_app, Hj. cbn.
    rewrite Hok. reflexivity.
Qed.

Lemma write_code_with_llm_judged (brief checks attachments : JSON) :
  triple before (untouched E) (write_code_with_llm E brief checks attachments)
    (stops_at_rejection E) (judged_on_return E).
Proof.
  intros v Hv.
  destruct (write_code_with_llm_run E brief checks attachments (before ++ v))
    as [[e Hrun] | [prompt Hrun]]; cbv zeta in Hrun; rewrite Hrun;
    cbn [fst snd]; [split; exact I|].
  destruct (generation_judged prompt v
              (answer E (before ++ v) (ChatCompletion prompt)) Hv)
    as [Hguarded Hjudged].
  split; [exact Hguarded|].
  unfold well_formed in Hjudged.
  destruct (generated_items E _) as [items|e]; [|exact I].
  cbn [and_then].
  destruct (forallb is_object items); [|exact I]. exact (Hjudged eq_refl).
Qed.

Lemma update_code_with_llm_judged (brief checks attachments repo_name : JSON)
    (existing_files : list ExistingFile) :
  triple before (untouched E)
    (update_code_with_llm E brief checks attachments repo_name existing_files)
    (stops_at_rejection E) (judged_on_return E).
Proof.
  intros v Hv.
  destruct (update_code_with_llm_run E brief checks attachments repo_name
              existing_files (before ++ v))
    as [[e Hrun] | [prompt Hrun]]; cbv zeta in Hrun; rewrite Hrun;
    cbn [fst snd]; [split; exact I|].
  destruct (generation_judged prompt v
              (answer E (before ++ v) (ChatCompletion prompt)) Hv)
    as [Hguarded Hjudged].
  split; [exact Hguarded|].
  unfold well_formed in Hjudged.
  destruct (generated_items E _) as [items|e]; [|exact I].
  cbn [and_then].
  destruct (forallb is_object items); [|exact I]. exact (Hjudged eq_refl).
Qed.

Lemma failure_logged_judged {A} (l : Line) (e : Exn) :
  triple before (@judged_on_return A E (Raise e)) (print l ;;; raise e)
    (stops_at_rejection E) (@judged_on_return A E).
Proof. intros v _. cbn. auto. Qed.

Lemma report_judged (data : Dict) (repo_name : JSON) :
  triple before (judged E)
    (commit <- get_sha_of_latest_commit E repo_name ;;
     payload <- evaluation_payload data repo_name commit ;;
     evaluation_url <- lift (item data "evaluation_url") ;;
     ping_evaluation_server E evaluation_url payload 3 ;;;
     ret (repo_url payload))
    (stops_at_rejection E) (judged_on_return E).
Proof.
  eapply triple_conseq;
    [ apply judged_step, report_calls; [reflexivity | intros; reflexivity]
    | intros v Hv; exact Hv
    | intros [a|e] v Hv; [exact Hv | exact I] ].
Qed.

Ltac untouched_by proof :=
  eapply triple_bind with (Q := fun _ v => untouched E v);
  [ apply untouched_step; proof | intros ? | intros; exact I ].

Ltac judged_by proof :=
  eapply triple_bind with (Q := fun _ v => judged E v);
  [ apply judged_step; proof | intros ? | intros; exact I ].

Lemma build_initial_application_judged (data : Dict) :
  triple before (untouched E) (build_initial_application E data)
    (stops_at_rejection E) (judged_on_return E).
Proof.
  unfold build_initial_application.
  eapply triple_try_except with (Q := judged_on_return E);
    [|auto|intros e; apply failure_logged_judged].
  untouched_by ltac:(repeat spec_step).
  untouched_by ltac:(repeat spec_step).
  eapply triple_bind with (Q := judged_on_return E);
    [ apply write_code_with_llm_judged | intros files | intros; exact I ].
  judged_by ltac:(apply create_github_repo_calls; reflexivity).
  judged_by ltac:(apply push_files_to_repo_calls; intros; reflexivity).
  judged_by ltac:(apply enable_github_pages_calls; reflexivity).
  apply report_judged.
Qed.

Lemma revise_existing_application_judged (data : Dict) :
  triple before (untouched E) (revise_existing_application E data)
    (stops_at_rejection E) (judged_on_return E).
Proof.
  unfold revise_existing_application.
  eapply triple_try_except with (Q := judged_on_return E);
    [|auto|intros e; apply failure_logged_judged].
  untouched_by ltac:(repeat spec_step).
  untouched_by ltac:(apply fetch_existing_calls; intros; repeat split).
  untouched_by ltac:(repeat spec_step).
  eapply triple_bind with (Q := judged_on_return E);
    [ apply update_code_with_llm_judged | intros files | intros; exact I ].
  cbv zeta.
  judged_by ltac:(apply push_files_to_repo_calls; intros; reflexivity).
  apply report_judged.
Qed.

Lemma process_task_background_judged (data : Dict) :
  triple before (untouched E) (process_task_background E data)
    (stops_at_rejection E)
    (fun _ v => rejected E v = true ->
                exists pre e, v = pre ++ [EvPrint (BackgroundFailed e)]).
Proof.
  unfold process_task_background. cbv zeta.
  eapply triple_try_except with (Q := judged_on_return E).
  - untouched_by ltac:(repeat spec_step).
    untouched_by ltac:(apply repository_exists_calls; repeat split).
    untouched_by
      ltac:(repeat first [ apply check_repo_has_required_files_calls;
                           intros; repeat split
                         | spec_step ]).
    match goal with |- triple _ _ (if ?b then _ else _) _ _ => destruct b end.
    + untouched_by ltac:(repeat spec_step).
      eapply triple_bind with (Q := judged_on_return E);
        [ apply revise_existing_application_judged
        | intros ?
        | intros; exact I ].
      eapply triple_conseq;
        [ apply judged_step; repeat spec_step
        | intros v Hv; exact Hv
        | intros [done|e] v Hv; [exact Hv | exact I] ].
    + untouched_by ltac:(repeat spec_step).
      eapply triple_bind with (Q := judged_on_return E);
        [ apply build_initial_application_judged
        | intros ?
        | intros; exact I ].
      eapply triple_conseq;
        [ apply judged_step; repeat spec_step
        | intros v Hv; exact Hv
        | intros [done|e] v Hv; [exact Hv | exact I] ].
  - intros a v Hv Hrejected. cbn in Hv. unfold judged in Hv. congruence.
  - intros e v _. cbn. split; [tauto|]. intros _. exists v, e. reflexivity.
Qed.

End RunRejection.

Lemma rejected_here (E : Env) (pre post : list Event) (prompt : Prompt)
    (o : Outcome) :
  well_formed E o = false ->
  rejected E (pre ++ EvHttp (ChatCompletion prompt) o :: post) = true.
Proof.
  intros Hbad. rewrite rejected_app. cbn. rewrite Hbad.
  cbn. apply orb_true_r.
Qed.

(** C4, as the code has it: when, in a run, the generation service gives an
    output that is not well formed (not JSON text, not an object, or with a
    [files] that is not a list of objects), nothing was written to the
    repository host or notified before, and nothing follows the answer but
    printed lines: no write, no notification, no second request to the
    service; the run ends with the failure logged at the top level. *)
Theorem malformed_output_aborts_before_writes :
  forall (E : Env) (data : Dict) (h : History) (pre post : list Event)
         (prompt : Prompt) (o : Outcome),
    fst (process_task_background E data h)
      = pre ++ EvHttp (ChatCompletion prompt) o :: post ->
    well_formed E o = false ->
    Forall (calls (fun c => is_write c = false /\ is_notification c = false))
           pre /\
    Forall (fun e => exists l, e = EvPrint l) post /\
    exists earlier e, post = earlier ++ [EvPrint (BackgroundFailed e)].
Proof.
  intros E data h pre post prompt o Hrun Hbad.
  assert (Hstart : untouched E []) by (split; [reflexivity | constructor]).
  destruct (process_task_background_judged E h data [] Hstart)
    as [Hguarded Hclosing].
  rewrite app_nil_r in Hguarded, Hclosing. cbn [app] in Hguarded, Hclosing.
  rewrite Hrun in Hguarded, Hclosing.
  assert (Hpost : Forall (fun e => exists l, e = EvPrint l) post).
  { apply Forall_forall. intros e Hin.
    apply in_split in Hin as (p1 & p2 & ->).
    change (pre ++ EvHttp (ChatCompletion prompt) o :: p1 ++ e :: p2)
      with (pre ++ (EvHttp (ChatCompletion prompt) o :: p1) ++ e :: p2)
      in Hguarded.
    rewrite app_assoc in Hguarded.
    pose proof (guarded_at _ _ _ _ _ Hguarded) as He. cbn [app] in He.
    pose proof (rejected_here E pre p1 prompt o Hbad) as Hrejected.
    destruct e as [c o'| |]; cbn in He.
    - destruct He as [He _]. congruence.
    - congruence.
    - eexists. reflexivity. }
  split; [|split; [exact Hpost|]].
  - pose proof (guarded_at _ _ _ _ _ Hguarded) as He. cbn in He.
    exact (proj2 He eq_refl).
  - destruct (Hclosing (rejected_here E pre post prompt o Hbad))
      as (all & e & Hall).
    destruct (@exists_last _ post) as (earlier & closing & ->).
    { intros ->.
      assert (Hlast : last (pre ++ [EvHttp (ChatCompletion prompt) o])
                           (EvSleep 0)
                      = last (all ++ [EvPrint (BackgroundFailed e)]) (EvSleep 0))
        by (rewrite Hall; reflexivity).
      rewrite !last_last in Hlast. discriminate Hlast. }
    exists earlier, e. f_equal. f_equal.
    change (pre ++ EvHttp (ChatCompletion prompt) o :: earlier ++ [closing])
      with (pre ++ (EvHttp (ChatCompletion prompt) o :: earlier) ++ [closing])
      in Hall.
    rewrite app_assoc in Hall. apply app_inj_tail in Hall as [_ ->].
    reflexivity.
Qed.


Lemma malformed_output_aborts_before_writes_witness :
  let es := fst (process_task_background garbled full_request []) in
  Forall (calls (fun c => is_write c = false /\ is_notification c = false))
         (firstn 4 es) /\
  Forall (fun e => exists l, e = EvPrint l) (skipn 5 es) /\
  exists earlier e, skipn 5 es = earlier ++ [EvPrint (BackgroundFailed e)].
Proof.
  intros es.
  apply (malformed_output_aborts_before_writes garbled full_request []
           (firstn 4 es) (skipn 5 es)
           {| p_brief := JStr "a landing page"; p_checks := [];
              p_attachments := []; p_existing := None |}
           (completion "Sure! Here you go"));
    reflexivity.
Defined.

(** C4 as stated fails: the output parses, has the required shape and lacks
    both recognised files; the run is not aborted: the repository is
    created, hosting is enabled and the evaluator is notified, with no file
    published. *)
Lemma output_without_files_is_not_rejected :
  generated_items without_files (completion "no-files") = Val [] /\
  process_task_background without_files full_request [] =
  ([EvPrint (ProcessingTask (JStr "site") (JNum 2));
    EvHttp (GetRepo (JStr "site")) (status_only 404);
    EvPrint RepositoryDoesNotExist;
    EvPrint ProcessingAsInitialCreation;
    EvHttp (ChatCompletion {| p_brief := JStr "a landing page"; p_checks := [];
                              p_attachments := []; p_existing := None |})
           (completion "no-files");
    EvHttp (CreateRepo (JStr "site")) (status_only 201);
    EvHttp (EnablePages (JStr "site")) (status_only 201);
    EvHttp (GetCommit (JStr "site") "main")
           (ok_json (JObj [("sha"%string, JStr "c0ffee")]));
    EvHttp (PostEvaluation (JStr "https://eval.example.org/notify")
              {| email := JStr "dev@example.org"; task := JStr "site";
                 round := JNum 2; nonce := JStr "n-1"; repo_url := JStr "site";
                 commit_sha := JStr "c0ffee"; pages_url := JStr "site" |})
           (status_only 200);
    EvPrint InitialCreationCompleted],
   Val tt).
Proof. split; reflexivity. Qed.

(** ** What a run publishes *)

Lemma ensure_sha_content (existing : list ExistingFile) (file : Dict) :
  get (ensure_sha existing file) "content" = get file "content".
Proof.
  unfold ensure_sha, get, get_or.
  destruct (dict_mem file "action").
  - destruct (_ && _); [|reflexivity].
    destruct (find _ existing); [|reflexivity].
    rewrite dict_get_set. reflexivity.
  - destruct (_ && _).
    + destruct (find _ existing).
      * rewrite !dict_get_set. reflexivity.
      * rewrite dict_get_set. reflexivity.
    + rewrite dict_get_set. reflexivity.
Qed.

Lemma recognised_published_names (name : JSON) :
  recognised name = existsb (is_str name) published_names.
Proof. unfold recognised. cbn. rewrite orb_false_r. reflexivity. Qed.

Lemma created_expected (E : Env) (items : list JSON) :
  map (to_write E) (map write_entry (filter recognised_item items))
  = expected E items.
Proof.
  unfold expected. rewrite map_map.
  rewrite (filter_ext recognised_item
             (fun item => existsb (is_str (field item "name" JNull))
                                  published_names))
    by (intros item; apply recognised_published_names).
  apply map_ext. intros item. reflexivity.
Qed.

Lemma revised_expected (E : Env) (existing : list ExistingFile)
    (items : list JSON) :
  map (to_write E)
      (map (ensure_sha existing)
           (map (update_entry (sha_map_of existing))
                (filter recognised_item items)))
  = expected E items.
Proof.
  unfold expected. rewrite !map_map.
  rewrite (filter_ext recognised_item
             (fun item => existsb (is_str (field item "name" JNull))
                                  published_names))
    by (intros item; apply recognised_published_names).
  apply map_ext. intros item. unfold to_write, expected_write.
  rewrite ensure_sha_name, ensure_sha_content. reflexivity.
Qed.

Lemma generations_app (v v' : History) :
  generations (v ++ v') = generations v ++ generations v'.
Proof. apply flat_map_app. Qed.

Lemma written_app (v v' : History) : written (v ++ v') = written v ++ written v'.
Proof. apply flat_map_app. Qed.

Lemma beside_publishing_quiet (es : list Event) :
  Forall (calls beside_publishing) es -> generations es = [] /\ written es = [].
Proof.
  induction 1 as [|e es He _ [IHg IHw]]; [split; reflexivity|].
  change (e :: es) with ([e] ++ es). rewrite generations_app, written_app, IHg, IHw.
  destruct e as [c o| |]; try (split; reflexivity).
  destruct He as [Hput Hgen].
  destruct c; try discriminate Hput; try discriminate Hgen; split; reflexivity.
Qed.

Lemma push_file_written_any (E : Env) (repo_name round : JSON) (file : Dict)
    (h : History) :
  written (fst (push_file E repo_name round file h)) = [] \/
  written (fst (push_file E repo_name round file h)) = [to_write E file].
Proof.
  destruct (push_file E repo_name round file h) as [es r] eqn:Hrun.
  cbn [fst]. unfold to_write.
  unfold push_file, print_short, refresh_sha, get_file_content_from_repo,
    payload_content, request, response_json, guard, bind, ret, lift, raise
    in Hrun.
  split_run Hrun; inversion Hrun; subst; auto.
Qed.

Lemma push_files_to_repo_written_prefix (E : Env) (repo_name round : JSON)
    (files : list Dict) :
  forall h : History,
  exists rest,
    map (to_write E) files
    = written (fst (push_files_to_repo E repo_name files round h)) ++ rest /\
    (forall done, snd (push_files_to_repo E repo_name files round h) = Val done ->
                  rest = []).
Proof.
  induction files as [|file files IH]; intros h.
  - exists []. split; [reflexivity | intros; reflexivity].
  - destruct (push_files_to_repo E repo_name (file :: files) round h)
      as [es r] eqn:Hrun.
    cbn [push_files_to_repo] in Hrun. unfold bind at 1 in Hrun.
    pose proof (push_file_written_any E repo_name round file h) as Hany.
    destruct (push_file E repo_name round file h) as [es1 [file'|e]] eqn:Hfile;
      cbn [fst snd map] in *.
    + pose proof (push_file_written _ _ _ _ _ _ _ Hfile) as Hone.
      unfold bind at 1 in Hrun.
      destruct (IH (h ++ es1)) as (rest & Hrest & Hdone).
      destruct (push_files_to_repo E repo_name files round (h ++ es1))
        as [es2 [done2|e]]; cbn [fst snd ret app] in *;
        injection Hrun as <- <-;
        rewrite ?app_nil_r, written_app, Hone, Hrest; cbn [app];
        exists rest; (split; [reflexivity|]).
      * intros done _. exact (Hdone done2 eq_refl).
      * intros done Habs. discriminate Habs.
    + injection Hrun as <- <-. destruct Hany as [Hnone | Hone].
      * rewrite Hnone. eexists. split; [reflexivity|].
        intros done Hdone. discriminate Hdone.
      * rewrite Hone. cbn [app]. eexists.
        split; [reflexivity|]. intros done Hdone. discriminate Hdone.
Qed.

Section Publishing.

Variable E : Env.
Variable before : History.

Lemma unguarded_run (v : History) (es : list Event) : guarded unguarded v es.
Proof.
  revert v. induction es as [|e es IH]; intros v; cbn [guarded]; [exact I|].
  split; [exact I | apply IH].
Qed.

Lemma observed_step {A} (m : M A) (gs : list Outcome) (ws : list (JSON * string)) :
  spec (calls beside_publishing) m anything ->
  triple before (fun v => generations v = gs /\ written v = ws) m unguarded
    (fun _ v => generations v = gs /\ written v = ws).
Proof.
  intros Hm v [Hg Hw]. destruct (Hm (before ++ v)) as [Hcalls _].
  destruct (beside_publishing_quiet _ Hcalls) as [Hg' Hw'].
  split; [apply unguarded_run|].
  rewrite generations_app, written_app, Hg, Hw, Hg', Hw', !app_nil_r. auto.
Qed.

Lemma nothing_published (v : History) :
  generations v = [] /\ written v = [] -> partly_published E v.
Proof. intros [Hg Hw]. unfold partly_published. rewrite Hg. exact Hw. Qed.

Lemma fully_partly (v : History) : fully_published E v -> partly_published E v.
Proof.
  intros (o & items & Hg & Hitems & Hw). unfold partly_published, published.
  rewrite Hg, Hitems, Hw. exists []. rewrite app_nil_r. reflexivity.
Qed.

Lemma partly_published_print (v : History) (l : Line) :
  partly_published E v -> partly_published E (v ++ [EvPrint l]).
Proof.
  unfold partly_published. rewrite generations_app, written_app, !app_nil_r.
  auto.
Qed.

Lemma fully_published_print (v : History) (l : Line) :
  fully_published E v -> fully_published E (v ++ [EvPrint l]).
Proof.
  unfold fully_published. rewrite generations_app, written_app, !app_nil_r.
  auto.
Qed.

Lemma generation_observed (entry : JSON -> Dict) (prompt : Prompt)
    (v : History) :
  generations v = [] /\ written v = [] ->
  let o := answer E (before ++ v) (ChatCompletion prompt) in
  let r := and_then (generated_items E o) (fun items =>
             if forallb is_object items
             then Val (map entry (filter recognised_item items))
             else Raise AttributeError) in
  match r with
  | Val files => generated E entry files (v ++ [EvHttp (ChatCompletion prompt) o])
  | Raise _ => partly_published E (v ++ [EvHttp (ChatCompletion prompt) o])
  end.
Proof.
  intros [Hg Hw] o r. subst r.
  assert (Hg' : generations (v ++ [EvHttp (ChatCompletion prompt) o]) = [o])
    by (rewrite generations_app, Hg; reflexivity).
  assert (Hw' : written (v ++ [EvHttp (ChatCompletion prompt) o]) = [])
    by (rewrite written_app, Hw; reflexivity).
  assert (Hpartly : partly_published E (v ++ [EvHttp (ChatCompletion prompt) o])).
  { unfold partly_published. rewrite Hg', Hw'. eexists. reflexivity. }
  destruct (generated_items E o) as [items|e] eqn:Hitems; [|exact Hpartly].
  cbn [and_then]. destruct (forallb is_object items); [|exact Hpartly].
  exists o, items. auto.
Qed.

Lemma write_code_with_llm_observed (brief checks attachments : JSON) :
  triple before (fun v => generations v = [] /\ written v = [])
    (write_code_with_llm E brief checks attachments) unguarded
    (fun r v => match r with
                | Val files => generated E write_entry files v
                | Raise _ => partly_published E v
                end).
Proof.
  intros v Hv. split; [apply unguarded_run|].
  destruct (write_code_with_llm_run E brief checks attachments (before ++ v))
    as [[e Hrun] | [prompt Hrun]]; cbv zeta in Hrun; rewrite Hrun;
    cbn [fst snd].
  - rewrite app_nil_r. apply nothing_published, Hv.
  - apply (generation_observed write_entry prompt v Hv).
Qed.

Lemma update_code_with_llm_observed (brief checks attachments repo_name : JSON)
    (existing_files : list ExistingFile) :
  triple before (fun v => generations v = [] /\ written v = [])
    (update_code_with_llm E brief checks attachments repo_name existing_files)
    unguarded
    (fun r v => match r with
                | Val files =>
                    generated E (update_entry (sha_map_of existing_files)) files v
                | Raise _ => partly_published E v
                end).
Proof.
  intros v Hv. split; [apply unguarded_run|].
  destruct (update_code_with_llm_run E brief checks attachments repo_name
              existing_files (before ++ v))
    as [[e Hrun] | [prompt Hrun]]; cbv zeta in Hrun; rewrite Hrun;
    cbn [fst snd].
  - rewrite app_nil_r. apply nothing_published, Hv.
  - apply (generation_observed (update_entry (sha_map_of existing_files))
             prompt v Hv).
Qed.

Lemma push_files_to_repo_observed (repo_name round : JSON) (files : list Dict)
    (o : Outcome) (items : list JSON) :
  generated_items E o = Val items ->
  map (to_write E) files = expected E items ->
  triple before (fun v => generations v = [o] /\ written v = [])
    (push_files_to_repo E repo_name files round) unguarded
    (published_on_return E).
Proof.
  intros Hitems Hfiles v [Hg Hw]. split; [apply unguarded_run|].
  destruct (push_files_to_repo_calls E (fun c => is_generation c = false)
              repo_name round files (fun _ => eq_refl)
              (fun _ _ _ => eq_refl) (before ++ v)) as [Hcalls _].
  assert (Hg' : generations
                  (fst (push_files_to_repo E repo_name files round (before ++ v)))
                = []).
  { induction Hcalls as [|e es He _ IH]; [reflexivity|].
    change (e :: es) with ([e] ++ es). rewrite generations_app, IH.
    destruct e as [c o'| |]; try reflexivity.
    destruct c; try discriminate He; reflexivity. }
  destruct (push_files_to_repo_written_prefix E repo_name round files
              (before ++ v)) as (rest & Hrest & Hdone).
  destruct (snd (push_files_to_repo E repo_name files round (before ++ v)))
    as [done|e]; cbn [published_on_return].
  - exists o, items. rewrite generations_app, written_app, Hg, Hw, Hg'.
    rewrite (Hdone done eq_refl), app_nil_r in Hrest.
    rewrite <- Hfiles, Hrest. auto.
  - unfold partly_published.
    rewrite generations_app, written_app, Hg, Hw, Hg'. cbn [app].
    unfold published. rewrite Hitems.
    exists rest. rewrite <- Hfiles. exact Hrest.
Qed.

Lemma fully_published_step {A} (m : M A) :
  spec (calls beside_publishing) m anything ->
  triple before (fully_published E) m unguarded (published_on_return E).
Proof.
  intros Hm v (o & items & Hg & Hitems & Hw).
  destruct (observed_step m [o] (expected E items) Hm v (conj Hg Hw))
    as [Hguarded [Hg' Hw']].
  split; [exact Hguarded|].
  assert (Hfully : fully_published E (v ++ fst (m (before ++ v))))
    by (exists o, items; auto).
  destruct (snd (m (before ++ v))); [exact Hfully | apply fully_partly, Hfully].
Qed.

Lemma failure_logged_published {A} (l : Line) (e : Exn) :
  triple before (@published_on_return A E (Raise e)) (print l ;;; raise e)
    unguarded (@published_on_return A E).
Proof.
  intros v Hv. cbn. split; [unfold unguarded; tauto|].
  apply partly_published_print, Hv.
Qed.

Lemma generated_partly (o : Outcome) (v : History) :
  generations v = [o] /\ written v = [] -> partly_published E v.
Proof.
  intros [Hg Hw]. unfold partly_published. rewrite Hg, Hw.
  eexists. reflexivity.
Qed.

Lemma report_published (data : Dict) (repo_name : JSON) :
  triple before (fully_published E)
    (commit <- get_sha_of_latest_commit E repo_name ;;
     payload <- evaluation_payload data repo_name commit ;;
     evaluation_url <- lift (item data "evaluation_url") ;;
     ping_evaluation_server E evaluation_url payload 3 ;;;
     ret (repo_url payload))
    unguarded (published_on_return E).
Proof.
  apply fully_published_step, report_calls;
    [split; reflexivity | intros; split; reflexivity].
Qed.

Lemma creation_published (data : Dict) (repo_name : JSON) (o : Outcome)
    (items : list JSON) :
  generated_items E o = Val items ->
  triple before (fun v => generations v = [o] /\ written v = [])
    (create_github_repo E repo_name ;;;
     push_files_to_repo E repo_name
       (map write_entry (filter recognised_item items)) (JNum 1) ;;;
     enable_github_pages E repo_name ;;;
     commit <- get_sha_of_latest_commit E repo_name ;;
     payload <- evaluation_payload data repo_name commit ;;
     evaluation_url <- lift (item data "evaluation_url") ;;
     ping_evaluation_server E evaluation_url payload 3 ;;;
     ret (repo_url payload))
    unguarded (published_on_return E).
Proof.
  intros Hitems.
  eapply triple_bind
    with (Q := fun _ v => generations v = [o] /\ written v = []);
    [ apply observed_step, create_github_repo_calls; split; reflexivity
    | intros ?
    | intros e v Hv; exact (generated_partly o v Hv) ].
  eapply triple_bind with (Q := published_on_return E);
    [ apply (push_files_to_repo_observed _ _ _ o items Hitems),
        created_expected
    | intros ?
    | intros e v Hv; exact Hv ].
  eapply triple_bind with (Q := published_on_return E);
    [ apply fully_published_step, enable_github_pages_calls; split; reflexivity
    | intros ?
    | intros e v Hv; exact Hv ].
  apply report_published.
Qed.

Lemma revision_published (data : Dict) (repo_name round : JSON)
    (existing : list ExistingFile) (o : Outcome) (items : list JSON) :
  generated_items E o = Val items ->
  triple before (fun v => generations v = [o] /\ written v = [])
    (push_files_to_repo E repo_name
       (map (ensure_sha existing)
            (map (update_entry (sha_map_of existing))
                 (filter recognised_item items))) round ;;;
     commit <- get_sha_of_latest_commit E repo_name ;;
     payload <- evaluation_payload data repo_name commit ;;
     evaluation_url <- lift (item data "evaluation_url") ;;
     ping_evaluation_server E evaluation_url payload 3 ;;;
     ret (repo_url payload))
    unguarded (published_on_return E).
Proof.
  intros Hitems.
  eapply triple_bind with (Q := published_on_return E);
    [ apply (push_files_to_repo_observed _ _ _ o items Hitems),
        revised_expected
    | intros ?
    | intros e v Hv; exact Hv ].
  apply report_published.
Qed.

Ltac unpublished_by proof :=
  eapply triple_bind
    with (Q := fun _ v => generations v = [] /\ written v = []);
  [ apply observed_step; proof
  | intros ?
  | intros ? ? Hv; exact (nothing_published _ Hv) ].

Lemma build_initial_application_published (data : Dict) :
  triple before (fun v => generations v = [] /\ written v = [])
    (build_initial_application E data) unguarded (published_on_return E).
Proof.
  unfold build_initial_application.
  eapply triple_try_except with (Q := published_on_return E);
    [|auto|intros e; apply failure_logged_published].
  unpublished_by ltac:(repeat spec_step).
  unpublished_by ltac:(repeat spec_step).
  eapply triple_bind;
    [ apply write_code_with_llm_observed
    | intros files
    | intros e v Hv; exact Hv ].
  intros v (o & items & Hg & Hitems & Hw & ->).
  exact (creation_published data _ o items Hitems v (conj Hg Hw)).
Qed.

Lemma revise_existing_application_published (data : Dict) :
  triple before (fun v => generations v = [] /\ written v = [])
    (revise_existing_application E data) unguarded (published_on_return E).
Proof.
  unfold revise_existing_application.
  eapply triple_try_except with (Q := published_on_return E);
    [|auto|intros e; apply failure_logged_published].
  unpublished_by ltac:(repeat spec_step).
  unpublished_by ltac:(apply fetch_existing_calls; intros; split; reflexivity).
  unpublished_by ltac:(repeat spec_step).
  eapply triple_bind;
    [ apply update_code_with_llm_observed
    | intros files
    | intros e v Hv; exact Hv ].
  cbv zeta. intros v (o & items & Hg & Hitems & Hw & ->).
  exact (revision_published data _ _ _ o items Hitems v (conj Hg Hw)).
Qed.

Lemma process_task_background_published (data : Dict) :
  triple before (fun v => generations v = [] /\ written v = [])
    (process_task_background E data) unguarded
    (fun _ v =>
       partly_published E v /\
       forall pre line,
         v = pre ++ [EvPrint line] ->
         line = UpdateCompleted \/ line = InitialCreationCompleted ->
         fully_published E v).
Proof.
  unfold process_task_background. cbv zeta.
  eapply triple_try_except with (Q := published_on_return E).
  - unpublished_by ltac:(repeat spec_step).
    unpublished_by ltac:(apply repository_exists_calls; split; reflexivity).
    unpublished_by
      ltac:(repeat first [ apply check_repo_has_required_files_calls;
                           intros; split; reflexivity
                         | spec_step ]).
    match goal with |- triple _ _ (if ?b then _ else _) _ _ => destruct b end.
    + unpublished_by ltac:(repeat spec_step).
      eapply triple_bind with (Q := published_on_return E);
        [ apply revise_existing_application_published
        | intros ?
        | intros e v Hv; exact Hv ].
      apply fully_published_step. repeat spec_step.
    + unpublished_by ltac:(repeat spec_step).
      eapply triple_bind with (Q := published_on_return E);
        [ apply build_initial_application_published
        | intros ?
        | intros e v Hv; exact Hv ].
      apply fully_published_step. repeat spec_step.
  - intros done v Hv. split; [apply fully_partly, Hv | intros; exact Hv].
  - intros e v Hv. cbn. split; [unfold unguarded; tauto|].
    split; [apply partly_published_print, Hv|].
    intros pre line Hlast Hline.
    apply app_inj_tail in Hlast as [_ Hlast]. inversion Hlast; subst.
    destruct Hline; discriminate.
Qed.

End Publishing.

(** * Further properties *)

(** ** Time and attempts of the notifier *)

Lemma slept_app (es es' : list Event) : slept (es ++ es') = slept es + slept es'.
Proof.
  induction es as [|e es IH]; [reflexivity|].
  destruct e; cbn [app slept]; rewrite IH; lia.
Qed.

Lemma posts_app (es es' : list Event) : posts (es ++ es') = (posts es + posts es')%nat.
Proof.
  induction es as [|e es IH]; [reflexivity|].
  destruct e as [c o| |]; cbn [app posts]; try exact IH.
  destruct c; cbn [posts]; rewrite ?IH; reflexivity.
Qed.

Lemma failed_attempts_cost (evaluation_url : JSON) (payload : EvaluationPayload)
    (failures : list Outcome) :
  forall i,
    posts (failed_attempts evaluation_url payload i failures)
      = List.length failures /\
    slept (failed_attempts evaluation_url payload i failures)
      = 2 ^ Z.of_nat (i + List.length failures) - 2 ^ Z.of_nat i.
Proof.
  induction failures as [|o failures IH]; intros i;
    cbn [failed_attempts posts slept List.length].
  - rewrite Nat.add_0_r. split; [reflexivity | lia].
  - destruct (IH (S i)) as [Hposts Hslept]. rewrite Hposts, Hslept.
    split; [reflexivity|].
    replace (i + S (List.length failures))%nat
      with (S i + List.length failures)%nat by lia.
    replace (Z.of_nat (S i)) with (Z.succ (Z.of_nat i)) by lia.
    rewrite Z.pow_succ_r by lia. lia.
Qed.

(** X1: [ping_evaluation_server] posts at most [max_retries] times.  When it
    gives up it has posted exactly that often and slept [2 ^ max_retries - 1]
    seconds in all, the wait after the last failed attempt included; when an
    attempt is delivered it has slept [2 ^ (posts - 1) - 1] seconds.  With
    [max_retries] zero or negative nothing is posted and the answer is
    [False]. *)
Theorem ping_evaluation_server_cost :
  forall (E : Env) (evaluation_url : JSON) (payload : EvaluationPayload)
         (max_retries : Z) (h : History),
    let run := ping_evaluation_server E evaluation_url payload max_retries h in
    let n := Z.to_nat max_retries in
    (posts (fst run) <= n)%nat /\
    match snd run with
    | Val false =>
        posts (fst run) = n /\ slept (fst run) = 2 ^ Z.of_nat n - 1
    | Val true =>
        (1 <= posts (fst run))%nat /\
        slept (fst run) = 2 ^ Z.of_nat (posts (fst run) - 1) - 1
    | Raise _ => False
    end.
Proof.
  intros E evaluation_url payload max_retries h run n. subst run.
  unfold ping_evaluation_server. fold n.
  destruct (ping_attempts_run E evaluation_url payload n 0 h)
    as (failures & final & _ & Hfinal).
  destruct (failed_attempts_cost evaluation_url payload failures 0%nat)
    as [Hposts Hslept].
  cbn [Nat.add] in Hslept.
  destruct final as [o|].
  - destruct Hfinal as (_ & Hlen & ->). cbn [fst snd].
    rewrite posts_app, slept_app, Hposts, Hslept. cbn [posts slept].
    split; [lia|]. split; [lia|].
    replace (List.length failures + 1 - 1)%nat with (List.length failures) by lia.
    cbn. lia.
  - destruct Hfinal as (Hlen & ->). cbn [fst snd].
    rewrite Hposts, Hslept, Hlen. split; [lia|]. split; [reflexivity|].
    cbn. lia.
Qed.

(** ** Validation of a request *)

Lemma find_first {A} (f : A -> bool) (l : list A) (x : A) :
  find f l = Some x ->
  exists l1 l2,
    l = l1 ++ x :: l2 /\ f x = true /\ forall y, In y l1 -> f y = false.
Proof.
  induction l as [|a l IH]; cbn [find]; [discriminate|].
  destruct (f a) eqn:Ha.
  - intros H. inversion H; subst. exists [], l. repeat split; [exact Ha|].
    intros y [].
  - intros H. destruct (IH H) as (l1 & l2 & -> & Hx & Hl1).
    exists (a :: l1), l2. repeat split; [exact Hx|].
    intros y [<- | Hy]; [exact Ha | apply Hl1, Hy].
Qed.

(** X2: the field that a 400 reply names is the first one missing in the
    order [email], [task], [brief], [evaluation_url]: every required field
    before it is present, and the secret was accepted. *)
Theorem handle_task_names_first_missing :
  forall (E : Env) (data : Dict) (missing : string) (queued : list Dict),
    handle_task E data = (HTTPException 400 (Some missing), queued) ->
    queued = [] /\
    get_or data "secret" (JStr "") = configured_secret E /\
    dict_mem data missing = false /\
    exists earlier later,
      required_fields = earlier ++ missing :: later /\
      forall field, In field earlier -> dict_mem data field = true.
Proof.
  intros E data missing queued. unfold handle_task.
  destruct (validate_secret E (get_or data "secret" (JStr ""))) eqn:Hsecret;
    cbn [negb]; [|discriminate].
  apply validate_secret_true in Hsecret.
  destruct (find _ required_fields) as [field|] eqn:Hfind; [|discriminate].
  intros H. inversion H; subst. clear H.
  destruct (find_first _ _ _ Hfind) as (earlier & later & Hsplit & Hmiss & Hearlier).
  split; [reflexivity|]. split; [exact Hsecret|].
  split; [apply negb_true_iff, Hmiss|].
  exists earlier, later. split; [exact Hsplit|].
  intros field Hin. apply negb_false_iff, Hearlier, Hin.
Qed.

Lemma handle_task_names_first_missing_witness :
  [] = @nil Dict /\
  get_or request_without_brief "secret" (JStr "") = configured_secret fresh /\
  dict_mem request_without_brief "brief" = false /\
  exists earlier later,
    required_fields = earlier ++ "brief"%string :: later /\
    forall field, In field earlier -> dict_mem request_without_brief field = true.
Proof.
  apply (handle_task_names_first_missing fresh request_without_brief
           "brief"%string []).
  reflexivity.
Defined.

(** X3: a request that has no [secret] key is checked with the empty string
    in its place: it is refused with 401 unless the configured secret is the
    empty string; and a [secret] of [null] is accepted exactly when no secret
    is configured at all. *)
Theorem handle_task_without_secret :
  forall (E : Env) (data : Dict),
    (dict_get data "secret" = None ->
       (fst (handle_task E data) = HTTPException 401 None
        <-> SECRET E <> Some ""%string)) /\
    (dict_get data "secret" = Some JNull ->
       (fst (handle_task E data) = HTTPException 401 None
        <-> SECRET E <> None)).
Proof.
  intros E data. unfold handle_task, get_or, validate_secret.
  split; intros ->; destruct (SECRET E) as [s|]; cbn [negb fst].
  - destruct (String.eqb "" s) eqn:Hs; cbn [negb fst].
    + apply String.eqb_eq in Hs. subst s.
      split; [|intros H; destruct (H eq_refl)].
      destruct (find _ required_fields); discriminate.
    + split; [|reflexivity]. intros _ H. inversion H; subst.
      discriminate Hs.
  - split; [discriminate | reflexivity].
  - split; [discriminate | reflexivity].
  - split; [|intros H; destruct (H eq_refl)].
    destruct (find _ required_fields); discriminate.
Qed.

Lemma handle_task_without_secret_witness :
  fst (handle_task fresh request_without_secret) = HTTPException 401 None
  <-> SECRET fresh <> Some ""%string.
Proof.
  apply (proj1 (handle_task_without_secret fresh request_without_secret)).
  reflexivity.
Defined.

(** ** The order of the calls *)

Lemma tracked_ret {A} (a : A) : tracked (ret a).
Proof. intros before. apply triple_ret. intros v Hv. exact Hv. Qed.

Lemma tracked_raise {A} (e : Exn) : tracked (@raise A e).
Proof. intros before. apply triple_raise. intros v [_ Hv]. exact Hv. Qed.

Lemma tracked_lift {A} (r : Res A) : tracked (lift r).
Proof.
  intros before. apply triple_lift. intros v Hv.
  destruct r; [exact Hv | exact (proj2 Hv)].
Qed.

Lemma tracked_print (l : Line) : tracked (print l).
Proof.
  intros before v [Hok Hposts]. cbn. unfold in_order, on_track. cbn.
  rewrite forallb_app, posts_app, Hok, Hposts. auto.
Qed.

Lemma tracked_guard (ok : bool) (e : Exn) : tracked (guard ok e).
Proof. destruct ok; [apply tracked_ret | apply tracked_raise]. Qed.

Lemma tracked_bind {A B} (m : M A) (f : A -> M B) :
  tracked m -> (forall a, tracked (f a)) -> tracked (bind m f).
Proof.
  intros Hm Hf before.
  apply triple_bind with (Q := kept_on_track);
    [apply Hm | intros a; apply Hf | intros e v Hv; exact Hv].
Qed.

(** A call that is not the notification, followed by what is made of its
    answer: a raised call and a refused status end the computation. *)
Lemma tracked_request {A} (E : Env) (c : Call) (f : Response -> M A) :
  is_notification c = false ->
  (forall r, accepted c (status_code r) = true -> tracked (f r)) ->
  (forall r h, accepted c (status_code r) = false ->
               exists e, f r h = ([], Raise e)) ->
  tracked (bind (request E c) f).
Proof.
  intros Hc Haccepted Hrefused before v [Hok Hposts].
  assert (Hone : forall o, posts [EvHttp c o] = 0%nat)
    by (intros o; destruct c; try discriminate Hc; reflexivity).
  assert (Hstatus : forall r, succeeded (EvHttp c (Returns r))
                              = accepted c (status_code r))
    by (intros r; destruct c; try discriminate Hc; reflexivity).
  assert (Hhere : forall o, in_order v (EvHttp c o)).
  { intros o. split; [exact Hok|].
    destruct c; try discriminate Hc; exact Hposts. }
  destruct (bind _ _ (before ++ v)) as [es res] eqn:Hrun. cbn [fst snd].
  unfold bind, request in Hrun.
  destruct (remote E (outside_view (before ++ v)) c) as [r|x].
  - destruct (accepted c (status_code r)) eqn:Hacc.
    + assert (Hnext : on_track (v ++ [EvHttp c (Returns r)])).
      { split; [rewrite forallb_app, Hok; cbn [forallb]; rewrite Hstatus, Hacc;
                reflexivity
               | rewrite posts_app, Hposts, Hone; reflexivity]. }
      destruct (Haccepted r Hacc before _ Hnext) as [Hguarded Hkept].
      rewrite app_assoc in Hguarded, Hkept.
      destruct (f r ((before ++ v) ++ [EvHttp c (Returns r)])) as [es' res'].
      cbn [fst snd] in Hguarded, Hkept. injection Hrun as <- <-.
      cbn [app guarded]. rewrite <- app_assoc in Hkept. cbn [app] in Hkept.
      split; [split; [apply Hhere | exact Hguarded] | exact Hkept].
    + destruct (Hrefused r ((before ++ v) ++ [EvHttp c (Returns r)]) Hacc)
        as [e He].
      rewrite He in Hrun. injection Hrun as <- <-.
      cbn [app guarded kept_on_track].
      rewrite posts_app, Hposts, Hone. auto using Hhere.
  - injection Hrun as <- <-. cbn [app guarded kept_on_track].
    rewrite posts_app, Hposts, Hone. auto using Hhere.
Qed.

Create HintDb tracked.
#[export] Hint Resolve tracked_ret tracked_raise tracked_lift tracked_print
  tracked_guard : tracked.

(** Splits a computation into its steps, each closed by a fact in the
    database or split further. *)
Ltac tracked_steps :=
  repeat first
    [ solve [auto with tracked]
    | match goal with
      | |- tracked (if ?b then _ else _) => destruct b
      | |- tracked (match ?x with _ => _ end) => destruct x
      | |- tracked (bind _ _) => apply tracked_bind; [|intros ?]
      end ].

(** A call whose status is checked by a guard right after it. *)
Ltac tracked_call :=
  apply tracked_request;
  [ reflexivity
  | intros ? Haccepted; cbn [accepted] in Haccepted
  | intros ? ? Hrefused; cbn [accepted] in Hrefused;
    unfold bind, guard; try rewrite Hrefused; try discriminate Hrefused;
    eexists; reflexivity ].

Section Tracked.

Variable E : Env.

Lemma response_json_tracked (response : Response) :
  tracked (response_json response).
Proof. unfold response_json. tracked_steps. Qed.

Lemma repository_exists_tracked (repo_name : JSON) :
  tracked (repository_exists E repo_name).
Proof. unfold repository_exists. tracked_call. tracked_steps. Qed.

Lemma get_file_content_from_repo_tracked (repo_name file_path : JSON) :
  tracked (get_file_content_from_repo E repo_name file_path).
Proof. unfold get_file_content_from_repo. tracked_call. tracked_steps. Qed.

Lemma create_github_repo_tracked (repo_name : JSON) :
  tracked (create_github_repo E repo_name).
Proof.
  pose proof response_json_tracked.
  unfold create_github_repo. tracked_call. tracked_steps.
Qed.

Lemma enable_github_pages_tracked (repo_name : JSON) :
  tracked (enable_github_pages E repo_name).
Proof. unfold enable_github_pages. tracked_call. tracked_steps. Qed.

Lemma get_sha_of_latest_commit_tracked (repo_name : JSON) :
  tracked (get_sha_of_latest_commit E repo_name).
Proof.
  pose proof response_json_tracked.
  unfold get_sha_of_latest_commit. tracked_call. tracked_steps.
Qed.

Lemma call_llm_tracked (prompt : Prompt) : tracked (call_llm E prompt).
Proof.
  pose proof response_json_tracked.
  unfold call_llm. tracked_call. tracked_steps.
Qed.

Lemma print_short_tracked (v : JSON) : tracked (print_short v).
Proof. unfold print_short. tracked_steps. Qed.

Lemma payload_content_tracked (file_content : JSON) :
  tracked (payload_content E file_content).
Proof. unfold payload_content. tracked_steps. Qed.

Lemma loads_tracked (llm_response : JSON) : tracked (loads E llm_response).
Proof. unfold loads. tracked_steps. Qed.

Lemma refresh_sha_tracked (repo_name file_name file_sha file_action : JSON) :
  tracked (refresh_sha E repo_name file_name file_sha file_action).
Proof.
  pose proof get_file_content_from_repo_tracked.
  unfold refresh_sha. tracked_steps.
Qed.

Lemma check_files_tracked (repo_name : JSON) (paths : list string) :
  tracked (check_files E repo_name paths).
Proof.
  pose proof get_file_content_from_repo_tracked.
  induction paths as [|file_path rest IH]; cbn [check_files]; tracked_steps.
Qed.

Lemma fetch_existing_tracked (repo_name : JSON) (names : list string) :
  tracked (fetch_existing E repo_name names).
Proof.
  pose proof get_file_content_from_repo_tracked. pose proof print_short_tracked.
  induction names as [|file_name rest IH]; cbn [fetch_existing]; tracked_steps.
Qed.

Lemma attachment_context_tracked (attachments : list JSON) :
  tracked (attachment_context E attachments).
Proof.
  induction attachments as [|attachment rest IH]; cbn [attachment_context];
    tracked_steps.
Qed.

Lemma write_filtered_tracked (files : list JSON) : tracked (write_filtered files).
Proof.
  induction files as [|item rest IH]; cbn [write_filtered]; tracked_steps.
Qed.

Lemma update_filtered_tracked (sha_map : Dict) (files : list JSON) :
  tracked (update_filtered sha_map files).
Proof.
  induction files as [|item rest IH]; cbn [update_filtered]; tracked_steps.
Qed.

Lemma evaluation_payload_tracked (data : Dict) (repo_name commit : JSON) :
  tracked (evaluation_payload data repo_name commit).
Proof. unfold evaluation_payload. tracked_steps. Qed.

Lemma write_code_with_llm_tracked (brief checks attachments : JSON) :
  tracked (write_code_with_llm E brief checks attachments).
Proof.
  pose proof attachment_context_tracked. pose proof loads_tracked.
  pose proof write_filtered_tracked. pose proof call_llm_tracked.
  unfold write_code_with_llm. tracked_steps.
Qed.

Lemma update_code_with_llm_tracked (brief checks attachments repo_name : JSON)
    (existing_files : list ExistingFile) :
  tracked (update_code_with_llm E brief checks attachments repo_name
             existing_files).
Proof.
  pose proof attachment_context_tracked. pose proof loads_tracked.
  pose proof update_filtered_tracked. pose proof call_llm_tracked.
  unfold update_code_with_llm. tracked_steps.
Qed.

Lemma push_file_tracked (repo_name round : JSON) (file : Dict) :
  tracked (push_file E repo_name round file).
Proof.
  pose proof print_short_tracked. pose proof refresh_sha_tracked.
  pose proof payload_content_tracked. pose proof response_json_tracked.
  unfold push_file. cbv zeta.
  apply tracked_bind; [auto|intros _].
  apply tracked_bind; [auto|intros [file_sha file_action]].
  apply tracked_bind; [auto|intros encoded].
  tracked_call. tracked_steps.
Qed.

Lemma push_files_to_repo_tracked (repo_name : JSON) (files : list Dict)
    (round : JSON) :
  tracked (push_files_to_repo E repo_name files round).
Proof.
  pose proof push_file_tracked.
  induction files as [|file rest IH]; cbn [push_files_to_repo]; tracked_steps.
Qed.

End Tracked.

(** A step that posts nothing, inside a workflow. *)
Ltac track_step lemma :=
  eapply triple_bind with (Q := kept_on_track);
  [ apply lemma
  | intros ?
  | intros ? ? Hposts; exact Hposts ].

Section Tracking.

Variable E : Env.
Variable before : History.

Lemma ping_attempts_tracked (evaluation_url : JSON)
    (payload : EvaluationPayload) (attempts : list nat) :
  forall n : nat,
    triple before (fun v => forallb succeeded v = true /\ posts v = n)
      (ping_attempts E evaluation_url payload attempts)
      in_order
      (fun r v => (exists delivered, r = Val delivered) /\
                  (n + Nat.min 1 (List.length attempts) <= posts v
                   <= n + List.length attempts)%nat).
Proof.
  induction attempts as [|attempt rest IH]; intros n v [Hv Hn];
    unfold triple in *.
  - cbn. rewrite app_nil_r. split; [exact I|].
    split; [exists false; reflexivity | lia].
  - destruct (ping_attempts _ _ _ _ _) as [es res] eqn:Hrun. cbn [fst snd].
    cbn [ping_attempts] in Hrun.
    unfold bind at 1, try_except, bind at 1, request, ret in Hrun.
    assert (Hnext : forall o,
               forallb succeeded
                 (v ++ [EvHttp (PostEvaluation evaluation_url payload) o;
                        EvSleep (2 ^ Z.of_nat attempt)]) = true /\
               posts (v ++ [EvHttp (PostEvaluation evaluation_url payload) o;
                            EvSleep (2 ^ Z.of_nat attempt)]) = S n).
    { intros o. rewrite forallb_app, posts_app, Hv, Hn. cbn. split; [reflexivity | lia]. }
    assert (Hfailed : forall o,
               (let (es', r0) :=
                  (let (es', r) :=
                     ping_attempts E evaluation_url payload rest
                       (before ++ v ++
                        [EvHttp (PostEvaluation evaluation_url payload) o;
                         EvSleep (2 ^ Z.of_nat attempt)]) in
                   (EvSleep (2 ^ Z.of_nat attempt) :: es', r)) in
                (EvHttp (PostEvaluation evaluation_url payload) o :: es', r0))
               = (es, res) ->
               guarded in_order v es /\
               (exists delivered, res = Val delivered) /\
               (n + Nat.min 1 (List.length (attempt :: rest)) <= posts (v ++ es)
                <= n + List.length (attempt :: rest))%nat).
    { intros o Hrest. specialize (IH (S n) _ (Hnext o)).
      destruct (ping_attempts _ _ _ _ _) as [es' res'].
      cbn [fst snd] in IH. injection Hrest as <- <-.
      rewrite <- app_assoc in IH. cbn [app] in IH.
      cbn [guarded app List.length]. unfold in_order at 1 2.
      unfold called_after_success, notification_is_last.
      rewrite <- app_assoc. cbn [app].
      destruct IH as [Hg [Hd Hb]]. repeat split; try tauto; lia. }
    destruct (remote E (outside_view (before ++ v))
                (PostEvaluation evaluation_url payload)) as [r|x].
    + destruct (delivered_status (status_code r)).
      * injection Hrun as <- <-. cbn [guarded app].
        unfold in_order, called_after_success, notification_is_last.
        rewrite posts_app, Hn. cbn [posts List.length].
        split; [auto|]. split; [exists true; reflexivity | lia].
      * unfold bind, sleep in Hrun. cbn [app] in Hrun.
        repeat rewrite <- app_assoc in Hrun. cbn [app] in Hrun.
        exact (Hfailed _ Hrun).
    + unfold bind, sleep in Hrun. cbn [app] in Hrun.
      repeat rewrite <- app_assoc in Hrun. cbn [app] in Hrun.
      exact (Hfailed _ Hrun).
Qed.

Lemma report_tracked (data : Dict) (repo_name commit : JSON) :
  triple before on_track
    (payload <- evaluation_payload data repo_name commit ;;
     evaluation_url <- lift (item data "evaluation_url") ;;
     ping_evaluation_server E evaluation_url payload 3 ;;;
     ret (repo_url payload))
    in_order notified_on_return.
Proof.
  track_step evaluation_payload_tracked.
  track_step (@tracked_lift JSON).
  eapply triple_bind
    with (Q := fun r v => (exists delivered : bool, r = Val delivered) /\ notified v).
  - eapply triple_conseq;
      [apply (ping_attempts_tracked _ _ (seq 0 (Z.to_nat 3)) 0)
      | intros v Hv; exact Hv
      | intros r v [Hr Hb]; split; [exact Hr | exact Hb] ].
  - intros delivered. apply triple_ret. intros v [_ Hb]. exact Hb.
  - intros e v [[delivered Habs] _]. discriminate Habs.
Qed.

Lemma failure_logged_tracked {A} (l : Line) (e : Exn) :
  triple before (@notified_on_return A (Raise e))
    (print l ;;; raise e) in_order
    (@notified_on_return A).
Proof.
  intros v Hv. cbn. unfold in_order. cbn. split; [tauto|].
  rewrite posts_app, Hv. reflexivity.
Qed.

Lemma build_initial_application_tracked (data : Dict) :
  triple before on_track (build_initial_application E data)
    in_order notified_on_return.
Proof.
  unfold build_initial_application.
  eapply triple_try_except with (Q := notified_on_return);
    [|auto|intros e; apply failure_logged_tracked].
  track_step (@tracked_lift JSON).
  track_step (@tracked_lift JSON).
  track_step write_code_with_llm_tracked.
  track_step create_github_repo_tracked.
  track_step push_files_to_repo_tracked.
  track_step enable_github_pages_tracked.
  track_step get_sha_of_latest_commit_tracked.
  apply report_tracked.
Qed.

Lemma revise_existing_application_tracked (data : Dict) :
  triple before on_track (revise_existing_application E data)
    in_order notified_on_return.
Proof.
  unfold revise_existing_application.
  eapply triple_try_except with (Q := notified_on_return);
    [|auto|intros e; apply failure_logged_tracked].
  track_step (@tracked_lift JSON).
  track_step fetch_existing_tracked.
  track_step (@tracked_lift JSON).
  track_step update_code_with_llm_tracked.
  track_step push_files_to_repo_tracked.
  track_step get_sha_of_latest_commit_tracked.
  apply report_tracked.
Qed.

Lemma completed_tracked (l : Line) :
  closing_line l = (fun v => notified v) ->
  triple before notified (print l) in_order
    (fun r v => match r with
                | Val _ => closed v
                | Raise _ => posts v = 0%nat
                end).
Proof.
  intros Hl v Hv. cbn. unfold in_order. cbn. split; [tauto|].
  exists v, l. split; [reflexivity|]. rewrite Hl.
  unfold notified in *. rewrite posts_app. cbn. lia.
Qed.

Lemma repository_state_tracked (data : Dict) (repo_exists : bool) :
  tracked (if repo_exists then
           print RepositoryExists ;;;
           has <- check_repo_has_required_files E (get data "task") ;;
           print (if has then HasRequiredFiles else MissingRequiredFiles) ;;;
           ret has
         else print RepositoryDoesNotExist ;;; ret false).
Proof.
  pose proof check_files_tracked. unfold check_repo_has_required_files.
  tracked_steps.
Qed.

Lemma process_task_background_tracked (data : Dict) :
  triple before on_track (process_task_background E data)
    in_order (fun _ v => closed v).
Proof.
  unfold process_task_background. cbv zeta.
  eapply triple_try_except
    with (Q := fun r v => match r with
                          | Val _ => closed v
                          | Raise _ => posts v = 0%nat
                          end); [|auto|].
  - track_step tracked_print.
    track_step repository_exists_tracked.
    track_step repository_state_tracked.
    match goal with |- triple _ _ (if ?b then _ else _) _ _ => destruct b end.
    + track_step tracked_print.
      eapply triple_bind with (Q := notified_on_return);
        [apply revise_existing_application_tracked
        | intros ?; apply completed_tracked; reflexivity
        | intros ? ? Hposts; exact Hposts ].
    + track_step tracked_print.
      eapply triple_bind with (Q := notified_on_return);
        [apply build_initial_application_tracked
        | intros ?; apply completed_tracked; reflexivity
        | intros ? ? Hposts; exact Hposts ].
  - intros e v Hv. cbn. unfold in_order. cbn. split; [tauto|].
    exists v, (BackgroundFailed e). split; [reflexivity|].
    cbn [closing_line]. rewrite posts_app, Hv. reflexivity.
Qed.

End Tracking.

(** X4: in every run of [process_task_background], a call is made only when
    every call made before it in the run succeeded: it was answered, and
    with a status that its caller accepts (generation 200, repository
    creation 201, file write 200 or 201, Pages 201 or 202, commit query 200,
    any status for the queries of the repository and of a file).  So the
    first call that fails is the last call of the run: nothing is retried or
    undone, and the evaluation callback is not told.  Only the posts to the
    callback are exempt, which may fail and be repeated. *)
Theorem calls_only_after_success :
  forall (E : Env) (data : Dict) (h : History) (pre post : list Event)
         (c : Call) (o : Outcome),
    fst (process_task_background E data h) = pre ++ EvHttp c o :: post ->
    forallb succeeded pre = true.
Proof.
  intros E data h pre post c o Hrun.
  destruct (process_task_background_tracked E h data [] (conj eq_refl eq_refl))
    as [Hguarded _].
  rewrite app_nil_r, Hrun in Hguarded.
  exact (proj1 (guarded_at _ _ _ _ _ Hguarded)).
Qed.

(** X5: every run of [process_task_background] ends with one of three
    lines.  After [Background task failed] nothing was posted to the
    evaluation callback; after either completion line one to three posts
    were made. *)
Theorem process_task_background_closing_line :
  forall (E : Env) (data : Dict) (h : History),
  exists (pre : list Event) (closing : Line),
    fst (process_task_background E data h) = pre ++ [EvPrint closing] /\
    match closing with
    | BackgroundFailed _ =>
        posts (fst (process_task_background E data h)) = 0%nat
    | UpdateCompleted | InitialCreationCompleted =>
        (1 <= posts (fst (process_task_background E data h)) <= 3)%nat
    | _ => False
    end.
Proof.
  intros E data h.
  destruct (process_task_background_tracked E h data [] (conj eq_refl eq_refl))
    as [_ (pre & closing & Hrun & Hclosing)].
  rewrite app_nil_r in Hrun, Hclosing. cbn [app] in Hrun, Hclosing.
  exists pre, closing. split; [exact Hrun|].
  destruct closing; exact Hclosing.
Qed.

(** X6: in every run of [process_task_background], once the evaluation
    callback has been posted to, no other call is made: every later call is
    another post to the callback.  Nothing is written or read after the
    notification. *)
Theorem notification_is_the_last_step :
  forall (E : Env) (data : Dict) (h : History) (pre post : list Event)
         (c : Call) (o : Outcome),
    fst (process_task_background E data h) = pre ++ EvHttp c o :: post ->
    is_notification c = false ->
    posts pre = 0%nat.
Proof.
  intros E data h pre post c o Hrun Hc.
  destruct (process_task_background_tracked E h data [] (conj eq_refl eq_refl))
    as [Hguarded _].
  rewrite app_nil_r, Hrun in Hguarded.
  pose proof (proj2 (guarded_at _ _ _ _ _ Hguarded)) as Hlast.
  destruct c; try discriminate Hc; exact Hlast.
Qed.

Lemma calls_only_after_success_witness :
  forallb succeeded
    (firstn 10 (fst (process_task_background fresh full_request []))) = true.
Proof.
  apply (calls_only_after_success fresh full_request []
           (firstn 10 (fst (process_task_background fresh full_request [])))
           (skipn 11 (fst (process_task_background fresh full_request [])))
           (PostEvaluation (JStr "https://eval.example.org/notify")
           {| email := JStr "dev@example.org"; task := JStr "site";
              round := JNum 2; nonce := JStr "n-1"; repo_url := JStr "site";
              commit_sha := JStr "c0ffee"; pages_url := JStr "site" |})
           (Returns {| status_code := 200; json := Some (JObj []) |})).
  reflexivity.
Defined.

Lemma notification_is_the_last_step_witness :
  posts (firstn 9 (fst (process_task_background fresh full_request []))) = 0%nat.
Proof.
  apply (notification_is_the_last_step fresh full_request []
           (firstn 9 (fst (process_task_background fresh full_request [])))
           (skipn 10 (fst (process_task_background fresh full_request [])))
           (GetCommit (JStr "site") "main")
           (Returns {| status_code := 200;
                       json := Some (JObj [("sha"%string, JStr "c0ffee")]) |}));
    reflexivity.
Defined.
(** ** Which calls a run makes *)

Lemma item_get (d : Dict) (k : string) (v : JSON) :
  item d k = Val v -> dict_get d k = Some v /\ v = get d k.
Proof.
  unfold item, get, get_or. destruct (dict_get d k); intros H; inversion H.
  split; reflexivity.
Qed.

Section Addressing.

Variable E : Env.
Variable P : Call -> Prop.
Variable data : Dict.

Hypothesis notifies :
  forall evaluation_url payload,
    told data evaluation_url payload -> P (PostEvaluation evaluation_url payload).
Hypothesis generates : forall prompt, P (ChatCompletion prompt).
Hypothesis asks_commit : P (GetCommit (get data "task") "main").

Lemma evaluation_payload_told (commit : JSON) :
  spec (calls P) (evaluation_payload data (get data "task") commit)
    (returning (fun payload =>
       forall evaluation_url,
         dict_get data "evaluation_url" = Some evaluation_url ->
         told data evaluation_url payload)).
Proof.
  intros h. unfold evaluation_payload, bind, lift, ret, item, returning, told,
    get, get_or.
  destruct (dict_get data "email"); [|split; [constructor | discriminate]].
  destruct (dict_get data "task"); [|split; [constructor | discriminate]].
  destruct (dict_get data "round"); [|split; [constructor | discriminate]].
  destruct (dict_get data "nonce"); [|split; [constructor | discriminate]].
  split; [constructor|]. intros payload Hpayload url Hurl.
  inversion Hpayload; subst. cbn. auto 10.
Qed.

Lemma report_told :
  spec (calls P)
    (commit <- get_sha_of_latest_commit E (get data "task") ;;
     payload <- evaluation_payload data (get data "task") commit ;;
     evaluation_url <- lift (item data "evaluation_url") ;;
     ping_evaluation_server E evaluation_url payload 3 ;;;
     ret (repo_url payload))
    anything.
Proof.
  apply spec_then; [ | intros commit | intros; exact I ].
  { apply get_sha_of_latest_commit_calls, asks_commit. }
  eapply spec_bind;
    [ apply evaluation_payload_told | intros payload Hfields | intros; exact I ].
  specialize (Hfields payload eq_refl).
  apply (spec_bind _ (returning (fun url => dict_get data "evaluation_url" = Some url)));
    [ apply spec_lift; intros url Hurl; apply (item_get _ _ _ Hurl)
    | intros url Hurl | intros; exact I ].
  specialize (Hurl url eq_refl).
  apply spec_then; [ | intros _; repeat spec_step | intros; exact I ].
  apply ping_evaluation_server_calls, notifies, Hfields, Hurl.
Qed.

Lemma push_files_to_repo_each (repo_name round : JSON) (files : list Dict) :
  (forall file, In file files ->
                spec (calls P) (push_file E repo_name round file) anything) ->
  spec (calls P) (push_files_to_repo E repo_name files round) anything.
Proof.
  induction files as [|file rest IH]; intros Hfiles; cbn [push_files_to_repo].
  - repeat spec_step.
  - apply spec_then; [ | intros file' | intros e; exact I ].
    + apply Hfiles. left. reflexivity.
    + apply spec_then; [ | intros rest' | intros e; exact I ].
      * apply IH. intros f Hin. apply Hfiles. right. exact Hin.
      * repeat spec_step.
Qed.

Lemma task_of_request :
  spec (calls P) (lift (item data "task"))
    (returning (fun repo_name => repo_name = get data "task")).
Proof.
  apply spec_lift. intros repo_name Hitem. apply (item_get _ _ _ Hitem).
Qed.

Lemma build_initial_application_each :
  P (CreateRepo (get data "task")) ->
  P (EnablePages (get data "task")) ->
  (forall item,
     spec (calls P) (push_file E (get data "task") (JNum 1) (write_entry item))
          anything) ->
  spec (calls P) (build_initial_application E data) anything.
Proof.
  intros Hcreate Hpages Hadd. unfold build_initial_application.
  apply (spec_try_except _ anything);
    [ | intros; exact I | intros e _; repeat spec_step ].
  eapply spec_bind;
    [ apply task_of_request | intros repo_name Hrepo | intros; exact I ].
  rewrite (Hrepo repo_name eq_refl). clear repo_name Hrepo.
  apply spec_then; [repeat spec_step | intros brief | intros; exact I].
  eapply spec_bind;
    [ apply write_code_with_llm_calls, generates
    | intros files Hfiles | intros; exact I ].
  destruct (Hfiles files eq_refl) as [items ->].
  apply spec_then; [ | intros _ | intros; exact I ].
  { apply create_github_repo_calls, Hcreate. }
  apply spec_then; [ | intros _ | intros; exact I ].
  { apply push_files_to_repo_each. intros file Hin.
    apply in_map_iff in Hin as [item [<- _]]. apply Hadd. }
  apply spec_then; [ | intros _ | intros; exact I ].
  { apply enable_github_pages_calls, Hpages. }
  apply report_told.
Qed.

Lemma revise_existing_application_each :
  (forall name, P (GetContents (get data "task") name "main")) ->
  (forall file,
     spec (calls P)
          (push_file E (get data "task") (get_or data "round" (JNum 2)) file)
          anything) ->
  spec (calls P) (revise_existing_application E data) anything.
Proof.
  intros Hread Hupdate. unfold revise_existing_application.
  apply (spec_try_except _ anything);
    [ | intros; exact I | intros e _; repeat spec_step ].
  eapply spec_bind;
    [ apply task_of_request | intros repo_name Hrepo | intros; exact I ].
  rewrite (Hrepo repo_name eq_refl). clear repo_name Hrepo.
  apply spec_then; [ | intros existing | intros; exact I].
  { apply fetch_existing_calls, Hread. }
  apply spec_then; [repeat spec_step | intros brief | intros; exact I].
  apply spec_then; [ | intros files | intros; exact I ].
  { eapply spec_conseq;
      [apply update_code_with_llm_calls, generates | intros; exact I]. }
  cbv zeta.
  apply spec_then; [ | intros _ | intros; exact I ].
  { apply push_files_to_repo_each. intros file _. apply Hupdate. }
  apply report_told.
Qed.

Lemma process_task_background_each :
  P (GetRepo (get data "task")) ->
  (forall name, P (GetContents (get data "task") name "main")) ->
  spec (calls P) (build_initial_application E data) anything ->
  spec (calls P) (revise_existing_application E data) anything ->
  spec (calls P) (process_task_background E data) anything.
Proof.
  intros Hrepo Hread Hbuild Hrevise. unfold process_task_background. cbv zeta.
  repeat first [ exact Hrevise | exact Hbuild
               | apply repository_exists_calls; exact Hrepo
               | apply check_repo_has_required_files_calls; exact Hread
               | spec_step ].
Qed.

End Addressing.

Section Shapes.

Variable E : Env.

Lemma push_file_addressed (data : Dict) (round : JSON) (file : Dict) :
  spec (calls (fun c => addressed data c /\ reports data c))
       (push_file E (get data "task") round file) anything.
Proof.
  unfold push_file, print_short, refresh_sha, payload_content.
  repeat first [ apply response_json_calls
               | apply get_file_content_from_repo_calls; repeat split
               | spec_step ];
    intros o; repeat split.
Qed.

Lemma push_file_creates (repo_name item : JSON) :
  spec (calls creates) (push_file E repo_name (JNum 1) (write_entry item))
       anything.
Proof.
  unfold push_file.
  change (get (write_entry item) "sha") with JNull.
  change (get_or (write_entry item) "action"
            (JStr (if is_one (JNum 1) then "create" else "update")))
    with (JStr "create").
  change (dict_mem (write_entry item) "sha") with false.
  apply spec_then; [unfold print_short; repeat spec_step | intros _ | intros; exact I].
  apply (spec_bind _ (returning (fun r => r = (JNull, JStr "create"))));
    [ apply spec_ret; intros r Hr; inversion Hr; reflexivity
    | intros r Hr | intros; exact I ].
  rewrite (Hr r eq_refl). clear r Hr. unfold payload_content.
  cbn [is_str String.eqb Ascii.eqb Bool.eqb andb negb truthy].
  repeat first [ apply response_json_calls | spec_step ];
    intros o; repeat split; reflexivity.
Qed.

Lemma push_file_revises (data : Dict) (repo_name : JSON) (file : Dict) :
  spec (calls (revises data))
       (push_file E repo_name (get_or data "round" (JNum 2)) file) anything.
Proof.
  unfold push_file, print_short, refresh_sha, payload_content.
  repeat first [ apply response_json_calls
               | apply get_file_content_from_repo_calls; exact I
               | spec_step ];
    intros o; reflexivity.
Qed.

Lemma process_task_background_addressed (data : Dict) :
  spec (calls (fun c => addressed data c /\ reports data c))
       (process_task_background E data) anything.
Proof.
  apply process_task_background_each; try (repeat split; fail).
  - apply build_initial_application_each; try (repeat split; fail).
    + intros url payload Htold. split; [exact I | exact Htold].
    + intros item. apply push_file_addressed.
  - apply revise_existing_application_each; try (repeat split; fail).
    + intros url payload Htold. split; [exact I | exact Htold].
    + intros file. apply push_file_addressed.
Qed.

End Shapes.

(** X7: every post that a run of [process_task_background] makes to the
    evaluation callback goes to the [evaluation_url] of the request and
    carries the [email], [task], [round] and [nonce] of the request; the
    repository and Pages addresses it carries are those of the repository
    named by the task. *)
Theorem notification_carries_the_request :
  forall (E : Env) (data : Dict) (h : History),
    Forall (calls (reports data)) (fst (process_task_background E data h)).
Proof.
  intros E data h.
  destruct (process_task_background_addressed E data h) as [Hcalls _].
  refine (Forall_impl _ _ Hcalls).
  intros [c o| |]; cbn [calls]; tauto.
Qed.

(** X8: every call that a run of [process_task_background] makes to the
    repository host is about the repository named by the [task] of the
    request, reads are of its [main] branch, and the message of a file write
    names the file written. *)
Theorem calls_address_the_task :
  forall (E : Env) (data : Dict) (h : History),
    Forall (calls (addressed data)) (fst (process_task_background E data h)).
Proof.
  intros E data h.
  destruct (process_task_background_addressed E data h) as [Hcalls _].
  refine (Forall_impl _ _ Hcalls).
  intros [c o| |]; cbn [calls]; tauto.
Qed.

(** X9: [build_initial_application] reads nothing from the repository, and
    every file it writes is added without token, with a message of round 1,
    whatever round the request names. *)
Theorem build_initial_application_only_adds :
  forall (E : Env) (data : Dict) (h : History),
    Forall (calls creates) (fst (build_initial_application E data h)).
Proof.
  intros E data h.
  refine (proj1 (build_initial_application_each E creates data _ _ _ _ _ _ h));
    try exact I; try (intros; exact I).
  intros item. apply push_file_creates.
Qed.

(** X10: [revise_existing_application] creates no repository and does not
    enable Pages, and the message of every file it writes carries the round
    of the request, 2 when the request names none. *)
Theorem revise_existing_application_only_writes :
  forall (E : Env) (data : Dict) (h : History),
    Forall (calls (revises data)) (fst (revise_existing_application E data h)).
Proof.
  intros E data h.
  refine (proj1 (revise_existing_application_each E (revises data) data
                   _ _ _ _ _ h));
    try exact I; try (intros; exact I).
  intros file. apply push_file_revises.
Qed.

(** ** A write that is refused *)

Lemma push_file_rejected (E : Env) (repo_name round : JSON) (file : Dict)
    (h : History) (pre : list Event) (name : JSON) (payload : PutPayload)
    (response : Response) :
  fst (push_file E repo_name round file h)
    = pre ++ [EvHttp (PutContents repo_name name payload) (Returns response)] ->
  accepted (PutContents repo_name name payload) (status_code response) = false ->
  snd (push_file E repo_name round file h)
    = Raise (Failed StepPushFile (status_code response)).
Proof.
  intros Hevents Hrejected.
  assert (Hlast : last (fst (push_file E repo_name round file h)) (EvSleep 0)
                  = EvHttp (PutContents repo_name name payload) (Returns response))
    by (rewrite Hevents; apply last_last).
  clear Hevents. cbn [accepted] in Hrejected.
  destruct (push_file E repo_name round file h) as [es r] eqn:Hrun.
  cbn [fst snd] in *.
  unfold push_file, print_short, refresh_sha, get_file_content_from_repo,
    payload_content, request, response_json, guard, bind, ret, lift, raise
    in Hrun.
  split_run Hrun; inversion Hrun; subst; clear Hrun; cbn [last] in Hlast;
    try discriminate Hlast; inversion Hlast; subst;
    first [ reflexivity | congruence ].
Qed.

(** X11: [push_files_to_repo] stops at the first write that the host
    refuses.  When the files before [file] were written and the write of
    [file] is answered with a status other than 200 and 201, the function
    raises the failure of that write with that status: the events are those
    of the files before and of [file], and nothing is done for the files
    after it; the files written before stay written. *)
Theorem push_files_to_repo_stops_at_rejection :
  forall (E : Env) (repo_name round : JSON) (before after : list Dict)
         (file : Dict) (h : History) (es : list Event) (done : list Dict)
         (pre : list Event) (name : JSON) (payload : PutPayload)
         (response : Response),
    push_files_to_repo E repo_name before round h = (es, Val done) ->
    fst (push_file E repo_name round file (h ++ es))
      = pre ++ [EvHttp (PutContents repo_name name payload) (Returns response)] ->
    accepted (PutContents repo_name name payload) (status_code response) = false ->
    push_files_to_repo E repo_name (before ++ file :: after) round h
      = (es ++ pre ++ [EvHttp (PutContents repo_name name payload)
                              (Returns response)],
         Raise (Failed StepPushFile (status_code response))).
Proof.
  intros E repo_name round before after file h es done pre name payload
    response Hbefore Hevents Hrejected.
  pose proof (push_file_rejected _ _ _ _ _ _ _ _ _ Hevents Hrejected) as Hraised.
  rewrite (push_files_to_repo_app _ _ _ _ _ _ _ _ Hbefore).
  destruct (push_file E repo_name round file (h ++ es)) as [es' r] eqn:Hfile.
  cbn [fst snd] in Hevents, Hraised. subst es' r.
  rewrite (proj1 (push_files_to_repo_cons E repo_name round file after (h ++ es))
             _ _ Hfile).
  reflexivity.
Qed.

Lemma push_files_to_repo_stops_at_rejection_witness :
  push_files_to_repo protected (JStr "site")
    ([index_file] ++ readme_file :: [index_file]) (JNum 1) []
  = (fst (push_files_to_repo protected (JStr "site") [index_file] (JNum 1) [])
     ++ [] ++ [EvHttp (PutContents (JStr "site") (JStr "README.md")
                         {| message_verb := Add;
                            message_file := JStr "README.md";
                            message_round := JNum 1;
                            content := "# Overview";
                            sha := None |})
                      (Returns {| status_code := 422; json := Some (JObj []) |})],
     Raise (Failed StepPushFile 422)).
Proof.
  apply (push_files_to_repo_stops_at_rejection protected (JStr "site") (JNum 1)
           [index_file] [index_file] readme_file []
           (fst (push_files_to_repo protected (JStr "site") [index_file]
                   (JNum 1) []))
           [index_file] []
           (JStr "README.md")
           {| message_verb := Add; message_file := JStr "README.md";
              message_round := JNum 1; content := "# Overview"; sha := None |}
           {| status_code := 422; json := Some (JObj []) |});
    reflexivity.
Defined.

(** ** The answer to a write *)

Lemma is_str_create_not_update (v : JSON) :
  is_str v "create" = true -> is_str v "update" = false.
Proof.
  destruct v; simpl; try discriminate.
  intros H. apply String.eqb_eq in H. subst. reflexivity.
Qed.

(** X12: a file that is created and carries no [sha] key has the answer to
    its write parsed.  When the host accepts the write (200 or 201) and the
    answer has no JSON body, [push_files_to_repo] raises at that file, after
    the write was made. *)
Theorem accepted_creation_needs_json_answer :
  forall (E : Env) (repo_name round : JSON) (file : Dict) (h : History)
         (text : string) (response : Response),
    let put := put_call E repo_name (get file "name") round Add text None in
    is_str (resolved_action round file) "create" = true ->
    dict_mem file "sha" = false ->
    get file "content" = JStr text ->
    answer E h put = Returns response ->
    accepted put (status_code response) = true ->
    json response = None ->
    push_file E repo_name round file h
      = ([EvHttp put (Returns response)], Raise JSONDecodeError).
Proof.
  intros E repo_name round file h text response put Hcreate Hsha Hcontent
    Hanswer Haccepted Hjson.
  pose proof (is_str_create_not_update _ Hcreate) as Hupdate.
  assert (Hnull : get file "sha" = JNull).
  { unfold get, get_or. unfold dict_mem in Hsha.
    destruct (dict_get file "sha"); [discriminate | reflexivity]. }
  unfold put, put_call, answer, resolved_action in *. cbn [accepted] in Haccepted.
  unfold push_file. rewrite Hnull, Hcontent.
  unfold print_short, refresh_sha, payload_content, request, response_json,
    guard, bind, ret, lift, raise.
  cbn [truthy]. rewrite Hupdate. cbn [andb app].
  rewrite ?app_nil_r. rewrite Hupdate. cbn [andb]. rewrite Hanswer.
  cbv beta iota. rewrite Haccepted, Hcreate, Hsha. cbn [andb negb].
  rewrite Hjson. reflexivity.
Qed.

Lemma accepted_creation_needs_json_answer_witness :
  push_file terse (JStr "site") (JNum 1) index_file []
  = ([EvHttp (put_call terse (JStr "site") (get index_file "name") (JNum 1)
                Add "<html></html>" None)
             (Returns {| status_code := 201; json := None |})],
     Raise JSONDecodeError).
Proof.
  apply (accepted_creation_needs_json_answer terse (JStr "site") (JNum 1)
           index_file [] "<html></html>"
           {| status_code := 201; json := None |});
    reflexivity.
Defined.

(** ** Actions other than an update *)

Lemma revised_content (existing : list ExistingFile) (item : JSON) :
  get (revised existing item) "content" = field item "content" JNull.
Proof.
  unfold revised, update_entry, ensure_sha, get, get_or.
  destruct (sha_map_get _ _) as [token|];
    [destruct (is_str (field item "action" (JStr "update")) "update") eqn:Hu|];
    cbn [app dict_mem dict_get get get_or String.eqb Ascii.eqb Bool.eqb];
    rewrite ?Hu; cbn [andb negb]; try reflexivity.
  destruct (is_str (field item "action" (JStr "update")) "update");
    cbn [andb]; [|reflexivity].
  destruct (find _ existing); reflexivity.
Qed.

Lemma revised_without_token (existing : list ExistingFile) (item : JSON) :
  is_str (field item "action" (JStr "update")) "update" = false ->
  get (revised existing item) "sha" = JNull.
Proof.
  intros Hu. unfold revised, update_entry, ensure_sha, get, get_or.
  destruct (sha_map_get _ _) as [token|]; rewrite ?Hu;
    cbn [app dict_mem dict_get get get_or String.eqb Ascii.eqb Bool.eqb];
    rewrite ?Hu; cbn [andb negb]; reflexivity.
Qed.

(** X13: in a revision, a generated item whose action is anything but
    [update] is written as an addition without token, and the file is not
    read before - also when the file exists and its token is known. *)
Theorem action_other_than_update_is_added :
  forall (E : Env) (repo_name round : JSON) (existing : list ExistingFile)
         (item : JSON) (h : History) (text : string),
    let put := put_call E repo_name (field item "name" JNull) round Add text None in
    is_str (field item "action" (JStr "update")) "update" = false ->
    field item "content" JNull = JStr text ->
    fst (push_file E repo_name round (revised existing item) h)
      = [EvHttp put (answer E h put)].
Proof.
  intros E repo_name round existing item h text put Haction Hcontent.
  pose proof (revised_action existing item round) as Hresolved.
  unfold resolved_action in Hresolved.
  unfold put, put_call, answer, push_file.
  rewrite Hresolved, revised_name, revised_content, Hcontent,
    (revised_without_token _ _ Haction).
  unfold print_short, refresh_sha, payload_content, request, response_json,
    guard, bind, ret, lift, raise.
  cbn [truthy]. rewrite Haction. cbn [andb app]. rewrite ?app_nil_r.
  rewrite Haction. cbn [andb].
  destruct (remote E (outside_view h) _) as [response|e]; [|reflexivity].
  cbv beta iota.
  destruct ((status_code response =? 200) || (status_code response =? 201));
    [|reflexivity].
  cbn [app].
  repeat match goal with
         | |- context [match ?x with _ => _ end] =>
             lazymatch x with
             | context [match _ with _ => _ end] => fail
             | _ => destruct x
             end
         end; reflexivity.
Qed.

Lemma action_other_than_update_is_added_witness :
  fst (push_file live (JStr "site") (JNum 2)
         (revised [existing_index] recreated_index) [])
  = [EvHttp (put_call live (JStr "site") (JStr "index.html") (JNum 2) Add
               "<html>new</html>" None)
            (status_only 200)].
Proof.
  apply (action_other_than_update_is_added live (JStr "site") (JNum 2)
           [existing_index] recreated_index [] "<html>new</html>");
    reflexivity.
Defined.

(** ** Attachments *)

Lemma attachment_context_rejects (E : Env) (attachments : list JSON) :
  forallb is_object attachments = false ->
  forall h, attachment_context E attachments h = ([], Raise AttributeError).
Proof.
  induction attachments as [|attachment rest IH]; intros Hbad h;
    [discriminate Hbad|].
  cbn [forallb] in Hbad. cbn [attachment_context].
  destruct attachment as [| | | | |d]; try reflexivity.
  cbn [is_object andb] in Hbad.
  rewrite bind_lift. cbn [py_get]. rewrite bind_lift. cbn [py_get].
  destruct (as_data_uri _) as [uri|].
  - rewrite (bind_silent _ _ (Raise AttributeError)); [reflexivity|].
    intros h'. apply IH, Hbad.
  - apply IH, Hbad.
Qed.

(** X14: when [attachments] holds something that is not an object - a list
    of names, or a string, whose characters are iterated - both generation
    functions raise [AttributeError] before any call is made: nothing is
    asked of the generation service. *)
Theorem attachment_that_is_no_object_aborts :
  forall (E : Env) (brief checks attachments repo_name : JSON)
         (existing_files : list ExistingFile) (items : list JSON) (h : History),
    py_iter (or_empty attachments) = Val items ->
    forallb is_object items = false ->
    write_code_with_llm E brief checks attachments h = ([], Raise AttributeError) /\
    update_code_with_llm E brief checks attachments repo_name existing_files h
      = ([], Raise AttributeError).
Proof.
  intros E brief checks attachments repo_name existing_files items h Hiter Hbad.
  unfold write_code_with_llm, update_code_with_llm.
  rewrite !bind_lift, Hiter.
  rewrite !(bind_silent _ _ (Raise AttributeError));
    try (intros h'; apply attachment_context_rejects, Hbad).
  split; reflexivity.
Qed.

Lemma attachment_that_is_no_object_aborts_witness :
  write_code_with_llm fresh (JStr "a landing page") (JArr [])
    (JArr [JStr "logo.png"]) [] = ([], Raise AttributeError) /\
  update_code_with_llm fresh (JStr "a landing page") (JArr [])
    (JArr [JStr "logo.png"]) (JStr "site") [] [] = ([], Raise AttributeError).
Proof.
  apply (attachment_that_is_no_object_aborts fresh (JStr "a landing page")
           (JArr []) (JArr [JStr "logo.png"]) (JStr "site") []
           [JStr "logo.png"] []);
    reflexivity.
Defined.

Lemma prefix_empty (s : string) : prefix "" s = true.
Proof. destruct s; reflexivity. Qed.

Lemma index_first_comma (header body : string) :
  index 0 "," header = None ->
  index 0 "," (header ++ String "," body) = Some (String.length header).
Proof.
  induction header as [|a s IH]; intros Hnone.
  { cbn [append index String.length]. unfold prefix. fold prefix.
    destruct (ascii_dec "," ",") as [_|Hneq]; [|congruence].
    rewrite prefix_empty. reflexivity. }
  cbn [append index String.length] in Hnone |- *.
  unfold prefix in Hnone |- *. fold prefix in Hnone |- *.
  destruct (ascii_dec "," a) as [Heq|Hneq].
  - rewrite prefix_empty in Hnone. discriminate Hnone.
  - destruct (index 0 "," s) as [n|] eqn:Hs; [discriminate Hnone|].
    rewrite (IH eq_refl). reflexivity.
Qed.

Lemma substring_all (s : string) : substring 0 (String.length s) s = s.
Proof. induction s as [|a s IH]; [reflexivity|]. cbn. rewrite IH. reflexivity. Qed.

Lemma substring_after_comma (header body : string) :
  let uri := (header ++ String "," body)%string in
  substring (S (String.length header))
            (String.length uri - S (String.length header)) uri = body.
Proof.
  induction header as [|a s IH]; cbn [append String.length substring Nat.sub].
  - rewrite Nat.sub_0_r. apply substring_all.
  - exact IH.
Qed.

(** X15: the text of an attachment is what follows the first comma of its
    data URI, commas included: a URI made of a header without comma, a comma
    and a body is decoded as the base64 decoding of the body. *)
Theorem decode_data_uri_after_first_comma :
  forall (E : Env) (header body : string),
    index 0 "," header = None ->
    decode_data_uri E (header ++ "," ++ body) = b64decode_utf8 E body.
Proof.
  intros E header body Hheader. unfold decode_data_uri.
  change ("," ++ body)%string with (String "," body).
  rewrite (index_first_comma _ _ Hheader).
  rewrite (substring_after_comma header body). reflexivity.
Qed.

Lemma decode_data_uri_after_first_comma_witness :
  decode_data_uri fresh ("data:text/csv;base64" ++ "," ++ "YSxi,Yyxk")
  = b64decode_utf8 fresh "YSxi,Yyxk".
Proof.
  apply (decode_data_uri_after_first_comma fresh "data:text/csv;base64"
           "YSxi,Yyxk").
  reflexivity.
Defined.

(** ** The second pass over the revised files *)

Lemma sha_map_keeps (existing : list ExistingFile) (name : string) :
  forall acc,
    dict_get acc name <> None ->
    dict_get (fold_left (fun m ef => dict_set m (ef_name ef) (ef_sha ef))
                        existing acc) name <> None.
Proof.
  induction existing as [|ef existing IH]; intros acc Hacc; [exact Hacc|].
  cbn [fold_left]. apply IH. rewrite dict_get_set.
  destruct (String.eqb name (ef_name ef)); [discriminate | exact Hacc].
Qed.

Lemma sha_map_of_none (existing : list ExistingFile) (name : string) :
  forall acc,
    dict_get (fold_left (fun m ef => dict_set m (ef_name ef) (ef_sha ef))
                        existing acc) name = None ->
    forall ef, In ef existing -> ef_name ef <> name.
Proof.
  induction existing as [|ef existing IH]; intros acc Hnone ef' Hin;
    [destruct Hin|].
  cbn [fold_left] in Hnone. destruct Hin as [<- | Hin].
  - intros Hname. revert Hnone. apply sha_map_keeps.
    rewrite dict_get_set, Hname, String.eqb_refl. discriminate.
  - exact (IH _ Hnone ef' Hin).
Qed.

Lemma ensure_sha_update_entry (existing : list ExistingFile) (item : JSON) :
  ensure_sha existing (update_entry (sha_map_of existing) item)
  = update_entry (sha_map_of existing) item.
Proof.
  unfold ensure_sha, update_entry.
  destruct (sha_map_get (sha_map_of existing) (field item "name" JNull))
    as [token|] eqn:Hmap.
  - destruct (is_str (field item "action" (JStr "update")) "update") eqn:Hu;
      cbn [app dict_mem dict_get get get_or String.eqb Ascii.eqb Bool.eqb];
      rewrite ?Hu; reflexivity.
  - cbn [app dict_mem dict_get get get_or String.eqb Ascii.eqb Bool.eqb].
    destruct (is_str (field item "action" (JStr "update")) "update");
      cbn [andb negb]; [|reflexivity].
    unfold sha_map_get, sha_map_of in Hmap.
    destruct (field item "name" JNull) as [| | |name| |];
      try (destruct (find _ existing) as [ef|] eqn:Hfind;
           [apply find_some in Hfind as [_ Hstr]; discriminate Hstr
           | reflexivity]).
    rewrite (find_existing_absent existing name (sha_map_of_none _ _ _ Hmap)).
    reflexivity.
Qed.

(** X16: the loop of [revise_existing_application] that completes the
    action and the token of the revised files changes none of them: every
    file that [update_code_with_llm] returns has its action already, and an
    update of a file that was read has its token already. *)
Theorem second_pass_changes_nothing :
  forall (E : Env) (brief checks attachments repo_name : JSON)
         (existing_files : list ExistingFile) (h : History),
    match snd (update_code_with_llm E brief checks attachments repo_name
                 existing_files h) with
    | Val updated_files =>
        map (ensure_sha existing_files) updated_files = updated_files
    | Raise _ => True
    end.
Proof.
  intros E brief checks attachments repo_name existing_files h.
  destruct (update_code_with_llm_calls E (fun _ => True) brief checks
              attachments repo_name existing_files (fun _ => I) h)
    as [_ Hfiles].
  destruct (snd _) as [updated_files|e]; [|exact I].
  destruct (Hfiles updated_files eq_refl) as [items ->].
  rewrite map_map. apply map_ext. intros item. apply ensure_sha_update_entry.
Qed.

(** ** The commit that is reported *)

Lemma last_commit_app (v : History) (e : Event) :
  last_commit (v ++ [e]) =
  match e with
  | EvHttp (GetCommit _ _) o => Some o
  | _ => last_commit v
  end.
Proof.
  induction v as [|e' v IH]; cbn [app last_commit].
  - destruct e as [[] o| |]; reflexivity.
  - rewrite IH. destruct e as [[] o| |]; try reflexivity;
      destruct (last_commit v); reflexivity.
Qed.

Lemma get_sha_of_latest_commit_run (E : Env) (repo_name : JSON) (h : History) :
  get_sha_of_latest_commit E repo_name h =
  ([EvHttp (GetCommit repo_name "main") (answer E h (GetCommit repo_name "main"))],
   commit_answer (answer E h (GetCommit repo_name "main"))).
Proof.
  unfold get_sha_of_latest_commit, commit_answer, answer, request,
    response_json, guard, bind, ret, raise, lift.
  destruct (remote E _ _) as [r|e]; [|reflexivity]. cbv beta iota.
  destruct (status_code r =? 200); [|reflexivity].
  destruct (json r) as [j|]; [|reflexivity]. cbn [app fst snd].
  destruct (py_get j "sha" JNull); reflexivity.
Qed.

Lemma quiet_guarded_any (G : History -> Event -> Prop) :
  (forall v e, posts [e] = 0%nat -> G v e) ->
  forall (es : list Event) (v : History), posts es = 0%nat -> guarded G v es.
Proof.
  intros HG. induction es as [|e es IH]; intros v H; cbn [guarded]; [exact I|].
  change (e :: es) with ([e] ++ es) in H. rewrite posts_app in H.
  split; [apply HG; lia | apply IH; lia].
Qed.

(** A tracked step keeps whatever is asked of the posts only. *)
Lemma tracked_quiet {A} (G : History -> Event -> Prop) (before : History)
    (m : M A) :
  (forall v e, posts [e] = 0%nat -> G v e) ->
  tracked m ->
  triple before on_track m G kept_on_track.
Proof.
  intros HG Hm v Hv. destruct (Hm before v Hv) as [_ Hkept].
  split; [|exact Hkept].
  apply quiet_guarded_any; [exact HG|].
  assert (Hposts : posts (v ++ fst (m (before ++ v))) = 0%nat)
    by (destruct (snd (m (before ++ v))); [exact (proj2 Hkept) | exact Hkept]).
  rewrite posts_app in Hposts. lia.
Qed.

Lemma reports_last_commit_quiet (v : History) (e : Event) :
  posts [e] = 0%nat -> reports_last_commit v e.
Proof. destruct e as [[] o| |]; try discriminate; intros _; exact I. Qed.

Ltac commit_step lemma :=
  eapply triple_bind with (Q := kept_on_track);
  [ apply tracked_quiet; [apply reports_last_commit_quiet | apply lemma]
  | intros ?
  | intros; exact I ].

Section Commit.

Variable E : Env.
Variable before : History.

Lemma posts_report_last_commit (evaluation_url : JSON)
    (payload : EvaluationPayload) (es : list Event) :
  Forall (calls (fun c => c = PostEvaluation evaluation_url payload)) es ->
  forall v, commit_known (commit_sha payload) v ->
            guarded reports_last_commit v es.
Proof.
  induction es as [|e es IH]; intros Hcalls v Hv; cbn [guarded]; [exact I|].
  inversion Hcalls as [|? ? He Hes]; subst.
  assert (Hkept : commit_known (commit_sha payload) (v ++ [e])).
  { destruct Hv as [o [Hlast Hanswer]]. exists o. split; [|exact Hanswer].
    rewrite last_commit_app.
    destruct e as [c o'| |]; try exact Hlast.
    cbn [calls] in He. subst c. exact Hlast. }
  split; [|apply IH; assumption].
  destruct e as [c o'| |]; try exact I.
  cbn [calls] in He. subst c. exact Hv.
Qed.

Lemma ping_reports_last_commit (evaluation_url : JSON)
    (payload : EvaluationPayload) (max_retries : Z) :
  triple before (commit_known (commit_sha payload))
    (ping_evaluation_server E evaluation_url payload max_retries)
    reports_last_commit (fun _ _ => True).
Proof.
  intros v Hv. split; [|exact I].
  apply (posts_report_last_commit evaluation_url payload); [|exact Hv].
  apply (ping_evaluation_server_calls E
           (fun c => c = PostEvaluation evaluation_url payload)
           evaluation_url payload max_retries eq_refl (before ++ v)).
Qed.

Lemma report_commit (data : Dict) (repo_name : JSON) :
  triple before on_track
    (commit <- get_sha_of_latest_commit E repo_name ;;
     payload <- evaluation_payload data repo_name commit ;;
     evaluation_url <- lift (item data "evaluation_url") ;;
     ping_evaluation_server E evaluation_url payload 3 ;;;
     ret (repo_url payload))
    reports_last_commit (fun _ _ => True).
Proof.
  eapply triple_bind
    with (Q := fun r v => forall commit, r = Val commit -> commit_known commit v);
    [ | intros commit | intros; exact I ].
  { intros v _. rewrite get_sha_of_latest_commit_run. cbn [fst snd guarded].
    split; [split; exact I|].
    intros commit Hcommit. eexists.
    split; [rewrite last_commit_app; reflexivity | exact Hcommit]. }
  eapply triple_bind
    with (Q := fun r v => forall payload,
                 r = Val payload -> commit_known (commit_sha payload) v);
    [ | intros payload | intros; exact I ].
  { intros v Hv. specialize (Hv commit eq_refl).
    unfold evaluation_payload, bind, lift, ret, item.
    destruct (dict_get data "email"); [|split; [exact I | discriminate]].
    destruct (dict_get data "task"); [|split; [exact I | discriminate]].
    destruct (dict_get data "round"); [|split; [exact I | discriminate]].
    destruct (dict_get data "nonce"); [|split; [exact I | discriminate]].
    cbn [fst snd app guarded]. rewrite !app_nil_r. split; [exact I|].
    intros payload Hpayload. inversion Hpayload; subst. exact Hv. }
  eapply triple_bind
    with (Q := fun (r : Res JSON) v => commit_known (commit_sha payload) v);
    [ | intros evaluation_url | intros; exact I ].
  { apply triple_lift. intros v Hv. exact (Hv payload eq_refl). }
  eapply triple_bind with (Q := fun _ _ => True);
    [ apply ping_reports_last_commit
    | intros _; apply triple_ret; intros; exact I
    | intros; exact I ].
Qed.

Lemma failure_logged_commit {A} (l : Line) (e : Exn) :
  triple before (fun _ => True) (print l ;;; @raise A e) reports_last_commit
    (fun _ _ => True).
Proof. intros v _. cbn. auto. Qed.

Lemma build_initial_application_commit (data : Dict) :
  triple before on_track (build_initial_application E data)
    reports_last_commit (fun _ _ => True).
Proof.
  unfold build_initial_application.
  eapply triple_try_except with (Q := fun _ _ => True);
    [|auto|intros e; apply failure_logged_commit].
  commit_step (@tracked_lift JSON).
  commit_step (@tracked_lift JSON).
  commit_step write_code_with_llm_tracked.
  commit_step create_github_repo_tracked.
  commit_step push_files_to_repo_tracked.
  commit_step enable_github_pages_tracked.
  apply report_commit.
Qed.

Lemma revise_existing_application_commit (data : Dict) :
  triple before on_track (revise_existing_application E data)
    reports_last_commit (fun _ _ => True).
Proof.
  unfold revise_existing_application.
  eapply triple_try_except with (Q := fun _ _ => True);
    [|auto|intros e; apply failure_logged_commit].
  commit_step (@tracked_lift JSON).
  commit_step fetch_existing_tracked.
  commit_step (@tracked_lift JSON).
  commit_step update_code_with_llm_tracked.
  commit_step push_files_to_repo_tracked.
  apply report_commit.
Qed.

Lemma process_task_background_commit (data : Dict) :
  triple before on_track (process_task_background E data)
    reports_last_commit (fun _ _ => True).
Proof.
  unfold process_task_background. cbv zeta.
  eapply triple_try_except with (Q := fun _ _ => True);
    [|auto|intros e v _; cbn; auto].
  commit_step tracked_print.
  commit_step repository_exists_tracked.
  commit_step repository_state_tracked.
  match goal with |- triple _ _ (if ?b then _ else _) _ _ => destruct b end.
  - commit_step tracked_print.
    eapply triple_bind with (Q := fun _ _ => True);
      [ apply revise_existing_application_commit
      | intros ? v _; cbn; auto
      | intros; exact I ].
  - commit_step tracked_print.
    eapply triple_bind with (Q := fun _ _ => True);
      [ apply build_initial_application_commit
      | intros ? v _; cbn; auto
      | intros; exact I ].
Qed.

End Commit.

(** X17: the [commit_sha] that a run of [process_task_background] posts to
    the evaluation callback is the [sha] of the answer to the last commit
    query made before the post in that run, [None] when that answer has no
    [sha]; the query was answered with status 200 and a JSON body. *)
Theorem notification_carries_last_commit :
  forall (E : Env) (data : Dict) (h : History) (pre post : list Event)
         (evaluation_url : JSON) (payload : EvaluationPayload) (o : Outcome),
    fst (process_task_background E data h)
      = pre ++ EvHttp (PostEvaluation evaluation_url payload) o :: post ->
    exists answer,
      last_commit pre = Some answer /\
      commit_answer answer = Val (commit_sha payload).
Proof.
  intros E data h pre post evaluation_url payload o Hrun.
  destruct (process_task_background_commit E h data [] (conj eq_refl eq_refl))
    as [Hguarded _].
  rewrite app_nil_r, Hrun in Hguarded.
  exact (guarded_at _ _ _ _ _ Hguarded).
Qed.

Lemma notification_carries_last_commit_witness :
  exists answer,
    last_commit (firstn 10 (fst (process_task_background fresh full_request [])))
      = Some answer /\
    commit_answer answer = Val (JStr "c0ffee").
Proof.
  apply (notification_carries_last_commit fresh full_request []
           (firstn 10 (fst (process_task_background fresh full_request [])))
           (skipn 11 (fst (process_task_background fresh full_request [])))
           (JStr "https://eval.example.org/notify")
           {| email := JStr "dev@example.org"; task := JStr "site";
              round := JNum 2; nonce := JStr "n-1"; repo_url := JStr "site";
              commit_sha := JStr "c0ffee"; pages_url := JStr "site" |}
           (Returns {| status_code := 200; json := Some (JObj []) |})).
  reflexivity.
Defined.

(** * What a run publishes *)

Lemma first_post (es : list Event) :
  (1 <= posts es)%nat ->
  exists before evaluation_url payload o after,
    es = before ++ EvHttp (PostEvaluation evaluation_url payload) o :: after /\
    posts before = 0%nat.
Proof.
  induction es as [|e es IH]; cbn [posts]; [lia|].
  intros Hposts.
  assert (Hcases : (exists evaluation_url payload o,
                      e = EvHttp (PostEvaluation evaluation_url payload) o) \/
                   posts [e] = 0%nat).
  { destruct e as [c o| |]; [destruct c|..]; try (right; reflexivity).
    left. eauto. }
  destruct Hcases as [(evaluation_url & payload & o & ->) | Hquiet].
  - exists [], evaluation_url, payload, o, es. split; reflexivity.
  - change (e :: es) with ([e] ++ es) in Hposts.
    assert (Hrest : (1 <= posts es)%nat).
    { destruct e as [c o| |]; [destruct c|..]; cbn [app posts] in *;
        try discriminate Hquiet; exact Hposts. }
    destruct (IH Hrest) as (before & evaluation_url & payload & o & after
                            & -> & Hbefore).
    exists (e :: before), evaluation_url, payload, o, after.
    split; [reflexivity|].
    change (e :: before) with ([e] ++ before).
    rewrite posts_app, Hquiet, Hbefore. reflexivity.
Qed.

(** The writes of a run that notifies were accepted. *)
Lemma writes_accepted (E : Env) (data : Dict) (h : History) :
  (1 <= posts (fst (process_task_background E data h)))%nat ->
  forall repo_name file_name payload o,
    In (EvHttp (PutContents repo_name file_name payload) o)
       (fst (process_task_background E data h)) ->
    exists r, o = Returns r /\ (status_code r = 200 \/ status_code r = 201).
Proof.
  intros Hposts repo_name file_name payload o Hin.
  destruct (process_task_background_tracked E h data [] (conj eq_refl eq_refl))
    as [Hguarded _].
  rewrite app_nil_r in Hguarded.
  destruct (first_post _ Hposts)
    as (before & evaluation_url & posted & o' & after & Hrun & Hbefore).
  rewrite Hrun in Hin, Hguarded.
  assert (Hearlier : In (EvHttp (PutContents repo_name file_name payload) o)
                        before).
  { apply in_app_or in Hin as [Hin | [Hin | Hin]];
      [exact Hin | discriminate Hin |].
    apply in_split in Hin as (a1 & a2 & ->).
    change (before ++ EvHttp (PostEvaluation evaluation_url posted) o'
                   :: a1 ++ EvHttp (PutContents repo_name file_name payload) o
                   :: a2)
      with (before ++ (EvHttp (PostEvaluation evaluation_url posted) o' :: a1)
                   ++ EvHttp (PutContents repo_name file_name payload) o :: a2)
      in Hguarded.
    rewrite app_assoc in Hguarded.
    pose proof (proj2 (guarded_at _ _ _ _ _ Hguarded)) as Hlast.
    cbn [app notification_is_last] in Hlast.
    rewrite posts_app in Hlast. cbn [posts] in Hlast. lia. }
  pose proof (proj1 (guarded_at _ _ _ _ _ Hguarded)) as Hsucceeded.
  cbn [app called_after_success] in Hsucceeded.
  rewrite forallb_forall in Hsucceeded.
  specialize (Hsucceeded _ Hearlier). cbn [succeeded] in Hsucceeded.
  destruct o as [r|e]; [|discriminate Hsucceeded].
  exists r. split; [reflexivity|]. cbn [accepted] in Hsucceeded.
  apply orb_true_iff in Hsucceeded as [H | H]; apply Z.eqb_eq in H; auto.
Qed.

(** C8: in every run the generation service is asked at most once, and the
    files written are, in their order, the first of the items of its output
    that are named [index.html] or [README.md], each under its name and
    with its content: an item with another name is never written.  When the
    run completes, every item named [index.html] or [README.md] was
    written, and the host accepted each of these writes. *)
Theorem unrecognised_files_dropped :
  forall (E : Env) (data : Dict) (h : History),
    let es := fst (process_task_background E data h) in
    match generations es with
    | [] => written es = []
    | [o] => exists rest, published E o = written es ++ rest
    | _ :: _ :: _ => False
    end /\
    forall pre line,
      es = pre ++ [EvPrint line] ->
      line = UpdateCompleted \/ line = InitialCreationCompleted ->
      (exists o items,
         generations es = [o] /\ generated_items E o = Val items /\
         written es = expected E items) /\
      forall repo_name file_name payload o,
        In (EvHttp (PutContents repo_name file_name payload) o) es ->
        exists r, o = Returns r /\ (status_code r = 200 \/ status_code r = 201).
Proof.
  intros E data h es.
  destruct (process_task_background_published E h data []
              (conj eq_refl eq_refl)) as [_ [Hpartly Hfully]].
  rewrite app_nil_r in Hpartly, Hfully. cbn [app] in Hpartly, Hfully.
  split; [exact Hpartly|].
  intros pre line Hlast Hline. split; [exact (Hfully pre line Hlast Hline)|].
  apply writes_accepted.
  destruct (process_task_background_tracked E h data [] (conj eq_refl eq_refl))
    as [_ (pre' & closing & Hclosed & Hline')].
  rewrite app_nil_r in Hclosed, Hline'. cbn [app] in Hclosed, Hline'.
  fold es in Hclosed, Hline'. rewrite Hlast in Hclosed.
  apply app_inj_tail in Hclosed as [_ Hsame]. inversion Hsame; subst closing.
  fold es. destruct Hline as [-> | ->]; exact (proj1 Hline').
Qed.

Lemma unrecognised_files_dropped_witness :
  generated_items fresh (completion "two-files")
  = Val [JObj [("name"%string, JStr "index.html");
               ("content"%string, JStr "<html></html>")];
         JObj [("name"%string, JStr "notes.txt");
               ("content"%string, JStr "scratch")];
         JObj [("name"%string, JStr "README.md");
               ("content"%string, JStr "# Overview")]] /\
  written (fst (process_task_background fresh full_request []))
  = [(JStr "index.html", "<html></html>"%string);
     (JStr "README.md", "# Overview"%string)].
Proof.
  split; [reflexivity|].
  destruct (proj1 (proj2 (unrecognised_files_dropped fresh full_request [])
              (firstn 11 (fst (process_task_background fresh full_request [])))
              InitialCreationCompleted eq_refl (or_intror eq_refl)))
    as (o & items & Hgenerations & Hitems & Hwritten).
  injection Hgenerations as <-. injection Hitems as <-. exact Hwritten.
Defined.
